(** * Nudge: bounded discount negotiation and consent-gated fact checking

    A shallow embedding of the Python sources of the Nudge "Bouncer"
    (pricing_service.py, trait_detector.py, agent_router.py,
    discount_service.py, bouncer.py, config_loader.py) together with the
    properties the specification states about them.

    Conventions of the embedding:
    - The numbers of the merchant configuration and the confidences, which
      are computed from counts, are exact rationals [Q].  A discount that a
      caller passes in, and every value computed from one, is a [Number]: a
      Python [float] that is finite (an exact rational; rounding is not
      modelled), infinite, or NaN, with the comparisons and the arithmetic
      of IEEE 754 on the special values.
    - Text is a [string] of 8-bit characters; [str.lower] and [str.strip]
      are modelled on the ASCII range.
    - Every mutating method returns the object after the call next to its
      Python return value.
    - The wall clock ([datetime.now()]) and the random generator are read
      through explicit arguments. *)

From Stdlib Require Import QArith Qminmax ZArith Lia Lqa.
From Stdlib Require Import String Ascii List Permutation Sorted.
From stdpp Require Import base option list gmap strings.

Local Open Scope Q_scope.

(** ** Numbers *)

(** Python's [a < b] on rationals. *)
Definition Qltb (a b : Q) : bool := negb (Qle_bool b a).

(** Python's [min(a, b)] on rationals: the first argument unless the second
    is strictly smaller.  It is used where both arguments are finite: the
    confidence of a detection and the bonus of the configured traits. *)
Definition pymin (a b : Q) : Q := if Qltb b a then b else a.

(** A Python [float]: a finite value (an exact rational here), one of the
    two infinities, or NaN. *)
Inductive Number :=
| Fin (q : Q)
| PosInf
| NegInf
| NaN.

(** [a + b] on floats. *)
Definition fadd (a b : Number) : Number :=
  match a, b with
  | NaN, _ => NaN
  | _, NaN => NaN
  | Fin x, Fin y => Fin (x + y)
  | PosInf, NegInf => NaN
  | NegInf, PosInf => NaN
  | PosInf, _ => PosInf
  | NegInf, _ => NegInf
  | Fin _, PosInf => PosInf
  | Fin _, NegInf => NegInf
  end.

(** [a - b] on floats. *)
Definition fsub (a b : Number) : Number :=
  match a, b with
  | NaN, _ => NaN
  | _, NaN => NaN
  | Fin x, Fin y => Fin (x - y)
  | PosInf, PosInf => NaN
  | NegInf, NegInf => NaN
  | PosInf, _ => PosInf
  | NegInf, _ => NegInf
  | Fin _, PosInf => NegInf
  | Fin _, NegInf => PosInf
  end.

(** [a < b] on floats: false as soon as one side is NaN.  Python's [a > b]
    is [fltb b a]. *)
Definition fltb (a b : Number) : bool :=
  match a, b with
  | NaN, _ => false
  | _, NaN => false
  | Fin x, Fin y => Qltb x y
  | NegInf, NegInf => false
  | NegInf, _ => true
  | PosInf, _ => false
  | Fin _, PosInf => true
  | Fin _, NegInf => false
  end.

(** [a <= b] on floats: false as soon as one side is NaN.  Python's
    [a >= b] is [fleb b a]. *)
Definition fleb (a b : Number) : bool :=
  match a, b with
  | NaN, _ => false
  | _, NaN => false
  | Fin x, Fin y => Qle_bool x y
  | NegInf, _ => true
  | _, PosInf => true
  | PosInf, _ => false
  | Fin _, NegInf => false
  end.

(** [min(a, b)] on floats: the first argument unless the second is strictly
    smaller, so [min(nan, b)] is [nan]. *)
Definition fmin (a b : Number) : Number := if fltb b a then b else a.

(** The two comparisons as propositions. *)
Definition flt (a b : Number) : Prop := fltb a b = true.
Definition fle (a b : Number) : Prop := fleb a b = true.

Arguments fadd : simpl never.
Arguments fsub : simpl never.
Arguments fltb : simpl never.
Arguments fleb : simpl never.
Arguments fmin : simpl never.

(** ** config_loader.py *)

(** One entry of [valuable_traits] in merchant_config.json: either an object
    (with optional [keywords] and [discount_bonus_pct] keys), or the legacy
    bare list of keywords, or any other JSON value. *)
Inductive TraitInfo :=
| TraitDict (keywords : option (list string)) (discount_bonus_pct : option Q)
| TraitLegacy (keywords : list string)
| TraitOther.

(** [Config.merchant_config]: the keys the program reads, each possibly
    absent.  [valuable_traits] is a JSON object; its entries are kept in
    declaration order, which is the iteration order of the Python dict. *)
Record Config := {
  cfg_max_discount_pct : option Q;
  cfg_floor_margin_pct : option Q;
  cfg_first_offer_pct : option Q;
  cfg_counter_step_pct : option Q;
  cfg_max_trait_bonus_pct : option Q;
  cfg_valuable_traits : list (string * TraitInfo);
  cfg_tool_calls : list string
}.

Definition max_discount_pct (c : Config) : Q := default 20 (cfg_max_discount_pct c).
Definition floor_margin_pct (c : Config) : Q := default 18 (cfg_floor_margin_pct c).
Definition first_offer_pct (c : Config) : Q := default 8 (cfg_first_offer_pct c).
Definition counter_step_pct (c : Config) : Q := default 3 (cfg_counter_step_pct c).
Definition tool_calls (c : Config) : list string := cfg_tool_calls c.

(** ** pricing_service.py *)

(** An entry of [NegotiationState.offers]. *)
Record Offer := {
  offer_counter : Z;
  offer_discount_pct : Number;
  offer_margin_pct : Number;
  offer_timestamp : Z
}.

Record NegotiationState := {
  config : Config;
  counter : Z;
  max_counters : Z;
  current_discount_pct : Number;
  offers : list Offer;
  started_at : Z
}.

(** [NegotiationState.__init__]. *)
Definition new_negotiation (cfg : Config) (now : Z) : NegotiationState :=
  {| config := cfg; counter := 0; max_counters := 3;
     current_discount_pct := Fin 0; offers := []; started_at := now |}.

Definition can_make_counter (self : NegotiationState) : bool :=
  (counter self <? max_counters self)%Z.

(** The three [error] messages of [make_offer], with the values that the
    f-strings interpolate. *)
Inductive OfferError :=
| ExceedsMaximum (discount_pct : Number) (maximum : Q)
| MaxCountersReached (maximum : Z)
| BelowFloor (discount_pct margin_pct : Number) (floor : Q).

(** The dictionary of a successful offer.  The last three keys are only
    written by [PricingService.make_discount_offer]; an absent
    [trait_bonus_applied] reads as [False]. *)
Record OfferOk := {
  ok_discount_pct : Number;
  ok_margin_pct : Number;
  ok_counter : Z;
  ok_remaining_counters : Z;
  ok_trait_bonus_applied : bool;
  ok_base_discount_pct : option Number;
  ok_trait_bonus_pct : option Number
}.

Inductive OfferResult :=
| Success (r : OfferOk)
| Failure (e : OfferError).

Definition is_success (r : OfferResult) : bool :=
  match r with Success _ => true | Failure _ => false end.

(** [NegotiationState.make_offer]. *)
Definition make_offer (now : Z) (discount_pct : Number) (self : NegotiationState)
  : NegotiationState * OfferResult :=
  if fltb (Fin (max_discount_pct (config self))) discount_pct then
    (self, Failure (ExceedsMaximum discount_pct (max_discount_pct (config self))))
  else if (max_counters self <=? counter self)%Z then
    (self, Failure (MaxCountersReached (max_counters self)))
  else
    let margin_pct := fsub (Fin 100) discount_pct in
    if fltb margin_pct (Fin (floor_margin_pct (config self))) then
      (self, Failure (BelowFloor discount_pct margin_pct
                        (floor_margin_pct (config self))))
    else
      let counter' := (counter self + 1)%Z in
      let offer := {| offer_counter := counter';
                      offer_discount_pct := discount_pct;
                      offer_margin_pct := margin_pct;
                      offer_timestamp := now |} in
      ({| config := config self;
          counter := counter';
          max_counters := max_counters self;
          current_discount_pct := discount_pct;
          offers := offers self ++ [offer];
          started_at := started_at self |},
       Success {| ok_discount_pct := discount_pct;
                  ok_margin_pct := margin_pct;
                  ok_counter := counter';
                  ok_remaining_counters := (max_counters self - counter')%Z;
                  ok_trait_bonus_applied := false;
                  ok_base_discount_pct := None;
                  ok_trait_bonus_pct := None |}).

(** [NegotiationState.get_next_offer]. *)
Definition get_next_offer (now : Z) (previous_discount : option Number)
    (self : NegotiationState) : NegotiationState * OfferResult :=
  let discount :=
    if (counter self =? 0)%Z then Fin (first_offer_pct (config self))
    else match previous_discount with
         | Some previous => fadd previous (Fin (counter_step_pct (config self)))
         | None => fadd (current_discount_pct self)
                        (Fin (counter_step_pct (config self)))
         end in
  let discount := fmin discount (Fin (max_discount_pct (config self))) in
  make_offer now discount self.

(** [NegotiationState.get_summary]. *)
Record Summary := {
  sum_counter : Z;
  sum_max_counters : Z;
  sum_current_discount_pct : Number;
  sum_remaining_counters : Z;
  sum_can_continue : bool;
  sum_offers : list Offer
}.

Definition get_summary (self : NegotiationState) : Summary :=
  {| sum_counter := counter self;
     sum_max_counters := max_counters self;
     sum_current_discount_pct := current_discount_pct self;
     sum_remaining_counters := (max_counters self - counter self)%Z;
     sum_can_continue := can_make_counter self;
     sum_offers := offers self |}.

Record PricingService := {
  ps_config : Config;
  negotiations : gmap string NegotiationState
}.

Definition new_pricing_service (cfg : Config) : PricingService :=
  {| ps_config := cfg; negotiations := ∅ |}.

(** [PricingService.get_negotiation]: the session's state, created on first
    use. *)
Definition get_negotiation (now : Z) (session_id : string) (self : PricingService)
  : PricingService * NegotiationState :=
  match negotiations self !! session_id with
  | Some negotiation => (self, negotiation)
  | None =>
      let negotiation := new_negotiation (ps_config self) now in
      ({| ps_config := ps_config self;
          negotiations := <[session_id := negotiation]> (negotiations self) |},
       negotiation)
  end.

(** [offers[-1]["discount_pct"] = d; offers[-1]["margin_pct"] = m], guarded
    by [if negotiation.offers]. *)
Definition amend_last_offer (d m : Number) (l : list Offer) : list Offer :=
  match l with
  | [] => []
  | _ => alter (fun o => {| offer_counter := offer_counter o;
                            offer_discount_pct := d;
                            offer_margin_pct := m;
                            offer_timestamp := offer_timestamp o |})
               (length l - 1)%nat l
  end.

(** [make_discount_offer], lines 142-148: the offer before any bonus. *)
Definition base_offer (now : Z) (discount_pct : option Number)
    (negotiation : NegotiationState) : NegotiationState * OfferResult :=
  match discount_pct with
  | None =>
      let previous_discount :=
        match offers negotiation with
        | [] => None
        | _ => Some (current_discount_pct negotiation)
        end in
      get_next_offer now previous_discount negotiation
  | Some d => make_offer now d negotiation
  end.

(** [make_discount_offer], lines 150-175: the trait bonus applied to the
    offer just made.  [cfg] is the service's [self.config]. *)
Definition apply_trait_bonus (cfg : Config) (trait_bonus_pct : Number)
    (st : NegotiationState * OfferResult) : NegotiationState * OfferResult :=
  let '(negotiation, result) := st in
  match result with
  | Failure _ => st
  | Success r =>
      if fltb (Fin 0) trait_bonus_pct then
        let base_discount := ok_discount_pct r in
        let bonus_discount := fadd base_discount trait_bonus_pct in
        let max_allowed := Fin (max_discount_pct cfg) in
        let final_discount := fmin bonus_discount max_allowed in
        if fltb base_discount final_discount then
          let final_margin := fsub (Fin 100) final_discount in
          if fleb (Fin (floor_margin_pct cfg)) final_margin then
            ({| config := config negotiation;
                counter := counter negotiation;
                max_counters := max_counters negotiation;
                current_discount_pct := final_discount;
                offers := amend_last_offer final_discount final_margin
                            (offers negotiation);
                started_at := started_at negotiation |},
             Success {| ok_discount_pct := final_discount;
                        ok_margin_pct := final_margin;
                        ok_counter := ok_counter r;
                        ok_remaining_counters := ok_remaining_counters r;
                        ok_trait_bonus_applied := true;
                        ok_base_discount_pct := Some base_discount;
                        ok_trait_bonus_pct := Some trait_bonus_pct |})
          else st
        else st
      else st
  end.

(** [PricingService.make_discount_offer]. *)
Definition make_discount_offer (now : Z) (session_id : string)
    (discount_pct : option Number) (trait_bonus_pct : Number)
    (self : PricingService) : PricingService * OfferResult :=
  let '(self, negotiation) := get_negotiation now session_id self in
  let '(negotiation, result) :=
    apply_trait_bonus (ps_config self) trait_bonus_pct
      (base_offer now discount_pct negotiation) in
  ({| ps_config := ps_config self;
      negotiations := <[session_id := negotiation]> (negotiations self) |},
   result).

Definition can_negotiate (now : Z) (session_id : string) (self : PricingService)
  : PricingService * bool :=
  let '(self, negotiation) := get_negotiation now session_id self in
  (self, can_make_counter negotiation).

Definition get_negotiation_summary (now : Z) (session_id : string)
    (self : PricingService) : PricingService * Summary :=
  let '(self, negotiation) := get_negotiation now session_id self in
  (self, get_summary negotiation).

(** *** Sessions driven by a sequence of calls *)

(** The calls that change a [NegotiationState]: its two offer methods, and
    the service's [make_discount_offer] (base offer, then trait bonus). *)
Inductive Call :=
| CallMakeOffer (now : Z) (discount_pct : Number)
| CallGetNextOffer (now : Z) (previous_discount : option Number)
| CallDiscountOffer (now : Z) (discount_pct : option Number)
    (trait_bonus_pct : Number).

Definition run_call (c : Call) (s : NegotiationState)
  : NegotiationState * OfferResult :=
  match c with
  | CallMakeOffer now d => make_offer now d s
  | CallGetNextOffer now previous => get_next_offer now previous s
  | CallDiscountOffer now d bonus =>
      apply_trait_bonus (config s) bonus (base_offer now d s)
  end.

Definition run_calls (cs : list Call) (s : NegotiationState) : NegotiationState :=
  fold_left (fun s c => fst (run_call c s)) cs s.

(** The limits of a stored offer: the discount is at most the ceiling, the
    margin is computed from the discount and is at least the floor. *)
Definition offer_within_limits (cfg : Config) (o : Offer) : Prop :=
  fle (offer_discount_pct o) (Fin (max_discount_pct cfg)) /\
  offer_margin_pct o = fsub (Fin 100) (offer_discount_pct o) /\
  fle (Fin (floor_margin_pct cfg)) (offer_margin_pct o).

(** What the checks of [make_offer] establish of a stored offer: the limits,
    unless the discount is NaN, which no comparison rejects. *)
Definition offer_checked (cfg : Config) (o : Offer) : Prop :=
  offer_margin_pct o = fsub (Fin 100) (offer_discount_pct o) /\
  (offer_discount_pct o <> NaN -> offer_within_limits cfg o).

Record session_invariant (cfg : Config) (s : NegotiationState) : Prop := {
  inv_config : config s = cfg;
  inv_max_counters : max_counters s = 3%Z;
  inv_counter_bounds : (0 <= counter s <= max_counters s)%Z;
  inv_length : Z.of_nat (length (offers s)) = counter s;
  inv_offers : Forall (offer_checked cfg) (offers s);
  inv_current : forall o, last (offers s) = Some o ->
                          current_discount_pct s = offer_discount_pct o
}.

(** The invariant as the specification words it, lower bound included. *)
Definition spec_invariant (cfg : Config) (s : NegotiationState) : Prop :=
  Forall (fun o => fle (Fin 0) (offer_discount_pct o) /\
                   fle (offer_discount_pct o) (Fin (max_discount_pct cfg)) /\
                   offer_margin_pct o = fsub (Fin 100) (offer_discount_pct o) /\
                   fle (Fin (floor_margin_pct cfg)) (offer_margin_pct o))
         (offers s) /\
  (counter s <= max_counters s)%Z /\
  Z.of_nat (length (offers s)) = counter s.

(** Calls that pass no NaN as a discount or as a previous discount (the
    bonus is free). *)
Definition call_not_nan (c : Call) : Prop :=
  match c with
  | CallMakeOffer _ d => d <> NaN
  | CallGetNextOffer _ previous => previous <> Some NaN
  | CallDiscountOffer _ d _ => d <> Some NaN
  end.

(** No NaN in the session. *)
Definition no_nan (s : NegotiationState) : Prop :=
  Forall (fun o => offer_discount_pct o <> NaN) (offers s) /\
  current_discount_pct s <> NaN.

(** A call of [PricingService.make_discount_offer] with its arguments, and
    a service driven by a sequence of them. *)
Record OfferRequest := {
  rq_now : Z;
  rq_session_id : string;
  rq_discount_pct : option Number;
  rq_trait_bonus_pct : Number
}.

Definition run_requests (requests : list OfferRequest) (ps : PricingService)
  : PricingService :=
  fold_left (fun ps q =>
               fst (make_discount_offer (rq_now q) (rq_session_id q)
                      (rq_discount_pct q) (rq_trait_bonus_pct q) ps))
            requests ps.

(** Inputs from which no negative discount can arise. *)
Definition call_nonneg (c : Call) : Prop :=
  match c with
  | CallMakeOffer _ d => fle (Fin 0) d
  | CallGetNextOffer _ previous => from_option (fle (Fin 0)) True previous
  | CallDiscountOffer _ d _ => from_option (fle (Fin 0)) True d
  end.

Definition config_nonneg (cfg : Config) : Prop :=
  0 <= first_offer_pct cfg /\ 0 <= counter_step_pct cfg /\ 0 <= max_discount_pct cfg.

Definition discounts_nonneg (s : NegotiationState) : Prop :=
  Forall (fun o => fle (Fin 0) (offer_discount_pct o)) (offers s) /\
  fle (Fin 0) (current_discount_pct s).

(** The merchant policy used in the examples: the defaults of
    config_loader.py. *)
Definition default_config : Config :=
  {| cfg_max_discount_pct := None; cfg_floor_margin_pct := None;
     cfg_first_offer_pct := None; cfg_counter_step_pct := None;
     cfg_max_trait_bonus_pct := None; cfg_valuable_traits := [];
     cfg_tool_calls := [] |}.

(** Example sessions under the default policy: three automatic offers (the
    counters are then used up), one manual offer of a negative discount,
    and one manual offer of [float('nan')]. *)
Definition three_automatic_offers : list Call :=
  [CallGetNextOffer 1 None; CallGetNextOffer 2 None; CallGetNextOffer 3 None].

Definition exhausted_session : NegotiationState :=
  run_calls three_automatic_offers (new_negotiation default_config 0).

Definition negative_offer_session : NegotiationState :=
  run_calls [CallMakeOffer 1 (Fin (-5))] (new_negotiation default_config 0).

Definition nan_offer_session : NegotiationState :=
  run_calls [CallMakeOffer 1 NaN] (new_negotiation default_config 0).

(** A fresh session, and its first automatic offer. *)
Definition fresh_session : NegotiationState := new_negotiation default_config 0.

Definition first_offer_state : NegotiationState :=
  fst (base_offer 1 None fresh_session).


(** ** Text: the [str] methods the program uses *)

(** [c.lower()] for one character of the ASCII range. *)
Definition lower_ascii (c : ascii) : ascii :=
  let n := nat_of_ascii c in
  if (65 <=? n)%nat && (n <=? 90)%nat then ascii_of_nat (n + 32) else c.

(** [s.lower()]. *)
Fixpoint lower (s : string) : string :=
  match s with
  | EmptyString => EmptyString
  | String c s' => String (lower_ascii c) (lower s')
  end.

(** [c.isspace()] on the ASCII range: tab, line feed, vertical tab, form
    feed, carriage return, the four separators 28-31, and space. *)
Definition is_space (c : ascii) : bool :=
  let n := nat_of_ascii c in
  ((9 <=? n)%nat && (n <=? 13)%nat) || ((28 <=? n)%nat && (n <=? 32)%nat).

Fixpoint lstrip (s : string) : string :=
  match s with
  | EmptyString => EmptyString
  | String c s' => if is_space c then lstrip s' else s
  end.

Fixpoint rstrip (s : string) : string :=
  match s with
  | EmptyString => EmptyString
  | String c s' =>
      match rstrip s' with
      | EmptyString => if is_space c then EmptyString else String c EmptyString
      | r => String c r
      end
  end.

(** [s.strip()]. *)
Definition strip (s : string) : string := rstrip (lstrip s).

(** [s.startswith(p)], returning what follows the prefix. *)
Fixpoint strip_prefix (p s : string) : option string :=
  match p, s with
  | EmptyString, _ => Some s
  | String a p', String b s' =>
      if Ascii.eqb a b then strip_prefix p' s' else None
  | String _ _, EmptyString => None
  end.

(** [needle in hay]. *)
Fixpoint contains (needle hay : string) : bool :=
  match strip_prefix needle hay with
  | Some _ => true
  | None =>
      match hay with
      | EmptyString => false
      | String _ hay' => contains needle hay'
      end
  end.

(** [sep.join(parts)]. *)
Fixpoint join (sep : string) (parts : list string) : string :=
  match parts with
  | [] => EmptyString
  | [p] => p
  | p :: rest => p +:+ sep +:+ join sep rest
  end.

(** Python truthiness of an optional string: neither [None] nor empty. *)
Definition truthy (s : option string) : bool :=
  match s with
  | Some (String _ _) => true
  | _ => false
  end.

(** ** The fragment of Python's [re] used by agent_router.py

    The patterns of the router are built from literal characters and from
    parenthesised groups that are either [.+], [.+?] or an alternation of
    literal words.  [re_compile] reads exactly this fragment; [re_search]
    follows the backtracking order of [re.search]: leftmost start, then for
    each group its alternatives in order, the longest ([.+]) or shortest
    ([.+?]) run first.  [.] matches any character but a line feed. *)

Inductive Token :=
| Lit (c : ascii)
| GroupAlt (alts : list string)
| GroupSome (lazy : bool).

(** One pass over the pattern text.  [group] is [None] outside parentheses,
    and inside them holds the finished alternatives and the current one,
    both reversed. *)
Fixpoint re_parse (group : option (list string * string)) (s : string)
  : list Token :=
  match s with
  | EmptyString => []
  | String c s' =>
      match group with
      | None =>
          if Ascii.eqb c "(" then re_parse (Some ([], EmptyString)) s'
          else Lit c :: re_parse None s'
      | Some (alts, cur) =>
          if Ascii.eqb c "|" then
            re_parse (Some (String.rev cur :: alts, EmptyString)) s'
          else if Ascii.eqb c ")" then
            let alts := rev (String.rev cur :: alts) in
            let token :=
              if decide (alts = [".+"%string]) then GroupSome false
              else if decide (alts = [".+?"%string]) then GroupSome true
              else GroupAlt alts in
            token :: re_parse None s'
          else re_parse (Some (alts, String c cur)) s'
      end
  end.

Definition re_compile (pattern : string) : list Token := re_parse None pattern.

(** Equality of two characters, under [re.IGNORECASE] when [ic] is set. *)
Definition char_eqb (ic : bool) (a b : ascii) : bool :=
  if ic then Ascii.eqb (lower_ascii a) (lower_ascii b) else Ascii.eqb a b.

(** Match the literal word [w] at the start of [s]: the text matched and the
    rest. *)
Fixpoint match_word (ic : bool) (w s : string) : option (string * string) :=
  match w, s with
  | EmptyString, _ => Some (EmptyString, s)
  | String a w', String b s' =>
      if char_eqb ic a b then
        match match_word ic w' s' with
        | Some (m, rest) => Some (String b m, rest)
        | None => None
        end
      else None
  | String _ _, EmptyString => None
  end.

(** All ways to split off a non-empty run of characters other than line
    feed from the start of [s], shortest run first. *)
Fixpoint dot_runs (s : string) : list (string * string) :=
  match s with
  | EmptyString => []
  | String c s' =>
      if Ascii.eqb c "010" then []
      else (String c EmptyString, s')
           :: map (fun pr => (String c (fst pr), snd pr)) (dot_runs s')
  end.

(** The first candidate, in order, for which the continuation succeeds. *)
Fixpoint first_success {A B} (k : A -> option B) (l : list A) : option B :=
  match l with
  | [] => None
  | x :: l' =>
      match k x with
      | Some y => Some y
      | None => first_success k l'
      end
  end.

(** Match the tokens at the start of [s]; the result lists the text of the
    groups, in order. *)
Fixpoint match_here (ic : bool) (p : list Token) (s : string)
  : option (list string) :=
  match p with
  | [] => Some []
  | Lit c :: p' =>
      match s with
      | String b s' => if char_eqb ic c b then match_here ic p' s' else None
      | EmptyString => None
      end
  | GroupAlt alts :: p' =>
      first_success
        (fun w => match match_word ic w s with
                  | Some (m, rest) => cons m <$> match_here ic p' rest
                  | None => None
                  end)
        alts
  | GroupSome lazy :: p' =>
      first_success
        (fun pr => cons (fst pr) <$> match_here ic p' (snd pr))
        (if lazy then dot_runs s else rev (dot_runs s))
  end.

(** [re.search]: the groups of the leftmost match, if any. *)
Fixpoint search (ic : bool) (p : list Token) (s : string)
  : option (list string) :=
  match match_here ic p s with
  | Some groups => Some groups
  | None =>
      match s with
      | EmptyString => None
      | String _ s' => search ic p s'
      end
  end.

Definition re_search (pattern : string) (text : string) (ignorecase : bool)
  : option (list string) :=
  search ignorecase (re_compile pattern) text.

(** [match.group(i)], for [i >= 1]. *)
Definition group (i : nat) (groups : list string) : string :=
  default EmptyString (groups !! (i - 1)%nat).

(** ** fact_checkers/brave_agent.py, fact_checkers/linkedin_agent.py *)

(** What [bouncer.py] reads of a fact-check result.  Every method of the
    two agents catches all exceptions and returns such a dictionary. *)
Record FactCheckResult := {
  fc_success : bool;
  fc_summary : option string;
  fc_error : option string
}.

(** The Composio toolset behind [BraveAgent.search], already wrapped in its
    [try]/[except]. *)
Record BraveAgent := {
  brave_search : string -> FactCheckResult
}.

(** [BraveAgent.fact_check]. *)
Definition fact_check (self : BraveAgent) (claim : string) : FactCheckResult :=
  brave_search self (claim +:+ " verification facts").

Record LinkedInAgent := {
  lookup_person : string -> option string -> FactCheckResult;
  lookup_company : string -> FactCheckResult
}.

(** ** agent_router.py *)

Record LinkedInInfo := {
  info_name : option string;
  info_company : option string;
  info_title : option string
}.

(** The dictionary returned by [detect_fact_check_needed]. *)
Record Detection := {
  needed : bool;
  agent_type : option string;
  query : option string;
  confidence : Q;
  extracted_info : option LinkedInInfo;
  claim : option string
}.

Record AgentRouter := {
  router_config : Config;
  brave_agent : option BraveAgent;
  linkedin_agent : option LinkedInAgent
}.

(** [AgentRouter.__init__]: an agent is bound when its tool is enabled in
    the configuration and its constructor does not raise; [make_brave] and
    [make_linkedin] are the outcomes of the two constructors. *)
Definition new_agent_router (cfg : Config)
    (make_brave : option BraveAgent) (make_linkedin : option LinkedInAgent)
  : AgentRouter :=
  {| router_config := cfg;
     brave_agent :=
       if decide ("brave"%string ∈ tool_calls cfg) then make_brave else None;
     linkedin_agent :=
       if decide ("linkedin"%string ∈ tool_calls cfg) then make_linkedin
       else None |}.

Definition fact_check_patterns : list string :=
  ["i (work|am) at (.+)";
   "i'm (a|an) (.+)";
   "my company is (.+)";
   "(.+) (is|are) (a|an) (.+)";
   "according to (.+)";
   "i (read|heard|saw) (.+)";
   "(.+) (said|claims|stated) (.+)";
   "(.+) (has|have) (.+)"]%string.

Definition linkedin_patterns : list string :=
  ["i work at (.+)";
   "my company is (.+)";
   "i'm (a|an) (.+) at (.+)";
   "look up (.+) on linkedin";
   "find (.+) on linkedin"]%string.

Definition brave_patterns : list string :=
  ["(.+) (is|are) (.+)";
   "according to (.+)";
   "i (read|heard|saw) (.+)";
   "(.+) (said|claims|stated) (.+)"]%string.

(** [for pattern in patterns: match = re.search(pattern, text,
    re.IGNORECASE); if match: ...]: the match of the first pattern that
    has one. *)
Definition first_match (patterns : list string) (text : string)
  : option (list string) :=
  first_success (fun pattern => re_search pattern text true) patterns.

(** [AgentRouter._extract_linkedin_info]. *)
Definition _extract_linkedin_info (message : string) : LinkedInInfo :=
  let info := {| info_name := None; info_company := None; info_title := None |} in
  let info :=
    match re_search "i work at (.+)" (lower message) false with
    | Some work_at_match =>
        {| info_name := info_name info;
           info_company := Some (strip (group 1 work_at_match));
           info_title := info_title info |}
    | None => info
    end in
  match re_search "i'm (a|an) (.+?) at (.+)" (lower message) false with
  | Some title_match =>
      {| info_name := info_name info;
         info_company := Some (strip (group 3 title_match));
         info_title := Some (strip (group 2 title_match)) |}
  | None => info
  end.

(** [AgentRouter.detect_fact_check_needed]. *)
Definition detect_fact_check_needed (user_message conversation_context : string)
  : Detection :=
  let message_lower := lower user_message in
  match first_match linkedin_patterns message_lower with
  | Some groups =>
      {| needed := true;
         agent_type := Some "linkedin"%string;
         query := Some (match groups with
                        | [] => user_message
                        | _ => group 1 groups
                        end);
         confidence := 0.7;
         extracted_info := Some (_extract_linkedin_info user_message);
         claim := None |}
  | None =>
      match first_match brave_patterns message_lower with
      | Some _ =>
          {| needed := true;
             agent_type := Some "brave"%string;
             query := Some user_message;
             confidence := 0.6;
             extracted_info := None;
             claim := Some user_message |}
      | None =>
          match first_match fact_check_patterns message_lower with
          | Some _ =>
              {| needed := true;
                 agent_type := Some "brave"%string;
                 query := Some user_message;
                 confidence := 0.5;
                 extracted_info := None;
                 claim := Some user_message |}
          | None =>
              {| needed := false;
                 agent_type := None;
                 query := None;
                 confidence := 0.0;
                 extracted_info := None;
                 claim := None |}
          end
      end
  end.

(** The [str(...)] of an optional string, as an f-string prints it. *)
Definition str_of_option (s : option string) : string :=
  default "None"%string s.

(** [AgentRouter.execute_fact_check].  [context] is the optional
    [{"extracted_info": ...}] dictionary. *)
Definition execute_fact_check (self : AgentRouter) (agent_type : option string)
    (query : option string) (context : option LinkedInInfo) : FactCheckResult :=
  match (if bool_decide (agent_type = Some "brave"%string)
         then brave_agent self else None) with
  | Some brave => fact_check brave (str_of_option query)
  | None =>
      match (if bool_decide (agent_type = Some "linkedin"%string)
             then linkedin_agent self else None) with
      | Some linkedin =>
          match context with
          | Some info =>
              if truthy (info_company info) then
                if truthy (info_name info) then
                  lookup_person linkedin (str_of_option (info_name info))
                    (info_company info)
                else lookup_company linkedin (str_of_option (info_company info))
              else if truthy (info_name info) then
                lookup_person linkedin (str_of_option (info_name info)) None
              else lookup_person linkedin (str_of_option query) None
          | None => lookup_person linkedin (str_of_option query) None
          end
      | None =>
          {| fc_success := false;
             fc_summary := None;
             fc_error := Some ("Agent type '" +:+ str_of_option agent_type
                               +:+ "' not available or not configured") |}
      end
  end.

(** [AgentRouter.should_ask_consent]. *)
Definition should_ask_consent (self : AgentRouter) (detection_result : Detection)
  : bool :=
  if negb (needed detection_result) then false
  else
    let agent_type := agent_type detection_result in
    if bool_decide (agent_type = Some "brave"%string)
       && negb (bool_decide (is_Some (brave_agent self))) then false
    else if bool_decide (agent_type = Some "linkedin"%string)
            && negb (bool_decide (is_Some (linkedin_agent self))) then false
    else Qle_bool 0.5 (confidence detection_result).

(** The capability that [execute_fact_check] dispatches an agent type to is
    bound: for any other agent type, and for an unbound agent, it answers
    "not available or not configured". *)
Definition capability_available (self : AgentRouter) (agent_type : option string)
  : bool :=
  bool_decide (agent_type = Some "brave"%string
               /\ is_Some (brave_agent self))
  || bool_decide (agent_type = Some "linkedin"%string
                  /\ is_Some (linkedin_agent self)).

(** ** trait_detector.py *)

(** One detection: the dictionary [{'trait', 'confidence', 'matches'}]. *)
Record TraitDetection := {
  trait : string;
  trait_confidence : Q;
  matches : nat
}.

Record TraitDetector := {
  td_config : Config;
  detected_traits : list string;
  trait_keywords : list (string * list string)
}.

(** [TraitDetector._load_trait_keywords]: the traits of the merchant
    configuration that carry keywords, in declaration order. *)
Definition _load_trait_keywords (cfg : Config) : list (string * list string) :=
  omap (fun entry =>
          match snd entry with
          | TraitDict (Some keywords) _ => Some (fst entry, keywords)
          | TraitLegacy keywords => Some (fst entry, keywords)
          | _ => None
          end)
       (cfg_valuable_traits cfg).

Definition new_trait_detector (cfg : Config) : TraitDetector :=
  {| td_config := cfg; detected_traits := [];
     trait_keywords := _load_trait_keywords cfg |}.

(** [sum(1 for keyword in keywords if keyword.lower() in text_lower)]. *)
Definition count_matches (keywords : list string) (text_lower : string) : nat :=
  length (List.filter (fun keyword => contains (lower keyword) text_lower)
            keywords).

(** [min(matches / len(keywords) * 2, 1.0)]. *)
Definition keyword_confidence (matches total : nat) : Q :=
  pymin (inject_Z (Z.of_nat matches) / inject_Z (Z.of_nat total) * 2) 1.

(** The body of the loop of [detect_traits] for one catalog entry. *)
Definition detect_trait (text_lower : string) (entry : string * list string)
  : option TraitDetection :=
  let matches := count_matches (snd entry) text_lower in
  if (0 <? matches)%nat then
    Some {| trait := fst entry;
            trait_confidence := keyword_confidence matches (length (snd entry));
            matches := matches |}
  else None.

(** [list.sort(key=confidence, reverse=True)].  Python's sort is stable,
    also under [reverse=True]: it is modelled by the insertion sort that
    puts an element in front of the first one whose confidence is not
    strictly greater. *)
Fixpoint insert_by_confidence (x : TraitDetection) (l : list TraitDetection)
  : list TraitDetection :=
  match l with
  | [] => [x]
  | y :: l' =>
      if Qltb (trait_confidence x) (trait_confidence y)
      then y :: insert_by_confidence x l'
      else x :: l
  end.

Definition sort_by_confidence (l : list TraitDetection) : list TraitDetection :=
  foldr insert_by_confidence [] l.

(** [TraitDetector.detect_traits]. *)
Definition detect_traits (conversation_text : string) (self : TraitDetector)
  : TraitDetector * list TraitDetection :=
  let text_lower := lower conversation_text in
  let detected := omap (detect_trait text_lower) (trait_keywords self) in
  let detected := sort_by_confidence detected in
  ({| td_config := td_config self;
      detected_traits := map trait detected;
      trait_keywords := trait_keywords self |},
   detected).

(** [dict.get(key)] on a JSON object kept as a list of entries. *)
Fixpoint dict_get {A} (key : string) (entries : list (string * A)) : option A :=
  match entries with
  | [] => None
  | (k, v) :: rest => if String.eqb k key then Some v else dict_get key rest
  end.

(** [traits_config.get(trait_name, {})] followed by the lookup of
    [discount_bonus_pct]. *)
Definition trait_bonus_pct (cfg : Config) (trait_name : string) : Q :=
  match dict_get trait_name (cfg_valuable_traits cfg) with
  | Some (TraitDict _ (Some bonus_pct)) => bonus_pct
  | _ => 0
  end.

(** [TraitDetector.get_discount_bonus]. *)
Definition get_discount_bonus (traits : list TraitDetection) (self : TraitDetector)
  : Q :=
  match traits with
  | [] => 0
  | _ =>
      let total_bonus :=
        fold_left (fun total trait_info =>
                     total + trait_bonus_pct (td_config self) (trait trait_info)
                             * trait_confidence trait_info)
                  traits 0 in
      let max_bonus := default 10 (cfg_max_trait_bonus_pct (td_config self)) in
      pymin total_bonus max_bonus
  end.

Definition has_valuable_trait (self : TraitDetector) : bool :=
  match detected_traits self with [] => false | _ => true end.



(** The specification's words for a keyword match, stated without the
    program's helpers.  Two characters are the same letter up to case when
    they are equal, or are the upper-case and the lower-case form of one
    letter of the ASCII range (codes 65-90 and 97-122, 32 apart). *)
Definition same_letter (a b : ascii) : Prop :=
  a = b \/
  ((65 <= nat_of_ascii a <= 90)%nat /\
   nat_of_ascii b = (nat_of_ascii a + 32)%nat) \/
  ((65 <= nat_of_ascii b <= 90)%nat /\
   nat_of_ascii a = (nat_of_ascii b + 32)%nat).

Definition same_ignoring_case (a b : string) : Prop :=
  Forall2 same_letter (list_ascii_of_string a) (list_ascii_of_string b).

(** [keyword] is a substring of [text], ignoring case. *)
Definition occurs_ignoring_case (keyword text : string) : Prop :=
  exists pre word post,
    text = pre +:+ (word +:+ post) /\ same_ignoring_case keyword word.

(** [m] is the number of keywords of the list (with repetitions) that occur
    in [text], ignoring case. *)
Inductive match_count (text : string) : list string -> nat -> Prop :=
| match_count_nil : match_count text [] 0
| match_count_hit keyword keywords m :
    occurs_ignoring_case keyword text ->
    match_count text keywords m ->
    match_count text (keyword :: keywords) (S m)
| match_count_miss keyword keywords m :
    ~ occurs_ignoring_case keyword text ->
    match_count text keywords m ->
    match_count text (keyword :: keywords) m.

(** The detection of a trait with [m] matching keywords out of [total]:
    confidence [min(m / total * 2, 1.0)]. *)
Definition detection_of (name : string) (m total : nat) : TraitDetection :=
  {| trait := name;
     trait_confidence :=
       pymin (inject_Z (Z.of_nat m) / inject_Z (Z.of_nat total) * 2) 1;
     matches := m |}.

(** The detections of a catalog in declaration order: one for each trait
    with at least one matching keyword, none for a trait without. *)
Inductive catalog_detections (text : string)
  : list (string * list string) -> list TraitDetection -> Prop :=
| catalog_detections_nil : catalog_detections text [] []
| catalog_detections_hit name keywords m catalog detections :
    match_count text keywords m -> (0 < m)%nat ->
    catalog_detections text catalog detections ->
    catalog_detections text ((name, keywords) :: catalog)
      (detection_of name m (length keywords) :: detections)
| catalog_detections_skip name keywords catalog detections :
    match_count text keywords 0 ->
    catalog_detections text catalog detections ->
    catalog_detections text ((name, keywords) :: catalog) detections.

(** ** shopify_client.py, seen from discount_service.py *)

(** The keyword arguments of [ShopifyClient.create_discount_code]; times are
    counted in minutes. *)
Record ShopifyRequest := {
  req_percentage : Number;
  req_code : option string;
  req_starts_at : Z;
  req_ends_at : Z;
  req_usage_limit : Z
}.

(** The dictionary it returns. *)
Record ShopifyResult := {
  shopify_success : bool;
  shopify_code : string;
  shopify_expires_at : Z;
  shopify_discount_id : option string;
  shopify_error : option string
}.

(** A call either returns a dictionary or raises (a failed request raises
    [RuntimeError]). *)
Inductive ShopifyOutcome :=
| ShopifyReturns (result : ShopifyResult)
| ShopifyRaises.

Record ShopifyClient := {
  create_discount_code : ShopifyRequest -> ShopifyOutcome
}.

(** ** discount_service.py *)

Record DiscountService := {
  ds_config : Config;
  shopify_client : option ShopifyClient;
  pricing_service : PricingService;
  ds_trait_detector : TraitDetector
}.

(** [DiscountService.__init__]; [make_shopify] is the outcome of the
    [ShopifyClient()] constructor, [None] when it raises. *)
Definition new_discount_service (cfg : Config) (make_shopify : option ShopifyClient)
  : DiscountService :=
  {| ds_config := cfg; shopify_client := make_shopify;
     pricing_service := new_pricing_service cfg;
     ds_trait_detector := new_trait_detector cfg |}.

(** The clock and the random generator as one call sees them:
    [datetime.now()] in minutes, and the successive draws of the generator,
    each reduced to an index into the population by [random.choices]. *)
Record Env := {
  env_now : Z;
  env_random : nat -> nat
}.

(** [string.ascii_uppercase + string.digits]. *)
Definition code_alphabet : string := "ABCDEFGHIJKLMNOPQRSTUVWXYZ0123456789".

(** [''.join(random.choices(population, k=k))]. *)
Definition random_choices (population : string) (k : nat) (random : nat -> nat)
  : string :=
  string_of_list_ascii
    (omap (fun i => String.get (random i mod String.length population) population)
          (seq 0 k)).

(** The success dictionary of [create_negotiation_discount]; [simulated] and
    [note] are present only for simulated codes, [shopify_id] only for real
    ones. *)
Record DiscountInfo := {
  discount_code : string;
  di_discount_pct : Number;
  expires_at : Z;
  di_counter : Z;
  di_remaining_counters : Z;
  shopify_id : option string;
  simulated : bool;
  note : option string;
  di_detected_traits : list string;
  trait_bonus_applied : bool;
  base_discount_pct : Number
}.

Inductive DiscountResult :=
| DiscountCreated (info : DiscountInfo)
| OfferRejected (e : OfferError)
| ShopifyFailed (error : string) (discount_pct : Number).

Definition discount_success (r : DiscountResult) : bool :=
  match r with DiscountCreated _ => true | _ => false end.

(** [DiscountService._create_simulated_discount]. *)
Definition _create_simulated_discount (env : Env) (session_id : string)
    (discount_pct : Number) (code : option string) (expires_minutes : Z)
    (offer_result : OfferOk) (detected_traits : list string) : DiscountResult :=
  let code :=
    match code with
    | None => random_choices code_alphabet 8 (env_random env)
    | Some code => code
    end in
  let expires_at := (env_now env + expires_minutes)%Z in
  DiscountCreated
    {| discount_code := code;
       di_discount_pct := discount_pct;
       expires_at := expires_at;
       di_counter := ok_counter offer_result;
       di_remaining_counters := ok_remaining_counters offer_result;
       shopify_id := None;
       simulated := true;
       note := Some "Shopify not configured - this is a simulated discount code"%string;
       di_detected_traits := detected_traits;
       trait_bonus_applied := ok_trait_bonus_applied offer_result;
       base_discount_pct :=
         default discount_pct (ok_base_discount_pct offer_result) |}.

(** [create_negotiation_discount], lines 51-59: the traits in the
    conversation text, their bonus and their names. *)
Definition detect_bonus (conversation_text : option string) (self : TraitDetector)
  : TraitDetector * Q * list string :=
  if truthy conversation_text then
    let '(detector, traits) :=
      detect_traits (default EmptyString conversation_text) self in
    match traits with
    | [] => (detector, 0, [])
    | _ => (detector, get_discount_bonus traits detector, map trait traits)
    end
  else (self, 0, []).

(** [DiscountService.create_negotiation_discount]. *)
Definition create_negotiation_discount (env : Env) (session_id : string)
    (discount_pct : option Number) (code : option string) (expires_minutes : Z)
    (usage_limit : Z) (conversation_text : option string)
    (self : DiscountService) : DiscountService * DiscountResult :=
  let '(detector, trait_bonus_pct, detected_traits) :=
    detect_bonus conversation_text (ds_trait_detector self) in
  let '(pricing, offer_result) :=
    make_discount_offer (env_now env) session_id discount_pct
      (Fin trait_bonus_pct) (pricing_service self) in
  let self := {| ds_config := ds_config self;
                 shopify_client := shopify_client self;
                 pricing_service := pricing;
                 ds_trait_detector := detector |} in
  match offer_result with
  | Failure e => (self, OfferRejected e)
  | Success offer =>
      let discount_pct := ok_discount_pct offer in
      match shopify_client self with
      | Some client =>
          let starts_at := env_now env in
          let ends_at := (starts_at + expires_minutes)%Z in
          match create_discount_code client
                  {| req_percentage := discount_pct; req_code := code;
                     req_starts_at := starts_at; req_ends_at := ends_at;
                     req_usage_limit := usage_limit |} with
          | ShopifyReturns result =>
              if shopify_success result then
                (self,
                 DiscountCreated
                   {| discount_code := shopify_code result;
                      di_discount_pct := discount_pct;
                      expires_at := shopify_expires_at result;
                      di_counter := ok_counter offer;
                      di_remaining_counters := ok_remaining_counters offer;
                      shopify_id := shopify_discount_id result;
                      simulated := false;
                      note := None;
                      di_detected_traits := detected_traits;
                      trait_bonus_applied := ok_trait_bonus_applied offer;
                      base_discount_pct :=
                        default discount_pct (ok_base_discount_pct offer) |})
              else
                (self,
                 ShopifyFailed
                   (default "Failed to create discount code"%string
                            (shopify_error result))
                   discount_pct)
          | ShopifyRaises =>
              (self, _create_simulated_discount env session_id discount_pct code
                       expires_minutes offer detected_traits)
          end
      | None =>
          (self, _create_simulated_discount env session_id discount_pct code
                   expires_minutes offer detected_traits)
      end
  end.




(** ** bouncer.py *)

Inductive Role := System | User | Assistant.

Record Message := {
  role : Role;
  content : string
}.

(** The two client shapes that [_initialize_llm_client] can build.  A
    completion call either returns the reply text or raises. *)
Inductive LLMClient :=
| OpenAI (create : list Message -> option string)
| Anthropic (create : string -> list Message -> option string).

Record BouncerAgent := {
  agent_config : Config;
  session_id : string;
  conversation_history : list Message;
  system_prompt : string;
  llm_client : LLMClient;
  agent_router : AgentRouter;
  discount_service : DiscountService;
  trait_detector : TraitDetector;
  pending_fact_check : option Detection;
  last_discount_code : option string
}.

(** [BouncerAgent.__init__], given the persona prompt and the collaborators
    that the constructors managed to build. *)
Definition new_bouncer_agent (cfg : Config) (session_id prompt : string)
    (client : LLMClient) (router : AgentRouter) (make_shopify : option ShopifyClient)
  : BouncerAgent :=
  {| agent_config := cfg;
     session_id := session_id;
     conversation_history := [{| role := System; content := prompt |}];
     system_prompt := prompt;
     llm_client := client;
     agent_router := router;
     discount_service := new_discount_service cfg make_shopify;
     trait_detector := new_trait_detector cfg;
     pending_fact_check := None;
     last_discount_code := None |}.

(** Field updates of the agent. *)
Definition set_history (h : list Message) (a : BouncerAgent) : BouncerAgent :=
  {| agent_config := agent_config a; session_id := session_id a;
     conversation_history := h; system_prompt := system_prompt a;
     llm_client := llm_client a; agent_router := agent_router a;
     discount_service := discount_service a;
     trait_detector := trait_detector a;
     pending_fact_check := pending_fact_check a;
     last_discount_code := last_discount_code a |}.

Definition append_message (r : Role) (text : string) (a : BouncerAgent)
  : BouncerAgent :=
  set_history (conversation_history a ++ [{| role := r; content := text |}]) a.

Definition set_pending (p : option Detection) (a : BouncerAgent) : BouncerAgent :=
  {| agent_config := agent_config a; session_id := session_id a;
     conversation_history := conversation_history a;
     system_prompt := system_prompt a;
     llm_client := llm_client a; agent_router := agent_router a;
     discount_service := discount_service a;
     trait_detector := trait_detector a;
     pending_fact_check := p;
     last_discount_code := last_discount_code a |}.

Definition set_trait_detector (d : TraitDetector) (a : BouncerAgent)
  : BouncerAgent :=
  {| agent_config := agent_config a; session_id := session_id a;
     conversation_history := conversation_history a;
     system_prompt := system_prompt a;
     llm_client := llm_client a; agent_router := agent_router a;
     discount_service := discount_service a;
     trait_detector := d;
     pending_fact_check := pending_fact_check a;
     last_discount_code := last_discount_code a |}.

Definition set_discount_service (d : DiscountService) (a : BouncerAgent)
  : BouncerAgent :=
  {| agent_config := agent_config a; session_id := session_id a;
     conversation_history := conversation_history a;
     system_prompt := system_prompt a;
     llm_client := llm_client a; agent_router := agent_router a;
     discount_service := d;
     trait_detector := trait_detector a;
     pending_fact_check := pending_fact_check a;
     last_discount_code := last_discount_code a |}.

Definition set_last_discount_code (c : option string) (a : BouncerAgent)
  : BouncerAgent :=
  {| agent_config := agent_config a; session_id := session_id a;
     conversation_history := conversation_history a;
     system_prompt := system_prompt a;
     llm_client := llm_client a; agent_router := agent_router a;
     discount_service := discount_service a;
     trait_detector := trait_detector a;
     pending_fact_check := pending_fact_check a;
     last_discount_code := c |}.

(** One call of [AgentRouter.execute_fact_check], as the turn records it. *)
Record Dispatch := {
  dispatch_agent_type : option string;
  dispatch_query : option string;
  dispatch_context : option LinkedInInfo
}.

(** How [chat] ends: with its pair [(response, consent_request)], or with an
    exception that reaches the caller. *)
Inductive ChatOutcome :=
| Replied (response : string) (consent_request : option string)
| Raised.

(** One turn: the agent after the call, the dispatches made during it, and
    how the call ended. *)
Record Turn := {
  turn_agent : BouncerAgent;
  turn_dispatches : list Dispatch;
  turn_outcome : ChatOutcome
}.

(** The two states of the orchestrator. *)
Inductive SessionState := IDLE | AWAITING_CONSENT.

Definition session_state (a : BouncerAgent) : SessionState :=
  match pending_fact_check a with
  | Some _ => AWAITING_CONSENT
  | None => IDLE
  end.

Definition negotiation_keywords : list string :=
  ["discount"; "deal"; "cheaper"; "lower price"; "reduce"; "haggle";
   "negotiate"; "offer"; "promo"; "coupon"; "code"; "save money";
   "too expensive"; "price"; "cost"; "afford"]%string.

(** [BouncerAgent._detect_negotiation_intent]: its [should_offer_discount]. *)
Definition _detect_negotiation_intent (user_message : string) : bool :=
  let message_lower := lower user_message in
  existsb (fun keyword => contains keyword message_lower) negotiation_keywords.

(** [BouncerAgent._get_conversation_context]. *)
Definition _get_conversation_context (self : BouncerAgent) : string :=
  let history := conversation_history self in
  let recent := drop (length history - 6)%nat history in
  join " " (map content
              (List.filter (fun msg => match role msg with
                                       | System => false
                                       | _ => true
                                       end) recent)).

(** [BouncerAgent._get_llm_response]; [None] when the call raises. *)
Definition _get_llm_response (self : BouncerAgent) : option string :=
  match llm_client self with
  | OpenAI create => strip <$> create (conversation_history self)
  | Anthropic create =>
      strip <$> create (system_prompt self)
                  (List.filter (fun msg => match role msg with
                                           | System => false
                                           | _ => true
                                           end) (conversation_history self))
  end.

Definition consent_words : list string :=
  ["yes"; "y"; "yeah"; "sure"; "ok"; "okay"; "go ahead"]%string.

(** [user_message.lower().strip() in [...]]. *)
Definition consent_given (user_message : string) : bool :=
  bool_decide (strip (lower user_message) ∈ consent_words).

Definition declined_reply : string :=
  "No problem, I won't look that up. How else can I help you?".

(** [BouncerAgent._handle_consent_response]. *)
Definition _handle_consent_response (self : BouncerAgent) (user_message : string)
  : Turn :=
  match pending_fact_check self with
  | None =>
      {| turn_agent := self; turn_dispatches := [];
         turn_outcome :=
           Replied "I don't have a pending fact-check request." None |}
  | Some detection =>
      if consent_given user_message then
        let agent_type := agent_type detection in
        let query := query detection in
        let context := extracted_info detection in
        let fact_check_result :=
          execute_fact_check (agent_router self) agent_type query context in
        let dispatched :=
          [{| dispatch_agent_type := agent_type; dispatch_query := query;
              dispatch_context := context |}] in
        let fact_check_summary :=
          "[Fact-check result via " +:+ str_of_option agent_type +:+ "]: "
          +:+ default "No results found"%string (fc_summary fact_check_result) in
        let self := append_message System fact_check_summary self in
        match _get_llm_response self with
        | None =>
            {| turn_agent := self; turn_dispatches := dispatched;
               turn_outcome := Raised |}
        | Some response =>
            let self := append_message Assistant response self in
            let self := set_pending None self in
            {| turn_agent := self; turn_dispatches := dispatched;
               turn_outcome := Replied response None |}
        end
      else
        let self := append_message Assistant declined_reply self in
        let self := set_pending None self in
        {| turn_agent := self; turn_dispatches := [];
           turn_outcome := Replied declined_reply None |}
  end.

(** [BouncerAgent._is_consent_response]. *)
Definition _is_consent_response (self : BouncerAgent) (user_message : string)
  : bool :=
  bool_decide (is_Some (pending_fact_check self)).

Definition probe_context : string :=
  "[No Discount Yet]: Customer asked for discount but hasn't provided valuable traits. "
  +:+ "Probe them: 'What makes you special? Are you a beauty influencer? Salon owner? Distributor? "
  +:+ "Otherwise, prices are what they are.'".

Section Chat.
(** [str(x)] of a number, as an f-string prints it. *)
Variable str_of_number : Number -> string.

(** [BouncerAgent._create_discount_offer]. *)
Definition _create_discount_offer (env : Env) (conversation_text : option string)
    (self : BouncerAgent) : BouncerAgent * DiscountResult :=
  let '(service, result) :=
    create_negotiation_discount env (session_id self) None None 10 1
      conversation_text (discount_service self) in
  (set_discount_service service self, result).

(** The system note of a successful discount, lines 96-109; [None] when
    [trait_names[0]] raises [IndexError] on an empty string. *)
Definition discount_context (info : DiscountInfo) : option string :=
  let trait_note :=
    match di_detected_traits info with
    | [] => Some EmptyString
    | detected_traits_list =>
        match join ", " detected_traits_list with
        | EmptyString => None
        | String first _ =>
            if trait_bonus_applied info then
              Some (" They claim to be " +:+ String first EmptyString
                    +:+ ". Fine, I'll give them "
                    +:+ str_of_number (di_discount_pct info)
                    +:+ "% instead of "
                    +:+ str_of_number (base_discount_pct info) +:+ "%.")
            else
              Some (" They claim to be " +:+ String first EmptyString
                    +:+ ". I'm skeptical.")
        end
    end in
  (fun trait_note =>
     "[Discount Available]: Code '" +:+ discount_code info +:+ "' - "
     +:+ str_of_number (di_discount_pct info) +:+ "% off. "
     +:+ "Expires in 10 min. Counter: "
     +:+ str_of_number (Fin (inject_Z (di_counter info))) +:+ "/3." +:+ trait_note)
  <$> trait_note.

(** [BouncerAgent.chat]. *)
Definition chat (env : Env) (self : BouncerAgent) (user_message : string)
  : Turn :=
  if bool_decide (is_Some (pending_fact_check self))
     && _is_consent_response self user_message
  then _handle_consent_response self user_message
  else
    let should_offer_discount := _detect_negotiation_intent user_message in
    let self := append_message User user_message self in
    let conversation_context := _get_conversation_context self in
    let detection :=
      detect_fact_check_needed user_message conversation_context in
    let conversation_text := _get_conversation_context self in
    let '(detector, detected_traits) :=
      detect_traits conversation_text (trait_detector self) in
    let self := set_trait_detector detector self in
    let should_offer :=
      should_offer_discount && (0 <? length detected_traits)%nat in
    let offered : option BouncerAgent :=
      if should_offer then
        let '(self, discount_info) :=
          _create_discount_offer env (Some conversation_text) self in
        match discount_info with
        | DiscountCreated info =>
            match discount_context info with
            | Some text =>
                Some (set_last_discount_code (Some (discount_code info))
                        (append_message System text self))
            | None => None
            end
        | _ => Some self
        end
      else if should_offer_discount && (length detected_traits =? 0)%nat then
        Some (append_message System probe_context self)
      else Some self in
    match offered with
    | None =>
        {| turn_agent :=
             fst (_create_discount_offer env (Some conversation_text) self);
           turn_dispatches := []; turn_outcome := Raised |}
    | Some self =>
        match _get_llm_response self with
        | None =>
            {| turn_agent := self; turn_dispatches := [];
               turn_outcome := Raised |}
        | Some response =>
            let ask :=
              needed detection
              && should_ask_consent (agent_router self) detection in
            let consent_request :=
              if ask then
                if bool_decide (agent_type detection = Some "brave"%string)
                then Some "Can I verify that on Brave search? (yes/no)"%string
                else if bool_decide
                          (agent_type detection = Some "linkedin"%string)
                then Some "Can I look that up on LinkedIn? (yes/no)"%string
                else None
              else None in
            let self := if ask then set_pending (Some detection) self
                        else self in
            let self := append_message Assistant response self in
            {| turn_agent := self; turn_dispatches := [];
               turn_outcome := Replied response consent_request |}
        end
    end.
End Chat.

(** ** Vocabulary of the statements about the router *)

(** Some pattern of the family matches the text. *)
Definition family_matches (patterns : list string) (text : string) : bool :=
  existsb (fun pattern => bool_decide (is_Some (re_search pattern text true)))
          patterns.

(** A router without any bound agent, one with only the search agent, and
    example detections. *)
Definition unconfigured_router : AgentRouter :=
  {| router_config := default_config; brave_agent := None;
     linkedin_agent := None |}.

Definition silent_brave : BraveAgent :=
  {| brave_search := fun _ => {| fc_success := true;
                                 fc_summary := Some "No results found."%string;
                                 fc_error := None |} |}.

Definition search_only_router : AgentRouter :=
  {| router_config := default_config; brave_agent := Some silent_brave;
     linkedin_agent := None |}.

Definition untyped_detection : Detection :=
  {| needed := true; agent_type := None; query := None; confidence := 0.9;
     extracted_info := None; claim := None |}.

(** An example catalog: two traits, three and two keywords. *)
Definition salon_config : Config :=
  {| cfg_max_discount_pct := None; cfg_floor_margin_pct := None;
     cfg_first_offer_pct := None; cfg_counter_step_pct := None;
     cfg_max_trait_bonus_pct := None;
     cfg_valuable_traits :=
       [("influencer", TraitDict (Some ["Influencer"; "followers"; "instagram"])
                                 (Some 5));
        ("salon_owner", TraitDict (Some ["salon"; "stylist"]) (Some 4))]%string;
     cfg_tool_calls := [] |}.

Definition used_detector : TraitDetector :=
  {| td_config := salon_config; detected_traits := ["salon_owner"%string];
     trait_keywords := _load_trait_keywords salon_config |}.


(** Example collaborators: a Shopify client that answers every request with
    a structured failure, one that always raises, and a fixed clock and
    generator. *)
Definition rejecting_shopify : ShopifyClient :=
  {| create_discount_code := fun _ =>
       ShopifyReturns {| shopify_success := false; shopify_code := EmptyString;
                         shopify_expires_at := 0; shopify_discount_id := None;
                         shopify_error := Some "Code has already been taken"%string |} |}.


Definition example_env : Env :=
  {| env_now := 0; env_random := fun i => (7 * i + 30)%nat |}.

(** ** Vocabulary of the statements about consent *)

(** The dispatch that a pending detection asks for. *)
Definition dispatch_of (detection : Detection) : Dispatch :=
  {| dispatch_agent_type := agent_type detection;
     dispatch_query := query detection;
     dispatch_context := extracted_info detection |}.

(** The system note that carries the fact-check result into the model
    context. *)
Definition fact_check_note (router : AgentRouter) (detection : Detection)
  : string :=
  "[Fact-check result via " +:+ str_of_option (agent_type detection) +:+ "]: "
  +:+ default "No results found"%string
        (fc_summary (execute_fact_check router (agent_type detection)
                       (query detection) (extracted_info detection))).

(** The consent protocol as the specification words it: with a pending
    detection, an affirmative answer makes one dispatch, any other answer
    none, and either way the session is back in [IDLE]. *)
Definition spec_consent_turn : Prop :=
  forall str_of_number env (a : BouncerAgent) user_message d,
    pending_fact_check a = Some d ->
    let t := chat str_of_number env a user_message in
    length (turn_dispatches t) = (if consent_given user_message then 1 else 0)%nat /\
    session_state (turn_agent t) = IDLE.

(** Example agents awaiting consent: one whose model replies, one whose
    model call raises. *)
Definition replying_client : LLMClient := OpenAI (fun _ => Some " Fine. "%string).

Definition failing_client : LLMClient := OpenAI (fun _ => None).

Definition pending_detection : Detection :=
  detect_fact_check_needed "According to a recent report, X is true" "".

Definition awaiting_agent (client : LLMClient) : BouncerAgent :=
  set_pending (Some pending_detection)
    (new_bouncer_agent default_config "s1" "You are the Bouncer." client
       search_only_router None).

Definition plain_numbers (x : Number) : string := EmptyString.

(** ** Vocabulary of the further statements about pricing *)

(** The results of a sequence of calls, in order. *)
Fixpoint run_trace (cs : list Call) (s : NegotiationState) : list OfferResult :=
  match cs with
  | [] => []
  | c :: cs' => snd (run_call c s) :: run_trace cs' (fst (run_call c s))
  end.

Definition successes (results : list OfferResult) : nat :=
  length (List.filter is_success results).

(** The automatic calls: no discount and no previous value is passed in. *)
Definition call_automatic (c : Call) : Prop :=
  match c with
  | CallMakeOffer _ _ => False
  | CallGetNextOffer _ previous => previous = None
  | CallDiscountOffer _ d _ => d = None
  end.

(** The discounts of the history never go down. *)
Definition ledger_ordered (s : NegotiationState) : Prop :=
  forall i j oi oj,
    (i <= j)%nat -> offers s !! i = Some oi -> offers s !! j = Some oj ->
    fle (offer_discount_pct oi) (offer_discount_pct oj).

(** Every session of the registry satisfies the session invariant for the
    service's configuration. *)
Definition registry_ok (ps : PricingService) : Prop :=
  map_Forall (fun _ n => session_invariant (ps_config ps) n) (negotiations ps).

(** ** Vocabulary of the further statements about traits *)

(** No trait of the catalog has a negative [discount_bonus_pct]. *)
Definition bonuses_nonneg (cfg : Config) : Prop :=
  Forall (fun entry => match snd entry with
                       | TraitDict _ (Some bonus_pct) => 0 <= bonus_pct
                       | _ => True
                       end) (cfg_valuable_traits cfg).

(** [max_trait_bonus_pct], 10 when absent. *)
Definition max_trait_bonus_pct (cfg : Config) : Q :=
  default 10 (cfg_max_trait_bonus_pct cfg).

(** ** Vocabulary of the further statements about text *)

(** The string consists of whitespace only. *)
Definition all_spaces (s : string) : bool :=
  forallb is_space (list_ascii_of_string s).

(** The string contains a space character. *)
Definition has_space (s : string) : bool :=
  existsb (Ascii.eqb " ") (list_ascii_of_string s).

(** Some character of the string equals [c], under the matcher's
    comparison. *)
Definition mentions (ic : bool) (c : ascii) (s : string) : bool :=
  existsb (char_eqb ic c) (list_ascii_of_string s).

(** The compiled pattern contains the literal character [c]. *)
Definition requires_char (c : ascii) (p : list Token) : bool :=
  existsb (fun t => match t with Lit a => Ascii.eqb a c | _ => false end) p.

(** ** Vocabulary of the further statements about the conversation *)

(** A run of turns: the agent after them and all dispatches, in order. *)
Fixpoint run_turns (str_of_number : Number -> string) (inputs : list (Env * string))
    (self : BouncerAgent) : BouncerAgent * list Dispatch :=
  match inputs with
  | [] => (self, [])
  | (env, user_message) :: rest =>
      let turn := chat str_of_number env self user_message in
      (fst (run_turns str_of_number rest (turn_agent turn)),
       turn_dispatches turn ++ snd (run_turns str_of_number rest (turn_agent turn)))
  end.

(** A pending detection is one that the consent gate has accepted for a
    capability that is bound. *)
Definition pending_ok (a : BouncerAgent) : Prop :=
  forall d, pending_fact_check a = Some d ->
            needed d = true /\
            should_ask_consent (agent_router a) d = true /\
            capability_available (agent_router a) (agent_type d) = true.

(** The parts of the agent that no turn changes. *)
Definition same_collaborators (a b : BouncerAgent) : Prop :=
  agent_config b = agent_config a /\ session_id b = session_id a /\
  system_prompt b = system_prompt a /\ llm_client b = llm_client a /\
  agent_router b = agent_router a.

(** The two halves of the normal pipeline of [chat], named so that
    statements can speak about them. *)
Section ChatSteps.
Variable str_of_number : Number -> string.

(** [chat], lines 89-126: the discount decision.  The result is the agent
    with the system note added, or [None] when building the note raises. *)
Definition offer_step (env : Env) (conversation_text : string)
    (should_offer_discount : bool) (detected_traits : list TraitDetection)
    (self : BouncerAgent) : option BouncerAgent :=
  let should_offer :=
    should_offer_discount && (0 <? length detected_traits)%nat in
  if should_offer then
    let '(self, discount_info) :=
      _create_discount_offer env (Some conversation_text) self in
    match discount_info with
    | DiscountCreated info =>
        match discount_context str_of_number info with
        | Some text =>
            Some (set_last_discount_code (Some (discount_code info))
                    (append_message System text self))
        | None => None
        end
    | _ => Some self
    end
  else if should_offer_discount && (length detected_traits =? 0)%nat then
    Some (append_message System probe_context self)
  else Some self.

(** [chat], lines 128-147: the reply and the consent request. *)
Definition reply_step (detection : Detection) (self : BouncerAgent) : Turn :=
  match _get_llm_response self with
  | None =>
      {| turn_agent := self; turn_dispatches := []; turn_outcome := Raised |}
  | Some response =>
      let ask :=
        needed detection
        && should_ask_consent (agent_router self) detection in
      let consent_request :=
        if ask then
          if bool_decide (agent_type detection = Some "brave"%string)
          then Some "Can I verify that on Brave search? (yes/no)"%string
          else if bool_decide
                    (agent_type detection = Some "linkedin"%string)
          then Some "Can I look that up on LinkedIn? (yes/no)"%string
          else None
        else None in
      let self := if ask then set_pending (Some detection) self
                  else self in
      let self := append_message Assistant response self in
      {| turn_agent := self; turn_dispatches := [];
         turn_outcome := Replied response consent_request |}
  end.
End ChatSteps.

(** ** bouncer_api.py *)

(** The JSON body of a request to [/api/chat]: the two keys it reads, each
    possibly absent. *)
Record ChatRequest := {
  request_message : option string;
  request_session_id : option string
}.

(** What the [BouncerAgent] constructor needs from its environment; the
    model client is [None] when no API key is configured, in which case the
    constructor raises. *)
Record Deployment := {
  deployed_config : Config;
  deployed_prompt : string;
  deployed_client : option LLMClient;
  deployed_brave : option BraveAgent;
  deployed_linkedin : option LinkedInAgent;
  deployed_shopify : option ShopifyClient
}.

(** [BouncerAgent(session_id=session_id)]; [None] when it raises. *)
Definition construct_agent (deployment : Deployment) (session_id : string)
  : option BouncerAgent :=
  match deployed_client deployment with
  | Some client =>
      Some (new_bouncer_agent (deployed_config deployment) session_id
              (deployed_prompt deployment) client
              (new_agent_router (deployed_config deployment)
                 (deployed_brave deployment) (deployed_linkedin deployment))
              (deployed_shopify deployment))
  | None => None
  end.

(** [get_or_create_session]; [None] when the constructor raises. *)
Definition get_or_create_session (deployment : Deployment) (session_id : string)
    (sessions : gmap string BouncerAgent)
  : option (gmap string BouncerAgent * BouncerAgent) :=
  match sessions !! session_id with
  | Some agent => Some (sessions, agent)
  | None =>
      match construct_agent deployment session_id with
      | Some agent => Some (<[session_id := agent]> sessions, agent)
      | None => None
      end
  end.

(** The three kinds of answer of the endpoint: 200 with the result
    dictionary, 400, and 500. *)
Inductive ApiResponse :=
| ApiOk (response session_id : string) (consent_request : option string)
        (discount_code : option string)
| ApiMessageRequired
| ApiServerError.

(** The [chat] view of bouncer_api.py.  [fresh_uuid] is the value of
    [str(uuid.uuid4())]; [data] is [request.json], [None] without a JSON
    body. *)
Definition api_chat (str_of_number : Number -> string) (env : Env)
    (fresh_uuid : string) (deployment : Deployment)
    (sessions : gmap string BouncerAgent) (data : option ChatRequest)
  : gmap string BouncerAgent * ApiResponse :=
  match data with
  | None => (sessions, ApiServerError)
  | Some data =>
      let message := strip (default EmptyString (request_message data)) in
      if truthy (Some message) then
        let session_id :=
          if truthy (request_session_id data)
          then default EmptyString (request_session_id data)
          else fresh_uuid in
        match get_or_create_session deployment session_id sessions with
        | None => (sessions, ApiServerError)
        | Some (sessions, agent) =>
            let turn := chat str_of_number env agent message in
            let agent := turn_agent turn in
            let sessions := <[session_id := agent]> sessions in
            match turn_outcome turn with
            | Replied response consent_request =>
                (sessions,
                 ApiOk response session_id consent_request
                   (if truthy (last_discount_code agent)
                    then last_discount_code agent else None))
            | Raised => (sessions, ApiServerError)
            end
        end
      else (sessions, ApiMessageRequired)
  end.

(** The session a request addresses. *)
Definition addressed_session (fresh_uuid : string) (data : ChatRequest) : string :=
  if truthy (request_session_id data)
  then default EmptyString (request_session_id data)
  else fresh_uuid.

(** ** fact_checkers/linkedin_agent.py: the summaries *)

(** The keys of a profile that [_format_profile] reads. *)
Record Profile := {
  profile_name : option string;
  profile_title : option string;
  profile_headline : option string;
  profile_company : option string;
  profile_location : option string
}.

(** [LinkedInAgent._format_profile]; the argument is [None] for an empty
    result or a result without the [profile] key. *)
Definition _format_profile (result : option Profile) : string :=
  match result with
  | None => "No profile found."
  | Some profile =>
      let name := default "Unknown"%string (profile_name profile) in
      let title :=
        match profile_title profile with
        | Some title => title
        | None => default EmptyString (profile_headline profile)
        end in
      let company := default EmptyString (profile_company profile) in
      let location := default EmptyString (profile_location profile) in
      let parts :=
        ["Name: " +:+ name]
        ++ (if truthy (Some title) then ["Title: " +:+ title] else [])
        ++ (if truthy (Some company) then ["Company: " +:+ company] else [])
        ++ (if truthy (Some location) then ["Location: " +:+ location] else []) in
      match parts with
      | [] => "Limited profile information available."
      | _ => join (String "010" EmptyString) parts
      end
  end.

(* ================================================================== *)
(** * Properties *)

(** ** Numbers *)

Lemma Qltb_lt a b : Qltb a b = true <-> a < b.
Proof.
  unfold Qltb. rewrite negb_true_iff.
  destruct (Qle_bool b a) eqn:E.
  - apply Qle_bool_iff in E. split; [discriminate | intros H; exfalso; lra].
  - split; [intros _ | reflexivity].
    destruct (Qlt_le_dec a b) as [H | H]; [exact H |].
    apply Qle_bool_iff in H. congruence.
Qed.

Lemma Qltb_ge a b : Qltb a b = false <-> b <= a.
Proof.
  unfold Qltb. rewrite negb_false_iff. apply Qle_bool_iff.
Qed.

Lemma pymin_le_r a b : pymin a b <= b.
Proof.
  unfold pymin. destruct (Qltb b a) eqn:E; [lra |].
  apply Qltb_ge in E. exact E.
Qed.

Lemma pymin_le_l a b : pymin a b <= a.
Proof.
  unfold pymin. destruct (Qltb b a) eqn:E; [| lra].
  apply Qltb_lt in E. lra.
Qed.

Lemma pymin_glb a b c : c <= a -> c <= b -> c <= pymin a b.
Proof. unfold pymin. destruct (Qltb b a); auto. Qed.


Lemma Qle_bool_gt a b : Qle_bool a b = false <-> b < a.
Proof.
  destruct (Qle_bool a b) eqn:E.
  - apply Qle_bool_iff in E. split; [discriminate | intros H; exfalso; lra].
  - split; [intros _ | reflexivity].
    destruct (Qlt_le_dec b a) as [H | H]; [exact H |].
    apply Qle_bool_iff in H. congruence.
Qed.

(** ** Floats *)

(** Turns the boolean comparisons on finite values, in the goal and in the
    hypotheses, into the order of [Q]. *)
Ltac float_props :=
  cbv beta iota delta [flt fle fltb fleb fadd fsub] in *;
  repeat match goal with
         | H : Qltb _ _ = true |- _ => apply Qltb_lt in H
         | H : Qltb _ _ = false |- _ => apply Qltb_ge in H
         | H : Qle_bool _ _ = true |- _ => apply Qle_bool_iff in H
         | H : Qle_bool _ _ = false |- _ => apply Qle_bool_gt in H
         | |- Qltb _ _ = true => apply Qltb_lt
         | |- Qltb _ _ = false => apply Qltb_ge
         | |- Qle_bool _ _ = true => apply Qle_bool_iff
         | |- Qle_bool _ _ = false => apply Qle_bool_gt
         end.

(** Decides a goal about the four kinds of float by cases. *)
Ltac float_cases :=
  float_props;
  solve [ congruence | reflexivity | discriminate | lra | tauto
        | exfalso; lra | exfalso; congruence ].

Lemma fltb_Fin a b : fltb (Fin a) (Fin b) = Qltb a b.
Proof. reflexivity. Qed.

Lemma fleb_Fin a b : fleb (Fin a) (Fin b) = Qle_bool a b.
Proof. reflexivity. Qed.

Lemma fle_Fin a b : fle (Fin a) (Fin b) <-> a <= b.
Proof. apply Qle_bool_iff. Qed.

Lemma flt_Fin a b : flt (Fin a) (Fin b) <-> a < b.
Proof. apply Qltb_lt. Qed.

(** A comparison that holds has no NaN on either side. *)
Lemma fltb_not_nan a b : fltb a b = true -> a <> NaN /\ b <> NaN.
Proof. destruct a, b; cbv beta iota delta [fltb fleb fadd fsub]; intros H; split; congruence. Qed.

Lemma fleb_not_nan a b : fleb a b = true -> a <> NaN /\ b <> NaN.
Proof. destruct a, b; cbv beta iota delta [fltb fleb fadd fsub]; intros H; split; congruence. Qed.

(** On ordered values, [not (a < b)] is [b <= a]; with a NaN neither
    holds. *)
Lemma fltb_false_fle a b :
  fltb a b = false -> a <> NaN -> b <> NaN -> fle b a.
Proof. destruct a, b; intros H Ha Hb; float_cases. Qed.

Lemma fleb_false_flt a b :
  fleb a b = false -> a <> NaN -> b <> NaN -> flt b a.
Proof. destruct a, b; intros H Ha Hb; float_cases. Qed.

Lemma fltb_fleb a b : fltb a b = true -> fleb a b = true.
Proof. destruct a, b; intros H; float_cases. Qed.

Lemma fltb_irrefl a : fltb a a = false.
Proof. destruct a; float_cases. Qed.

Lemma fltb_asym a b : fltb a b = true -> fltb b a = false.
Proof. destruct a, b; intros H; float_cases. Qed.

Lemma fle_refl a : a <> NaN -> fle a a.
Proof. destruct a; intros H; float_cases. Qed.

Lemma fle_not_flt a b : fle a b -> fltb b a = false.
Proof. destruct a, b; intros H; float_cases. Qed.

Lemma fle_trans a b c : fle a b -> fle b c -> fle a c.
Proof. destruct a, b, c; intros H1 H2; float_cases. Qed.

Lemma flt_fle_trans a b c : flt a b -> fle b c -> flt a c.
Proof. destruct a, b, c; intros H1 H2; float_cases. Qed.

Lemma fadd_Fin_not_nan a q : a <> NaN -> fadd a (Fin q) <> NaN.
Proof. destruct a; cbv beta iota delta [fltb fleb fadd fsub]; congruence. Qed.

Lemma fsub_Fin_not_nan q a : a <> NaN -> fsub (Fin q) a <> NaN.
Proof. destruct a; cbv beta iota delta [fltb fleb fadd fsub]; congruence. Qed.

Lemma fsub_Fin_nan q a : fsub (Fin q) a = NaN <-> a = NaN.
Proof. destruct a; cbv beta iota delta [fltb fleb fadd fsub]; split; congruence. Qed.

Lemma fmin_not_nan a b : a <> NaN -> b <> NaN -> fmin a b <> NaN.
Proof. unfold fmin. destruct (fltb b a); auto. Qed.

Lemma fmin_nan_l b : fmin NaN b = NaN.
Proof. destruct b; reflexivity. Qed.

(** [min(a, b)] is at most [b], unless [a] is NaN. *)
Lemma fmin_le_r a b : a <> NaN -> b <> NaN -> fle (fmin a b) b.
Proof.
  intros Ha Hb. unfold fmin. destruct (fltb b a) eqn:E.
  - apply fle_refl, Hb.
  - apply fltb_false_fle; assumption.
Qed.

Lemma fmin_le_l a b : a <> NaN -> b <> NaN -> fle (fmin a b) a.
Proof.
  intros Ha Hb. unfold fmin. destruct (fltb b a) eqn:E.
  - apply fltb_fleb, E.
  - apply fle_refl, Ha.
Qed.

Lemma fmin_glb a b c : fle c a -> fle c b -> fle c (fmin a b).
Proof. unfold fmin. destruct (fltb b a); auto. Qed.

Lemma fadd_Fin_le a q : 0 <= q -> a <> NaN -> fle a (fadd a (Fin q)).
Proof. destruct a; intros Hq Ha; float_cases. Qed.

Lemma fadd_Fin_nonneg a q : 0 <= q -> fle (Fin 0) a -> fle (Fin 0) (fadd a (Fin q)).
Proof. destruct a; intros Hq Ha; float_cases. Qed.

(** ** pricing_service.py: [make_offer] *)

(** Case analysis on the three guards of [make_offer], in source order. *)
Ltac make_offer_cases E1 E2 E3 :=
  unfold make_offer;
  match goal with
  | |- context [fltb (Fin (max_discount_pct ?c)) ?d] =>
      destruct (fltb (Fin (max_discount_pct c)) d) eqn:E1;
      [ | match goal with
          | |- context [(?m <=? ?k)%Z] =>
              destruct (m <=? k)%Z eqn:E2;
              [ apply Z.leb_le in E2
              | apply Z.leb_gt in E2;
                match goal with
                | |- context [fltb ?a ?b] => destruct (fltb a b) eqn:E3
                end ]
          end ]
  end.

Lemma make_offer_failure now d s s' e :
  make_offer now d s = (s', Failure e) -> s' = s.
Proof.
  make_offer_cases E1 E2 E3; intros H; inversion H; reflexivity.
Qed.

Lemma make_offer_success now d s s' r :
  make_offer now d s = (s', Success r) ->
  fltb (Fin (max_discount_pct (config s))) d = false /\
  (counter s < max_counters s)%Z /\
  fltb (fsub (Fin 100) d) (Fin (floor_margin_pct (config s))) = false /\
  s' = {| config := config s; counter := (counter s + 1)%Z;
          max_counters := max_counters s; current_discount_pct := d;
          offers := offers s ++
                    [{| offer_counter := (counter s + 1)%Z;
                        offer_discount_pct := d;
                        offer_margin_pct := fsub (Fin 100) d;
                        offer_timestamp := now |}];
          started_at := started_at s |} /\
  r = {| ok_discount_pct := d; ok_margin_pct := fsub (Fin 100) d;
         ok_counter := (counter s + 1)%Z;
         ok_remaining_counters := (max_counters s - (counter s + 1))%Z;
         ok_trait_bonus_applied := false;
         ok_base_discount_pct := None; ok_trait_bonus_pct := None |}.
Proof.
  make_offer_cases E1 E2 E3; intros H; inversion H; subst.
  repeat split; assumption.
Qed.

(** A discount that passed the checks and is not NaN is within the
    limits. *)
Lemma checks_give_limits d m f :
  fltb (Fin m) d = false -> fltb (fsub (Fin 100) d) (Fin f) = false ->
  d <> NaN ->
  fle d (Fin m) /\ fle (Fin f) (fsub (Fin 100) d).
Proof. destruct d; intros H1 H2 Hd; split; float_cases. Qed.

Lemma get_next_offer_failure now p s s' e :
  get_next_offer now p s = (s', Failure e) -> s' = s.
Proof. unfold get_next_offer. apply make_offer_failure. Qed.

Lemma base_offer_failure now d s s' e :
  base_offer now d s = (s', Failure e) -> s' = s.
Proof.
  unfold base_offer. destruct d.
  - apply make_offer_failure.
  - apply get_next_offer_failure.
Qed.

(** A successful base offer is a successful [make_offer] of some discount. *)
Lemma base_offer_success now d s s' r :
  base_offer now d s = (s', Success r) ->
  exists d', make_offer now d' s = (s', Success r) /\
             (forall q, d = Some q -> d' = q).
Proof.
  unfold base_offer, get_next_offer. destruct d as [q |]; intros H.
  - exists q. split; [exact H | intros ? [= ->]; reflexivity].
  - eexists. split; [exact H | discriminate].
Qed.

Lemma amend_last_offer_snoc d m l o :
  amend_last_offer d m (l ++ [o]) =
  l ++ [{| offer_counter := offer_counter o; offer_discount_pct := d;
           offer_margin_pct := m; offer_timestamp := offer_timestamp o |}].
Proof.
  unfold amend_last_offer.
  destruct (l ++ [o]) eqn:E; [destruct l; discriminate |].
  rewrite <- E.
  replace (length (l ++ [o]) - 1)%nat with (length l + 0)%nat
    by (rewrite length_app; simpl; lia).
  rewrite alter_app_r. reflexivity.
Qed.

Lemma run_call_failure c s s' e :
  run_call c s = (s', Failure e) -> s' = s.
Proof.
  destruct c as [now d | now p | now d bonus]; simpl.
  - apply make_offer_failure.
  - apply get_next_offer_failure.
  - destruct (base_offer now d s) as [n1 [b | e1]] eqn:E.
    + unfold apply_trait_bonus.
      repeat match goal with
             | |- context [if ?c then _ else _] => destruct c
             end; discriminate.
    + simpl. intros [= <- _]. eapply base_offer_failure, E.
Qed.

(** The candidate of the trait bonus, once it exceeds something, is at most
    the ceiling. *)
Lemma fmin_ceiling_le x a m :
  fltb x (fmin a (Fin m)) = true -> fle (fmin a (Fin m)) (Fin m).
Proof.
  intros H. apply fltb_not_nan in H as [_ H].
  unfold fmin in *. destruct (fltb (Fin m) a) eqn:E.
  - apply fle_refl. discriminate.
  - apply fltb_false_fle; [exact E | discriminate | exact H].
Qed.

(** The discount that [get_next_offer] asks [make_offer] for. *)
Lemma get_next_offer_unfold now p s :
  get_next_offer now p s =
  make_offer now
    (fmin (if (counter s =? 0)%Z then Fin (first_offer_pct (config s))
           else fadd (default (current_discount_pct s) p)
                     (Fin (counter_step_pct (config s))))
          (Fin (max_discount_pct (config s)))) s.
Proof. unfold get_next_offer. destruct p; reflexivity. Qed.

(** A successful call is a successful [make_offer] of some discount [d'],
    possibly followed by the in-place amendment of the offer just added. *)
Lemma run_call_success c s s' r :
  run_call c s = (s', Success r) ->
  exists now d' o,
    (counter s < max_counters s)%Z /\
    config s' = config s /\
    counter s' = (counter s + 1)%Z /\
    max_counters s' = max_counters s /\
    offers s' = offers s ++ [o] /\
    offer_discount_pct o = current_discount_pct s' /\
    offer_discount_pct o = ok_discount_pct r /\
    offer_margin_pct o = ok_margin_pct r /\
    offer_checked (config s) o /\
    (offer_discount_pct o = d' \/ flt d' (offer_discount_pct o)) /\
    (c = CallMakeOffer now d' \/
     (exists p, c = CallGetNextOffer now p /\
        d' = fmin (if (counter s =? 0)%Z then Fin (first_offer_pct (config s))
                   else fadd (default (current_discount_pct s) p)
                             (Fin (counter_step_pct (config s))))
                  (Fin (max_discount_pct (config s)))) \/
     (exists q bonus, c = CallDiscountOffer now q bonus /\
        (forall x, q = Some x -> d' = x) /\
        (q = None ->
         d' = fmin (if (counter s =? 0)%Z then Fin (first_offer_pct (config s))
                    else fadd (current_discount_pct s)
                              (Fin (counter_step_pct (config s))))
                   (Fin (max_discount_pct (config s)))))).
Proof.
  assert (Hchecked : forall now d,
            fltb (Fin (max_discount_pct (config s))) d = false ->
            fltb (fsub (Fin 100) d) (Fin (floor_margin_pct (config s))) = false ->
            offer_checked (config s)
              {| offer_counter := (counter s + 1)%Z; offer_discount_pct := d;
                 offer_margin_pct := fsub (Fin 100) d; offer_timestamp := now |}).
  { intros now d H1 H3. split; [reflexivity |]. simpl. intros Hd.
    destruct (checks_give_limits _ _ _ H1 H3 Hd). split; [| split]; auto. }
  destruct c as [now d | now p | now d bonus]; simpl.
  - intros H. apply make_offer_success in H as (H1 & H2 & H3 & -> & ->).
    exists now, d. eexists. simpl.
    split_and!; try reflexivity; try assumption; auto.
  - rewrite get_next_offer_unfold. intros H.
    apply make_offer_success in H as (H1 & H2 & H3 & -> & ->).
    do 2 eexists. eexists. simpl.
    split_and!; try reflexivity; try assumption; auto.
    right. left. exists p. split; reflexivity.
  - destruct (base_offer now d s) as [n1 [b | e1]] eqn:E; [| discriminate].
    assert (Hshape : exists d', make_offer now d' s = (n1, Success b) /\
              (forall x, d = Some x -> d' = x) /\
              (d = None ->
               d' = fmin (if (counter s =? 0)%Z then Fin (first_offer_pct (config s))
                          else fadd (current_discount_pct s)
                                    (Fin (counter_step_pct (config s))))
                         (Fin (max_discount_pct (config s))))).
    { unfold base_offer in E. destruct d as [q |].
      - exists q. split; [exact E |]. split; [intros ? [= ->]; reflexivity | discriminate].
      - rewrite get_next_offer_unfold in E.
        eexists. split; [exact E |]. split; [discriminate | intros _].
        destruct (offers s); destruct (counter s =? 0)%Z; reflexivity. }
    destruct Hshape as (d' & Hm & Hq & Hnone).
    apply make_offer_success in Hm as (H1 & H2 & H3 & -> & ->).
    unfold apply_trait_bonus. simpl.
    destruct (fltb (Fin 0) bonus) eqn:B0;
      [destruct (fltb d' (fmin (fadd d' bonus) (Fin (max_discount_pct (config s)))))
         eqn:B1;
       [destruct (fleb (Fin (floor_margin_pct (config s)))
                    (fsub (Fin 100)
                       (fmin (fadd d' bonus) (Fin (max_discount_pct (config s))))))
          eqn:B2 |] |];
      intros [= <- <-]; exists now, d'; eexists; simpl;
      try rewrite amend_last_offer_snoc; simpl.
    1: { split_and!; try reflexivity; try assumption.
         - split; [reflexivity |]. simpl. intros _.
           split; [| split]; [| reflexivity | exact B2].
           eapply fmin_ceiling_le, B1.
         - right. exact B1.
         - right. right. exists d, bonus. auto. }
    all: split_and!; try reflexivity; try assumption; auto;
      right; right; exists d, bonus; auto.
Qed.

(** ** pricing_service.py: invariants of a session *)

Lemma new_negotiation_invariant cfg now :
  session_invariant cfg (new_negotiation cfg now).
Proof.
  constructor; simpl; try reflexivity; try lia.
  - constructor.
  - discriminate.
Qed.

Lemma run_call_invariant cfg c s :
  session_invariant cfg s -> session_invariant cfg (fst (run_call c s)).
Proof.
  intros [Hc Hm Hb Hl Ho Hcur].
  destruct (run_call c s) as [s' [r | e]] eqn:E; simpl.
  - apply run_call_success in E
      as (now & d' & o & Hlt & Ec & Ek & Em & Eo & Ed & _ & _ & Hchk & _).
    constructor.
    + congruence.
    + congruence.
    + lia.
    + rewrite Eo, length_app. simpl. lia.
    + rewrite Eo. apply Forall_app. split; [exact Ho |].
      constructor; [| constructor]. rewrite <- Hc. exact Hchk.
    + intros o'. rewrite Eo, last_snoc. intros [= <-]. symmetry. exact Ed.
  - apply run_call_failure in E. subst s'. constructor; assumption.
Qed.

Lemma run_calls_invariant cfg cs s :
  session_invariant cfg s -> session_invariant cfg (run_calls cs s).
Proof.
  revert s. induction cs as [| c cs IH]; intros s H; [exact H |].
  simpl. apply IH, run_call_invariant, H.
Qed.

(** One call either fails and leaves the session as it was, or succeeds and
    advances the counter and the history by exactly one. *)
Lemma run_call_counter c s :
  if is_success (snd (run_call c s))
  then counter (fst (run_call c s)) = (counter s + 1)%Z /\
       length (offers (fst (run_call c s))) = S (length (offers s)) /\
       (counter s < max_counters s)%Z
  else fst (run_call c s) = s.
Proof.
  destruct (run_call c s) as [s' [r | e]] eqn:E; simpl.
  - apply run_call_success in E
      as (now & d' & o & Hlt & _ & Ek & _ & Eo & _).
    rewrite Eo, length_app. simpl. repeat split; [exact Ek | lia | exact Hlt].
  - eapply run_call_failure, E.
Qed.

(** The discount that an automatic offer starts from is not NaN when the
    session holds none and none is passed in. *)
Lemma next_candidate_not_nan s p :
  current_discount_pct s <> NaN -> p <> Some NaN ->
  fmin (if (counter s =? 0)%Z then Fin (first_offer_pct (config s))
        else fadd (default (current_discount_pct s) p)
                  (Fin (counter_step_pct (config s))))
       (Fin (max_discount_pct (config s))) <> NaN.
Proof.
  intros Hcur Hp. apply fmin_not_nan; [| discriminate].
  destruct (counter s =? 0)%Z; [discriminate |].
  apply fadd_Fin_not_nan. destruct p as [x |]; simpl; congruence.
Qed.

(** NaN enters a session only through an argument. *)
Lemma run_call_no_nan c s :
  call_not_nan c -> no_nan s -> no_nan (fst (run_call c s)).
Proof.
  intros Hc [Ho Hcur].
  destruct (run_call c s) as [s' [r | e]] eqn:E; simpl.
  - apply run_call_success in E
      as (now & d' & o & _ & _ & _ & _ & Eo & Ed & _ & _ & _ & Hd & Hshape).
    assert (Hd' : d' <> NaN).
    { destruct Hshape as [-> | [(p & -> & ->) | (q & bonus & -> & Hq & Hn)]].
      - exact Hc.
      - apply next_candidate_not_nan; assumption.
      - destruct q as [x |].
        + rewrite (Hq x eq_refl). simpl in Hc. congruence.
        + rewrite (Hn eq_refl).
          apply (next_candidate_not_nan s None); [exact Hcur | discriminate]. }
    assert (Hnew : offer_discount_pct o <> NaN).
    { destruct Hd as [-> | Hd]; [exact Hd' |]. apply fltb_not_nan in Hd. tauto. }
    split.
    + rewrite Eo. apply Forall_app. split; [exact Ho |].
      constructor; [exact Hnew | constructor].
    + rewrite <- Ed. exact Hnew.
  - apply run_call_failure in E. subst s'. split; assumption.
Qed.

Lemma run_calls_no_nan cs s :
  Forall call_not_nan cs -> no_nan s -> no_nan (run_calls cs s).
Proof.
  revert s. induction cs as [| c cs IH]; intros s Hcs Hs; [exact Hs |].
  inversion Hcs; subst. simpl. apply IH; [assumption |].
  apply run_call_no_nan; assumption.
Qed.

(** Without NaN, the checks of [make_offer] are the limits. *)
Lemma checked_within_limits cfg s :
  session_invariant cfg s -> no_nan s ->
  Forall (offer_within_limits cfg) (offers s).
Proof.
  intros Hinv [Hnan _]. pose proof (inv_offers _ _ Hinv) as Hall.
  rewrite Forall_forall in *. intros o Ho.
  apply (Hall o Ho), (Hnan o Ho).
Qed.

Lemma fle_flt_trans a b c : fle a b -> flt b c -> fle a c.
Proof. destruct a, b, c; intros H1 H2; float_cases. Qed.

Lemma call_nonneg_not_nan c : call_nonneg c -> call_not_nan c.
Proof.
  destruct c as [now d | now [p |] | now [d |] bonus]; simpl; intros H;
    try discriminate; try (intros [= ->]); try subst; try discriminate H.
Qed.

Lemma run_call_nonneg c s :
  config_nonneg (config s) -> call_nonneg c ->
  discounts_nonneg s -> discounts_nonneg (fst (run_call c s)).
Proof.
  intros (Hf & Hs & Hm) Hc [Ho Hcur].
  destruct (run_call c s) as [s' [r | e]] eqn:E; simpl.
  - apply run_call_success in E
      as (now & d' & o & _ & _ & _ & _ & Eo & Ed & _ & _ & _ & Hd & Hshape).
    assert (Hauto : forall p, from_option (fle (Fin 0)) True p ->
              fle (Fin 0)
                (fmin (if (counter s =? 0)%Z then Fin (first_offer_pct (config s))
                       else fadd (default (current_discount_pct s) p)
                                 (Fin (counter_step_pct (config s))))
                      (Fin (max_discount_pct (config s))))).
    { intros p Hp. apply fmin_glb; [| apply fle_Fin, Hm].
      destruct (counter s =? 0)%Z; [apply fle_Fin, Hf |].
      apply fadd_Fin_nonneg; [exact Hs |].
      destruct p as [q |]; simpl in *; assumption. }
    assert (fle (Fin 0) d') as Hd'.
    { destruct Hshape as [-> | [(p & -> & ->) | (q & bonus & -> & Hq & Hn)]].
      - exact Hc.
      - apply Hauto, Hc.
      - destruct q as [x |].
        + rewrite (Hq x eq_refl). exact Hc.
        + rewrite (Hn eq_refl). apply (Hauto None I). }
    assert (Hnew : fle (Fin 0) (offer_discount_pct o)).
    { destruct Hd as [-> | Hd]; [exact Hd' |]. eapply fle_flt_trans; eassumption. }
    split.
    + rewrite Eo. apply Forall_app. split; [exact Ho |].
      constructor; [exact Hnew | constructor].
    + rewrite <- Ed. exact Hnew.
  - apply run_call_failure in E. subst s'. split; assumption.
Qed.

Lemma run_calls_nonneg cfg cs s :
  session_invariant cfg s -> config_nonneg cfg -> Forall call_nonneg cs ->
  discounts_nonneg s -> discounts_nonneg (run_calls cs s).
Proof.
  revert s. induction cs as [| c cs IH]; intros s Hinv Hcfg Hcs Hs; [exact Hs |].
  inversion Hcs; subst. simpl. apply IH; try assumption.
  - apply run_call_invariant, Hinv.
  - apply run_call_nonneg; try assumption.
    rewrite (inv_config _ _ Hinv). exact Hcfg.
Qed.

(** The registry of [PricingService] only ever holds sessions that satisfy
    the invariant. *)
Lemma make_discount_offer_invariant now sid d bonus (ps : PricingService) :
  map_Forall (fun _ n => session_invariant (ps_config ps) n) (negotiations ps) ->
  ps_config (fst (make_discount_offer now sid d bonus ps)) = ps_config ps /\
  map_Forall (fun _ n => session_invariant (ps_config ps) n)
    (negotiations (fst (make_discount_offer now sid d bonus ps))).
Proof.
  intros Hall. unfold make_discount_offer, get_negotiation.
  assert (Hstep : forall n, session_invariant (ps_config ps) n ->
            session_invariant (ps_config ps)
              (fst (apply_trait_bonus (ps_config ps) bonus (base_offer now d n)))).
  { intros n Hn.
    pose proof (run_call_invariant _ (CallDiscountOffer now d bonus) n Hn) as H.
    simpl in H. rewrite (inv_config _ _ Hn) in H. exact H. }
  destruct (negotiations ps !! sid) as [n |] eqn:E; simpl.
  - specialize (Hstep n (Hall _ _ E)).
    destruct (apply_trait_bonus _ _ _) as [n' r]. simpl in *.
    split; [reflexivity |]. apply map_Forall_insert_2; assumption.
  - specialize (Hstep _ (new_negotiation_invariant (ps_config ps) now)).
    destruct (apply_trait_bonus _ _ _) as [n' r]. simpl in *.
    split; [reflexivity |].
    apply map_Forall_insert_2; [assumption |].
    apply map_Forall_insert_2; [apply new_negotiation_invariant | assumption].
Qed.

(** [make_discount_offer] runs the offer and the bonus on the session's
    state (a fresh one for an unknown session) and stores the result. *)
Lemma make_discount_offer_run now sid d bonus (ps : PricingService) :
  make_discount_offer now sid d bonus ps =
  (let n := default (new_negotiation (ps_config ps) now) (negotiations ps !! sid) in
   ({| ps_config := ps_config ps;
       negotiations :=
         <[sid := fst (apply_trait_bonus (ps_config ps) bonus (base_offer now d n))]>
           (negotiations ps) |},
    snd (apply_trait_bonus (ps_config ps) bonus (base_offer now d n)))).
Proof.
  unfold make_discount_offer, get_negotiation.
  destruct (negotiations ps !! sid) as [n |]; simpl.
  - destruct (apply_trait_bonus _ _ _). reflexivity.
  - destruct (apply_trait_bonus _ _ _). simpl.
    rewrite insert_insert_eq. reflexivity.
Qed.

(** The sessions of a service that is driven by [make_discount_offer]
    satisfy the invariant, and hold no NaN when none is requested. *)
Lemma run_requests_invariant cfg requests (ps : PricingService) :
  ps_config ps = cfg ->
  map_Forall (fun _ n => session_invariant cfg n) (negotiations ps) ->
  ps_config (run_requests requests ps) = cfg /\
  map_Forall (fun _ n => session_invariant cfg n)
    (negotiations (run_requests requests ps)) /\
  (Forall (fun q => rq_discount_pct q <> Some NaN) requests ->
   map_Forall (fun _ n => no_nan n) (negotiations ps) ->
   map_Forall (fun _ n => no_nan n) (negotiations (run_requests requests ps))).
Proof.
  revert ps. induction requests as [| q requests IH]; intros ps Hcfg Hinv;
    [split_and!; auto |].
  change (run_requests (q :: requests) ps)
    with (run_requests requests
            (fst (make_discount_offer (rq_now q) (rq_session_id q)
                    (rq_discount_pct q) (rq_trait_bonus_pct q) ps))).
  rewrite <- Hcfg in Hinv.
  destruct (make_discount_offer_invariant (rq_now q) (rq_session_id q)
              (rq_discount_pct q) (rq_trait_bonus_pct q) ps Hinv) as [Hcfg' Hinv'].
  rewrite Hcfg in Hcfg', Hinv'.
  destruct (IH _ Hcfg' Hinv') as (H1 & H2 & H3).
  split_and!; [exact H1 | exact H2 |].
  intros Hq Hnan. inversion Hq as [| ? ? Hq1 Hq2]; subst. apply H3; [exact Hq2 |].
  rewrite make_discount_offer_run. cbv zeta. simpl.
  set (n0 := default (new_negotiation (ps_config ps) (rq_now q))
                     (negotiations ps !! rq_session_id q)).
  assert (Hn0 : session_invariant (ps_config ps) n0 /\ no_nan n0).
  { subst n0. destruct (negotiations ps !! rq_session_id q) as [n |] eqn:E; simpl.
    - split; [exact (Hinv _ _ E) | exact (Hnan _ _ E)].
    - split; [apply new_negotiation_invariant |].
      split; simpl; [constructor | discriminate]. }
  destruct Hn0 as [Hi Hn].
  apply map_Forall_insert_2; [| exact Hnan].
  pose proof (run_call_no_nan
                (CallDiscountOffer (rq_now q) (rq_discount_pct q)
                   (rq_trait_bonus_pct q)) n0 Hq1 Hn) as H.
  simpl in H. rewrite (inv_config _ _ Hi) in H. exact H.
Qed.

(** C1 (amended).  In every session reached from a fresh one by any sequence
    of [make_offer], [get_next_offer] and [make_discount_offer] (offer plus
    trait bonus) calls, with any floats as arguments: the counter lies
    between 0 and [max_counters = 3]; [len(offers) == counter]; the current
    discount is that of the last offer; every stored offer has [margin_pct =
    100 - discount_pct], and every stored offer whose discount is not NaN
    has [discount_pct <= max_discount_pct] and [margin_pct >=
    floor_margin_pct].  Every further call either fails and changes nothing,
    or succeeds and advances the counter and the history by exactly one.
    The checks of [make_offer] are comparisons, which NaN never fails: when
    no call passes NaN as its discount or previous discount, no stored
    discount is NaN and every stored offer is within the two limits.  The
    lower bound [0 <= discount_pct] is not checked by the code: it holds
    when the configured first offer, step and ceiling and all explicitly
    requested discounts are non-negative.  The same invariant and limits
    hold of every session in the registry of a [PricingService] that is
    driven by any sequence of [make_discount_offer] calls. *)
Theorem negotiation_session_invariants cfg now0 cs :
  let s := run_calls cs (new_negotiation cfg now0) in
  session_invariant cfg s /\
  (forall c,
     if is_success (snd (run_call c s))
     then counter (fst (run_call c s)) = (counter s + 1)%Z /\
          length (offers (fst (run_call c s))) = S (length (offers s)) /\
          (counter s < max_counters s)%Z
     else fst (run_call c s) = s) /\
  (Forall call_not_nan cs ->
   no_nan s /\ Forall (offer_within_limits cfg) (offers s)) /\
  (config_nonneg cfg -> Forall call_nonneg cs -> discounts_nonneg s) /\
  (forall requests sid n,
     negotiations (run_requests requests (new_pricing_service cfg)) !! sid
     = Some n ->
     session_invariant cfg n /\
     (Forall (fun q => rq_discount_pct q <> Some NaN) requests ->
      no_nan n /\ Forall (offer_within_limits cfg) (offers n))).
Proof.
  intros s.
  assert (Hservice : forall requests sid n,
     negotiations (run_requests requests (new_pricing_service cfg)) !! sid
     = Some n ->
     session_invariant cfg n /\
     (Forall (fun q => rq_discount_pct q <> Some NaN) requests ->
      no_nan n /\ Forall (offer_within_limits cfg) (offers n))).
  { intros requests sid n Hn.
    destruct (run_requests_invariant cfg requests (new_pricing_service cfg)
                eq_refl (map_Forall_empty _)) as (_ & Hinv & Hnan).
    split; [exact (Hinv _ _ Hn) |].
    intros Hq. specialize (Hnan Hq (map_Forall_empty _)).
    split; [exact (Hnan _ _ Hn) |].
    apply checked_within_limits; [exact (Hinv _ _ Hn) | exact (Hnan _ _ Hn)]. }
  assert (Hinv : session_invariant cfg (new_negotiation cfg now0))
    by apply new_negotiation_invariant.
  assert (Hs : session_invariant cfg s) by apply run_calls_invariant, Hinv.
  split; [exact Hs |].
  split; [intros c; apply run_call_counter |].
  split.
  - intros Hcs.
    assert (Hnan : no_nan s).
    { apply run_calls_no_nan; [exact Hcs |]. split; simpl; [constructor | discriminate]. }
    split; [exact Hnan | apply checked_within_limits; assumption].
  - split; [| exact Hservice].
    intros Hcfg Hcs. apply (run_calls_nonneg cfg); try assumption.
    split; simpl; [constructor | apply fle_Fin; lra].
Qed.

Lemma negotiation_session_invariants_witness :
  Forall call_not_nan three_automatic_offers /\
  Forall (offer_within_limits default_config) (offers exhausted_session) /\
  config_nonneg default_config /\
  Forall call_nonneg three_automatic_offers /\
  discounts_nonneg exhausted_session.
Proof.
  assert (Hnan : Forall call_not_nan three_automatic_offers)
    by (repeat constructor; discriminate).
  assert (Hcfg : config_nonneg default_config)
    by (repeat split; vm_compute; discriminate).
  assert (Hcs : Forall call_nonneg three_automatic_offers)
    by (repeat constructor).
  split; [exact Hnan |].
  split; [exact (proj2 (proj1 (proj2 (proj2 (negotiation_session_invariants
                                       default_config 0 three_automatic_offers)))
                          Hnan)) |].
  split; [exact Hcfg |]. split; [exact Hcs |].
  exact (proj1 (proj2 (proj2 (proj2 (negotiation_session_invariants
                                       default_config 0 three_automatic_offers))))
           Hcfg Hcs).
Defined.

(** C1, as stated, fails: [make_offer(-5)] on a fresh session succeeds and
    stores an offer whose discount is negative, and [make_offer(float('nan'))]
    succeeds and stores an offer whose discount is not at most the
    ceiling. *)
Lemma unchecked_offer_counterexample :
  ~ spec_invariant default_config negative_offer_session /\
  ~ spec_invariant default_config nan_offer_session.
Proof.
  split; intros [H _].
  - assert (exists o, offers negative_offer_session = [o] /\
                      offer_discount_pct o = Fin (-5)) as (o & E & Ed)
      by (eexists; split; [vm_compute; reflexivity | reflexivity]).
    rewrite E in H. inversion H as [| ? ? Ho _]; subst.
    destruct Ho as [Ho _]. rewrite Ed in Ho. vm_compute in Ho. discriminate.
  - assert (exists o, offers nan_offer_session = [o] /\
                      offer_discount_pct o = NaN) as (o & E & Ed)
      by (eexists; split; [vm_compute; reflexivity | reflexivity]).
    rewrite E in H. inversion H as [| ? ? Ho _]; subst.
    destruct Ho as [Ho _]. rewrite Ed in Ho. discriminate.
Qed.

(** ** pricing_service.py: validation order of [make_offer] *)

(** C2 (amended).  [make_offer] checks the ceiling first, then the counter,
    then the floor margin; each failure names the check that failed and
    returns the session unchanged.  On a session with [counter ==
    max_counters == 3] a further call fails and mutates nothing; the error
    is the counter-exhaustion one when [discount_pct <= max_discount_pct],
    and the ceiling one otherwise, because the ceiling is checked first. *)
Theorem make_offer_validation_order now d s :
  (flt (Fin (max_discount_pct (config s))) d ->
   make_offer now d s =
   (s, Failure (ExceedsMaximum d (max_discount_pct (config s))))) /\
  (fle d (Fin (max_discount_pct (config s))) ->
   (max_counters s <= counter s)%Z ->
   make_offer now d s = (s, Failure (MaxCountersReached (max_counters s)))) /\
  (fle d (Fin (max_discount_pct (config s))) ->
   (counter s < max_counters s)%Z ->
   flt (fsub (Fin 100) d) (Fin (floor_margin_pct (config s))) ->
   make_offer now d s =
   (s, Failure (BelowFloor d (fsub (Fin 100) d) (floor_margin_pct (config s))))) /\
  (forall s' e, make_offer now d s = (s', Failure e) -> s' = s) /\
  (counter s = 3%Z -> max_counters s = 3%Z ->
   make_offer now d s =
   (s, Failure (if fltb (Fin (max_discount_pct (config s))) d
                then ExceedsMaximum d (max_discount_pct (config s))
                else MaxCountersReached 3))).
Proof.
  split_and!.
  - intros H. unfold make_offer. rewrite H. reflexivity.
  - intros H1 H2. apply fle_not_flt in H1.
    make_offer_cases E1 E2 E3; solve [reflexivity | congruence | exfalso; lia].
  - intros H1 H2 H3. apply fle_not_flt in H1.
    make_offer_cases E1 E2 E3;
      solve [reflexivity | congruence | exfalso; lia | unfold flt in H3; congruence].
  - intros s' e. apply make_offer_failure.
  - intros Hc Hm. unfold make_offer.
    destruct (fltb (Fin (max_discount_pct (config s))) d); [reflexivity |].
    rewrite Hc, Hm. reflexivity.
Qed.

Lemma make_offer_validation_order_witness :
  make_offer 4 (Fin 14) exhausted_session =
  (exhausted_session, Failure (MaxCountersReached 3)).
Proof.
  exact (proj2 (proj2 (proj2 (proj2
           (make_offer_validation_order 4 (Fin 14) exhausted_session))))
           eq_refl eq_refl).
Defined.

(** C2, as stated, fails: the fourth call with a discount above the ceiling
    is rejected by the ceiling check, not with the counter-exhaustion
    error. *)
Lemma fourth_offer_above_ceiling_counterexample :
  ~ (forall now d s,
       counter s = 3%Z -> max_counters s = 3%Z ->
       exists m, snd (make_offer now d s) = Failure (MaxCountersReached m)).
Proof.
  intros H.
  destruct (H 4%Z (Fin 25) exhausted_session eq_refl eq_refl) as [m Hm].
  vm_compute in Hm. discriminate Hm.
Qed.

(** ** pricing_service.py: the trait bonus *)

Lemma apply_trait_bonus_zero cfg st : apply_trait_bonus cfg (Fin 0) st = st.
Proof. destruct st as [n [r | e]]; reflexivity. Qed.

(** A bonus that is not positive cannot raise the candidate above the
    base. *)
Lemma candidate_needs_positive_bonus base bonus m :
  fltb (Fin 0) bonus = false ->
  fltb base (fmin (fadd base bonus) (Fin m)) = false.
Proof.
  intros H. unfold fmin.
  destruct base as [x | | |], bonus as [q | | |];
    cbv beta iota delta [fltb fadd] in *; try reflexivity; try discriminate.
  destruct (Qltb m (x + q)) eqn:E; float_props; lra.
Qed.

(** The bonus step on a successful base offer of a session whose
    configuration is the service's. *)
Lemma apply_trait_bonus_cases cfg now d bonus n n1 b :
  config n = cfg ->
  base_offer now d n = (n1, Success b) ->
  let base := ok_discount_pct b in
  let candidate := fmin (fadd base bonus) (Fin (max_discount_pct cfg)) in
  let n2 := fst (apply_trait_bonus cfg bonus (n1, Success b)) in
  let r2 := snd (apply_trait_bonus cfg bonus (n1, Success b)) in
  (flt base candidate /\
   fle (Fin (floor_margin_pct cfg)) (fsub (Fin 100) candidate) ->
   r2 = Success {| ok_discount_pct := candidate;
                   ok_margin_pct := fsub (Fin 100) candidate;
                   ok_counter := ok_counter b;
                   ok_remaining_counters := ok_remaining_counters b;
                   ok_trait_bonus_applied := true;
                   ok_base_discount_pct := Some base;
                   ok_trait_bonus_pct := Some bonus |} /\
   fle candidate (Fin (max_discount_pct cfg)) /\
   counter n2 = counter n1 /\
   current_discount_pct n2 = candidate /\
   exists o, offers n1 = offers n ++ [o] /\
             offers n2 = offers n ++
                         [{| offer_counter := offer_counter o;
                             offer_discount_pct := candidate;
                             offer_margin_pct := fsub (Fin 100) candidate;
                             offer_timestamp := offer_timestamp o |}]) /\
  (~ (flt base candidate /\
      fle (Fin (floor_margin_pct cfg)) (fsub (Fin 100) candidate)) ->
   n2 = n1 /\ r2 = Success b) /\
  (exists r o, r2 = Success r /\ last (offers n2) = Some o /\
               offer_discount_pct o = ok_discount_pct r /\
               offer_margin_pct o = ok_margin_pct r /\
               current_discount_pct n2 = ok_discount_pct r /\
               ok_margin_pct r = fsub (Fin 100) (ok_discount_pct r) /\
               (base <> NaN ->
                fle (ok_discount_pct r) (Fin (max_discount_pct cfg)) /\
                fle (Fin (floor_margin_pct cfg)) (ok_margin_pct r)) /\
               counter n2 = (counter n + 1)%Z /\
               length (offers n2) = S (length (offers n))).
Proof.
  intros Hcfg Hbase.
  apply base_offer_success in Hbase as (d' & Hm & _).
  apply make_offer_success in Hm as (H1 & H2 & H3 & -> & ->).
  rewrite Hcfg in *. simpl.
  unfold apply_trait_bonus. simpl.
  destruct (fltb (Fin 0) bonus) eqn:B0;
    [destruct (fltb d' (fmin (fadd d' bonus) (Fin (max_discount_pct cfg)))) eqn:B1;
     [destruct (fleb (Fin (floor_margin_pct cfg))
                  (fsub (Fin 100)
                     (fmin (fadd d' bonus) (Fin (max_discount_pct cfg))))) eqn:B2 |] |];
    simpl; try rewrite amend_last_offer_snoc.
  - split; [| split].
    + intros _. split_and!; try reflexivity.
      * eapply fmin_ceiling_le, B1.
      * eexists. split; reflexivity.
    + intros Hn. exfalso. apply Hn. split; assumption.
    + do 2 eexists. split; [reflexivity |]. rewrite last_snoc.
      split; [reflexivity |]. simpl.
      split_and!; try reflexivity.
      * intros _. split; [eapply fmin_ceiling_le, B1 | exact B2].
      * rewrite length_app. simpl. lia.
  - split; [| split].
    + intros [_ Hle]. unfold fle in Hle. congruence.
    + intros _. split; reflexivity.
    + do 2 eexists. split; [reflexivity |]. rewrite last_snoc.
      split; [reflexivity |]. simpl.
      split_and!; try reflexivity.
      * apply checks_give_limits; assumption.
      * rewrite length_app. simpl. lia.
  - split; [| split].
    + intros [Hlt _]. unfold flt in Hlt. congruence.
    + intros _. split; reflexivity.
    + do 2 eexists. split; [reflexivity |]. rewrite last_snoc.
      split; [reflexivity |]. simpl.
      split_and!; try reflexivity.
      * apply checks_give_limits; assumption.
      * rewrite length_app. simpl. lia.
  - pose proof (candidate_needs_positive_bonus d' bonus (max_discount_pct cfg) B0)
      as B1.
    split; [| split].
    + intros [Hlt _]. unfold flt in Hlt. congruence.
    + intros _. split; reflexivity.
    + do 2 eexists. split; [reflexivity |]. rewrite last_snoc.
      split; [reflexivity |]. simpl.
      split_and!; try reflexivity.
      * apply checks_give_limits; assumption.
      * rewrite length_app. simpl. lia.
Qed.

(** C3.  Take a call of [make_discount_offer] whose offer succeeds: the
    same call without bonus returns [b], with discount [base], and leaves
    the session as [n1].  With the bonus, the candidate is [min(base +
    bonus, max_discount_pct)].  Exactly when the candidate exceeds [base]
    and leaves a margin of at least [floor_margin_pct], the offer just
    appended is overwritten in place with the candidate and its margin (same
    counter, same number of offers) and the result carries
    [trait_bonus_applied], the base value and the bonus; otherwise session
    and result are those of the call without bonus.  Either way one offer
    was added and the counter advanced once, and the stored and returned
    discount respects the ceiling and the floor margin whenever the base
    discount is a number; an overwritten offer always does.  (With a NaN
    base the candidate is NaN, nothing is overwritten and the base offer
    stays.) *)
Theorem trait_bonus_applied_iff now sid d bonus (ps ps1 : PricingService) b :
  (forall n, negotiations ps !! sid = Some n -> config n = ps_config ps) ->
  make_discount_offer now sid d (Fin 0) ps = (ps1, Success b) ->
  let cfg := ps_config ps in
  let n := default (new_negotiation cfg now) (negotiations ps !! sid) in
  let base := ok_discount_pct b in
  let candidate := fmin (fadd base bonus) (Fin (max_discount_pct cfg)) in
  let ps2 := fst (make_discount_offer now sid d bonus ps) in
  let r2 := snd (make_discount_offer now sid d bonus ps) in
  exists n1 n2,
    negotiations ps1 !! sid = Some n1 /\
    negotiations ps2 !! sid = Some n2 /\
    (flt base candidate /\
     fle (Fin (floor_margin_pct cfg)) (fsub (Fin 100) candidate) ->
     r2 = Success {| ok_discount_pct := candidate;
                     ok_margin_pct := fsub (Fin 100) candidate;
                     ok_counter := ok_counter b;
                     ok_remaining_counters := ok_remaining_counters b;
                     ok_trait_bonus_applied := true;
                     ok_base_discount_pct := Some base;
                     ok_trait_bonus_pct := Some bonus |} /\
     fle candidate (Fin (max_discount_pct cfg)) /\
     counter n2 = counter n1 /\
     current_discount_pct n2 = candidate /\
     exists o, offers n1 = offers n ++ [o] /\
               offers n2 = offers n ++
                           [{| offer_counter := offer_counter o;
                               offer_discount_pct := candidate;
                               offer_margin_pct := fsub (Fin 100) candidate;
                               offer_timestamp := offer_timestamp o |}]) /\
    (~ (flt base candidate /\
        fle (Fin (floor_margin_pct cfg)) (fsub (Fin 100) candidate)) ->
     ps2 = ps1 /\ n2 = n1 /\ r2 = Success b) /\
    (exists r o, r2 = Success r /\ last (offers n2) = Some o /\
                 offer_discount_pct o = ok_discount_pct r /\
                 offer_margin_pct o = ok_margin_pct r /\
                 current_discount_pct n2 = ok_discount_pct r /\
                 ok_margin_pct r = fsub (Fin 100) (ok_discount_pct r) /\
                 (base <> NaN ->
                  fle (ok_discount_pct r) (Fin (max_discount_pct cfg)) /\
                  fle (Fin (floor_margin_pct cfg)) (ok_margin_pct r)) /\
                 counter n2 = (counter n + 1)%Z /\
                 length (offers n2) = S (length (offers n))).
Proof.
  intros Hreg Hplain cfg n.
  rewrite make_discount_offer_run in Hplain. cbv zeta in Hplain.
  rewrite !apply_trait_bonus_zero in Hplain. fold cfg n in Hplain.
  destruct (base_offer now d n) as [n1 [b' | e]] eqn:Hbase;
    simpl in Hplain; [| discriminate].
  injection Hplain as <- <-.
  assert (Hcfg : config n = cfg).
  { subst n. destruct (negotiations ps !! sid) as [n0 |] eqn:E; simpl; auto. }
  pose proof (apply_trait_bonus_cases cfg now d bonus n n1 b' Hcfg Hbase)
    as Hcases.
  rewrite make_discount_offer_run. cbv zeta in *. fold cfg n. rewrite Hbase.
  remember (apply_trait_bonus cfg bonus (n1, Success b')) as st eqn:Est.
  clear Est. destruct Hcases as (Happlied & Hkept & Hbounds).
  exists n1, (fst st). simpl. rewrite !lookup_insert_eq.
  split; [reflexivity |]. split; [reflexivity |].
  split; [exact Happlied |]. split; [| exact Hbounds].
  intros Hn. destruct (Hkept Hn) as [E1 E2]. rewrite E1. auto.
Qed.

Lemma trait_bonus_applied_iff_witness :
  let ps := fst (make_discount_offer 1 "alice" None (Fin 0)
                   (new_pricing_service default_config)) in
  exists r,
    snd (make_discount_offer 2 "alice" None (Fin 5) ps) = Success r /\
    ok_discount_pct r = Fin 16 /\
    ok_trait_bonus_applied r = true /\
    ok_base_discount_pct r = Some (Fin 11).
Proof.
  intros ps.
  assert (Hreg : forall n, negotiations ps !! "alice"%string = Some n ->
                           config n = ps_config ps).
  { subst ps. rewrite make_discount_offer_run. cbv zeta.
    cbn [fst negotiations ps_config new_pricing_service].
    intros n. rewrite lookup_insert_eq. intros [= <-]. reflexivity. }
  assert (Hplain : exists b,
            make_discount_offer 2 "alice" None (Fin 0) ps
            = (fst (make_discount_offer 2 "alice" None (Fin 0) ps), Success b) /\
            ok_discount_pct b = Fin 11).
  { subst ps. rewrite !make_discount_offer_run. cbv zeta.
    cbn [fst negotiations ps_config new_pricing_service].
    rewrite lookup_insert_eq. eexists. split; reflexivity. }
  destruct Hplain as (b & Hplain & Hb).
  destruct (trait_bonus_applied_iff 2 "alice" None (Fin 5) ps _ b Hreg Hplain)
    as (n1 & n2 & _ & _ & Happlied & _).
  rewrite Hb in Happlied.
  destruct Happlied as (Hr & _).
  - split; vm_compute; reflexivity.
  - eexists. split; [exact Hr |]. split_and!; reflexivity.
Defined.

(** ** pricing_service.py: automatic escalation *)

Lemma make_offer_accepted now d s :
  fle d (Fin (max_discount_pct (config s))) ->
  (counter s < max_counters s)%Z ->
  fle (Fin (floor_margin_pct (config s))) (fsub (Fin 100) d) ->
  make_offer now d s =
  ({| config := config s; counter := (counter s + 1)%Z;
      max_counters := max_counters s; current_discount_pct := d;
      offers := offers s ++
                [{| offer_counter := (counter s + 1)%Z;
                    offer_discount_pct := d;
                    offer_margin_pct := fsub (Fin 100) d;
                    offer_timestamp := now |}];
      started_at := started_at s |},
   Success {| ok_discount_pct := d; ok_margin_pct := fsub (Fin 100) d;
              ok_counter := (counter s + 1)%Z;
              ok_remaining_counters := (max_counters s - (counter s + 1))%Z;
              ok_trait_bonus_applied := false;
              ok_base_discount_pct := None; ok_trait_bonus_pct := None |}).
Proof.
  intros H1 H2 H3. apply fle_not_flt in H1, H3.
  make_offer_cases E1 E2 E3; solve [reflexivity | congruence | exfalso; lia].
Qed.

Section AutoEscalation.
Variable cfg : Config.
Hypothesis Hfirst : first_offer_pct cfg = 8.
Hypothesis Hstep : counter_step_pct cfg = 3.
Hypothesis Hmax : max_discount_pct cfg = 20.
Hypothesis Hfloor : floor_margin_pct cfg <= 86.

(** The [n]-th automatic offer on a session that has made [n - 1] offers
    and currently stands at [cur]. *)
Lemma get_next_offer_first now p s :
  config s = cfg -> counter s = 0%Z -> max_counters s = 3%Z ->
  get_next_offer now p s =
  ({| config := cfg; counter := 1; max_counters := 3;
      current_discount_pct := Fin 8;
      offers := offers s ++
                [{| offer_counter := 1; offer_discount_pct := Fin 8;
                    offer_margin_pct := Fin (100 - 8); offer_timestamp := now |}];
      started_at := started_at s |},
   Success {| ok_discount_pct := Fin 8; ok_margin_pct := Fin (100 - 8);
              ok_counter := 1; ok_remaining_counters := 2;
              ok_trait_bonus_applied := false;
              ok_base_discount_pct := None; ok_trait_bonus_pct := None |}).
Proof.
  intros Hc Hk Hm. rewrite get_next_offer_unfold.
  rewrite Hk, Hc, Hfirst, Hmax. simpl (0 =? 0)%Z. cbv iota.
  change (fmin (Fin 8) (Fin 20)) with (Fin 8).
  rewrite make_offer_accepted; rewrite ?Hc, ?Hk, ?Hm, ?Hmax;
    try lia; try (float_props; lra).
  reflexivity.
Qed.

Lemma get_next_offer_later now p s cur :
  config s = cfg -> (0 < counter s < 3)%Z -> max_counters s = 3%Z ->
  current_discount_pct s = Fin cur ->
  p = None \/ p = Some (Fin cur) ->
  cur <= 11 ->
  get_next_offer now p s =
  ({| config := cfg; counter := (counter s + 1)%Z; max_counters := 3;
      current_discount_pct := Fin (cur + 3);
      offers := offers s ++
                [{| offer_counter := (counter s + 1)%Z;
                    offer_discount_pct := Fin (cur + 3);
                    offer_margin_pct := Fin (100 - (cur + 3));
                    offer_timestamp := now |}];
      started_at := started_at s |},
   Success {| ok_discount_pct := Fin (cur + 3);
              ok_margin_pct := Fin (100 - (cur + 3));
              ok_counter := (counter s + 1)%Z;
              ok_remaining_counters := (3 - (counter s + 1))%Z;
              ok_trait_bonus_applied := false;
              ok_base_discount_pct := None; ok_trait_bonus_pct := None |}).
Proof.
  intros Hc Hk Hm Ecur Hp Hcur. rewrite get_next_offer_unfold.
  destruct (counter s =? 0)%Z eqn:E; [apply Z.eqb_eq in E; lia |].
  assert (fadd (default (current_discount_pct s) p)
               (Fin (counter_step_pct (config s))) = Fin (cur + 3)) as ->.
  { rewrite Hc, Hstep, Ecur. destruct Hp as [-> | ->]; reflexivity. }
  assert (fmin (Fin (cur + 3)) (Fin (max_discount_pct (config s)))
          = Fin (cur + 3)) as ->.
  { unfold fmin. rewrite Hc, Hmax, fltb_Fin.
    destruct (Qltb 20 (cur + 3)) eqn:B; [| reflexivity].
    apply Qltb_lt in B. exfalso. lra. }
  rewrite make_offer_accepted; rewrite ?Hc, ?Hm, ?Hmax;
    try lia; try (float_props; lra).
  reflexivity.
Qed.

(** [make_discount_offer] without a requested discount and without bonus
    is [get_next_offer] on the session's state. *)
Lemma make_discount_offer_auto now sid (ps : PricingService) :
  make_discount_offer now sid None (Fin 0) ps =
  (let n := default (new_negotiation (ps_config ps) now)
                    (negotiations ps !! sid) in
   let previous := match offers n with
                   | [] => None
                   | _ => Some (current_discount_pct n)
                   end in
   ({| ps_config := ps_config ps;
       negotiations :=
         <[sid := fst (get_next_offer now previous n)]> (negotiations ps) |},
    snd (get_next_offer now previous n))).
Proof.
  unfold make_discount_offer, get_negotiation.
  destruct (negotiations ps !! sid) as [n |]; simpl;
    rewrite apply_trait_bonus_zero; unfold base_offer.
  - destruct (get_next_offer _ _ _). reflexivity.
  - simpl. destruct (get_next_offer _ _ _). simpl.
    rewrite insert_insert_eq. reflexivity.
Qed.

(** C7.  With [first_offer_pct = 8], [counter_step_pct = 3],
    [max_discount_pct = 20] and a floor margin of at most 86, three
    successive automatic offers on a fresh session succeed with discounts
    8, 11 and 14, both through [NegotiationState.get_next_offer] and
    through [PricingService.make_discount_offer] without bonus. *)
Theorem auto_escalation_sequence now0 now1 now2 now3 sid :
  (let s0 := new_negotiation cfg now0 in
   let s1 := fst (get_next_offer now1 None s0) in
   let s2 := fst (get_next_offer now2 None s1) in
   let s3 := fst (get_next_offer now3 None s2) in
   (exists r1 r2 r3,
      snd (get_next_offer now1 None s0) = Success r1 /\
      ok_discount_pct r1 = Fin 8 /\
      snd (get_next_offer now2 None s1) = Success r2 /\
      ok_discount_pct r2 = Fin 11 /\
      snd (get_next_offer now3 None s2) = Success r3 /\
      ok_discount_pct r3 = Fin 14) /\
   map offer_discount_pct (offers s3) = [Fin 8; Fin 11; Fin 14]) /\
  (let ps0 := new_pricing_service cfg in
   let ps1 := fst (make_discount_offer now1 sid None (Fin 0) ps0) in
   let ps2 := fst (make_discount_offer now2 sid None (Fin 0) ps1) in
   exists r1 r2 r3,
     snd (make_discount_offer now1 sid None (Fin 0) ps0) = Success r1 /\
     ok_discount_pct r1 = Fin 8 /\
     snd (make_discount_offer now2 sid None (Fin 0) ps1) = Success r2 /\
     ok_discount_pct r2 = Fin 11 /\
     snd (make_discount_offer now3 sid None (Fin 0) ps2) = Success r3 /\
     ok_discount_pct r3 = Fin 14).
Proof.
  split.
  - cbv zeta.
    rewrite (get_next_offer_first now1 None (new_negotiation cfg now0))
      by reflexivity.
    simpl fst. simpl snd.
    rewrite (get_next_offer_later now2 None _ 8)
      by (simpl; first [reflexivity | lia | lra | left; reflexivity]).
    simpl fst. simpl snd.
    rewrite (get_next_offer_later now3 None _ (8 + 3))
      by (simpl; first [reflexivity | lia | lra | left; reflexivity]).
    simpl. split; [| reflexivity].
    do 3 eexists. repeat split; reflexivity.
  - cbv zeta. rewrite !make_discount_offer_auto. simpl.
    rewrite lookup_empty. simpl.
    rewrite (get_next_offer_first now1 None (new_negotiation cfg now1))
      by reflexivity.
    simpl. rewrite lookup_insert_eq. simpl.
    rewrite (get_next_offer_later now2 (Some (Fin 8)) _ 8)
      by (simpl; first [reflexivity | lia | lra | right; reflexivity]).
    simpl. rewrite lookup_insert_eq. simpl.
    rewrite (get_next_offer_later now3 (Some (Fin (8 + 3))) _ (8 + 3))
      by (simpl; first [reflexivity | lia | lra | right; reflexivity]).
    simpl. do 3 eexists. repeat split; reflexivity.
Qed.
End AutoEscalation.

Lemma auto_escalation_sequence_witness :
  map offer_discount_pct
    (offers (fst (get_next_offer 3 None
               (fst (get_next_offer 2 None
                  (fst (get_next_offer 1 None
                     (new_negotiation default_config 0)))))))) = [Fin 8; Fin 11; Fin 14].
Proof.
  assert (Hfloor : floor_margin_pct default_config <= 86)
    by (vm_compute; discriminate).
  exact (proj2 (proj1 (auto_escalation_sequence default_config
                         eq_refl eq_refl eq_refl Hfloor 0 1 2 3 EmptyString))).
Defined.

(** ** agent_router.py: the classifier *)

Lemma first_success_is_Some {A B} (k : A -> option B) (l : list A) :
  is_Some (first_success k l) <-> Exists (fun x => is_Some (k x)) l.
Proof.
  induction l as [| x l IH]; simpl.
  - split; [intros [? [=]] | intros H; inversion H].
  - destruct (k x) as [y |] eqn:E.
    + split; [intros _; left; rewrite E; eauto | eauto].
    + rewrite IH. split; [intros H; right; exact H |].
      intros H. inversion H as [? ? [? Hx] | ? ? Hl]; subst; [congruence | exact Hl].
Qed.

Lemma first_match_family patterns text :
  family_matches patterns text = true <-> is_Some (first_match patterns text).
Proof.
  unfold family_matches, first_match.
  rewrite first_success_is_Some, existsb_exists, Exists_exists.
  split; intros (x & Hin & Hx); exists x.
  - apply bool_decide_eq_true in Hx. split; [apply list_elem_of_In |]; assumption.
  - split; [apply list_elem_of_In | apply bool_decide_eq_true]; assumption.
Qed.

Lemma first_match_no_family patterns text :
  family_matches patterns text = false <-> first_match patterns text = None.
Proof.
  rewrite <- not_true_iff_false, first_match_family.
  rewrite <- eq_None_not_Some. reflexivity.
Qed.

(** C5.  The classifier tries the directory-lookup (LinkedIn) patterns
    first and the verification (Brave) patterns next, then the general
    assertion patterns; the first family with a matching pattern decides the
    result, with the fixed confidence 0.7, 0.6 or 0.5; without any match the
    result is [needed: False].  ["I work at Acme Corp"] is a directory
    lookup with company ["acme corp"], and ["According to a recent report, X
    is true"] is a verification with confidence 0.6. *)
Theorem detect_family_order :
  (forall user_message context,
     let text := lower user_message in
     let d := detect_fact_check_needed user_message context in
     (family_matches linkedin_patterns text = true ->
      needed d = true /\ agent_type d = Some "linkedin"%string /\
      confidence d = 0.7 /\
      extracted_info d = Some (_extract_linkedin_info user_message)) /\
     (family_matches linkedin_patterns text = false ->
      family_matches brave_patterns text = true ->
      needed d = true /\ agent_type d = Some "brave"%string /\
      confidence d = 0.6 /\ query d = Some user_message) /\
     (family_matches linkedin_patterns text = false ->
      family_matches brave_patterns text = false ->
      family_matches fact_check_patterns text = true ->
      needed d = true /\ agent_type d = Some "brave"%string /\
      confidence d = 0.5 /\ query d = Some user_message) /\
     (family_matches linkedin_patterns text = false ->
      family_matches brave_patterns text = false ->
      family_matches fact_check_patterns text = false ->
      d = {| needed := false; agent_type := None; query := None;
             confidence := 0.0; extracted_info := None; claim := None |})) /\
  (forall context,
     let d := detect_fact_check_needed "I work at Acme Corp" context in
     needed d = true /\ agent_type d = Some "linkedin"%string /\
     confidence d = 0.7 /\
     info_company <$> extracted_info d = Some (Some "acme corp"%string)) /\
  (forall context,
     let d := detect_fact_check_needed
                "According to a recent report, X is true" context in
     needed d = true /\ agent_type d = Some "brave"%string /\
     confidence d = 0.6).
Proof.
  split; [| split].
  - intros user_message context text d. subst d text.
    unfold detect_fact_check_needed.
    repeat split; intros;
      repeat match goal with
             | H : family_matches _ _ = true |- _ =>
                 apply first_match_family in H; destruct H as [? H]; rewrite H
             | H : family_matches _ _ = false |- _ =>
                 apply first_match_no_family in H; rewrite H
             end; reflexivity.
  - intros context. vm_compute. repeat split.
  - intros context. vm_compute. repeat split.
Qed.

Lemma detect_family_order_witness :
  let d := detect_fact_check_needed "I'm a doctor" "" in
  needed d = true /\ agent_type d = Some "brave"%string /\
  confidence d = 0.5 /\ query d = Some "I'm a doctor"%string.
Proof.
  apply (proj1 (proj2 (proj2 (proj1 detect_family_order "I'm a doctor"%string
                                      ""%string))));
    vm_compute; reflexivity.
Defined.

(** The classifier only produces the two bound agent types, and only with
    the three fixed confidences. *)
Lemma detect_shapes user_message context :
  let d := detect_fact_check_needed user_message context in
  (needed d = false /\ agent_type d = None /\ confidence d = 0.0) \/
  (needed d = true /\ agent_type d = Some "linkedin"%string /\ confidence d = 0.7) \/
  (needed d = true /\ agent_type d = Some "brave"%string /\
   (confidence d = 0.6 \/ confidence d = 0.5)).
Proof.
  unfold detect_fact_check_needed.
  destruct (first_match linkedin_patterns _); [right; left; auto |].
  destruct (first_match brave_patterns _); [right; right; auto |].
  destruct (first_match fact_check_patterns _); [right; right; auto |].
  left. auto.
Qed.

(** ** agent_router.py: the consent gate *)

Lemma should_ask_consent_true router d :
  should_ask_consent router d = true <->
  needed d = true /\ 0.5 <= confidence d /\
  (agent_type d = Some "brave"%string -> is_Some (brave_agent router)) /\
  (agent_type d = Some "linkedin"%string -> is_Some (linkedin_agent router)).
Proof.
  unfold should_ask_consent.
  destruct (needed d); simpl; [| split; [discriminate | intros [[=] _]]].
  repeat case_bool_decide; simpl; rewrite ?Qle_bool_iff;
    split; try discriminate; try tauto; try congruence.
  all: intros (_ & _ & Hb & Hl); exfalso; auto.
Qed.

Lemma capability_available_typed router d :
  agent_type d = Some "brave"%string \/ agent_type d = Some "linkedin"%string ->
  (capability_available router (agent_type d) = true <->
   (agent_type d = Some "brave"%string -> is_Some (brave_agent router)) /\
   (agent_type d = Some "linkedin"%string -> is_Some (linkedin_agent router))).
Proof.
  unfold capability_available. intros [H | H]; rewrite H;
    rewrite orb_true_iff, !bool_decide_eq_true; split.
  - intros [[_ Hb] | [[=] _]]. split; [auto | discriminate].
  - intros [Hb _]. left. auto.
  - intros [[[=] _] | [_ Hl]]. split; [discriminate | auto].
  - intros [_ Hl]. right. auto.
Qed.

Lemma should_ask_consent_typed router d :
  agent_type d = Some "brave"%string \/ agent_type d = Some "linkedin"%string ->
  (should_ask_consent router d = true <->
   needed d = true /\ 0.5 <= confidence d /\
   capability_available router (agent_type d) = true).
Proof.
  intros Ht. rewrite should_ask_consent_true.
  rewrite (capability_available_typed router d Ht). tauto.
Qed.

(** The gate on the two agent types it knows, [brave] and [linkedin], the
    only ones the classifier produces: it is true exactly when the detection
    is needed, its confidence is at least 0.5 and the capability for the
    agent type is available; it is false whenever the confidence is below
    0.5. *)
Lemma should_ask_consent_known_types router d :
  (should_ask_consent router d = true <->
   needed d = true /\ 0.5 <= confidence d /\
   (agent_type d = Some "brave"%string -> is_Some (brave_agent router)) /\
   (agent_type d = Some "linkedin"%string -> is_Some (linkedin_agent router))) /\
  (agent_type d = Some "brave"%string \/ agent_type d = Some "linkedin"%string ->
   (should_ask_consent router d = true <->
    needed d = true /\ 0.5 <= confidence d /\
    capability_available router (agent_type d) = true)) /\
  (confidence d < 0.5 -> should_ask_consent router d = false) /\
  (agent_type d = Some "brave"%string \/ agent_type d = Some "linkedin"%string ->
   capability_available router (agent_type d) = false ->
   should_ask_consent router d = false).
Proof.
  split; [apply should_ask_consent_true |].
  split; [| split].
  - apply should_ask_consent_typed.
  - intros Hlt. apply not_true_iff_false. rewrite should_ask_consent_true.
    intros (_ & Hle & _). lra.
  - intros Ht Hcap. apply not_true_iff_false. rewrite should_ask_consent_true.
    intros (_ & _ & Hb & Hl).
    apply not_true_iff_false in Hcap. apply Hcap.
    apply (capability_available_typed router d Ht). split; assumption.
Qed.

(** C6 (defect).  [should_ask_consent] tests the availability of the agent
    only for the literal agent types [brave] and [linkedin].  At a needed
    detection of confidence 0.9 that carries no agent type, on a router
    without any agent, it answers [True] although no capability is
    available for the detection: [execute_fact_check], asked to run the
    same detection, answers "not available or not configured".  So the
    equivalence of the claim fails at this input. *)
Theorem should_ask_consent_unchecked_agent_type :
  should_ask_consent unconfigured_router untyped_detection = true /\
  needed untyped_detection = true /\
  0.5 <= confidence untyped_detection /\
  capability_available unconfigured_router (agent_type untyped_detection) = false /\
  execute_fact_check unconfigured_router (agent_type untyped_detection)
    (query untyped_detection) (extracted_info untyped_detection)
  = {| fc_success := false; fc_summary := None;
       fc_error := Some "Agent type 'None' not available or not configured"%string |} /\
  ~ (should_ask_consent unconfigured_router untyped_detection = true <->
     needed untyped_detection = true /\ 0.5 <= confidence untyped_detection /\
     capability_available unconfigured_router (agent_type untyped_detection) = true).
Proof.
  split_and!; try reflexivity.
  - vm_compute. discriminate.
  - intros [H _]. destruct (H eq_refl) as (_ & _ & Hcap).
    vm_compute in Hcap. discriminate.
Qed.

(** C10.  Every detection of the classifier is either [needed: False] with
    confidence 0.0, or needed with confidence 0.5, 0.6 or 0.7; so a needed
    detection never has a confidence below 0.5, and the gate refuses a
    detection of the classifier only when it is not needed or when the
    capability for its agent type is not available. *)
Theorem detect_confidence_never_suppresses user_message context router :
  let d := detect_fact_check_needed user_message context in
  ((needed d = false /\ confidence d = 0.0) \/
   (needed d = true /\
    (confidence d = 0.5 \/ confidence d = 0.6 \/ confidence d = 0.7))) /\
  (needed d = true -> 0.5 <= confidence d) /\
  (should_ask_consent router d = false ->
   needed d = false \/ capability_available router (agent_type d) = false) /\
  (should_ask_consent router d = true <->
   needed d = true /\ capability_available router (agent_type d) = true).
Proof.
  intros d.
  pose proof (detect_shapes user_message context) as Hs. fold d in Hs.
  pose proof (should_ask_consent_typed router d) as Htyped.
  assert (Hconf : needed d = true -> 0.5 <= confidence d).
  { destruct Hs as [(Hn & _) | [(_ & _ & ->) | (_ & _ & [-> | ->])]];
      intros H; [congruence | lra ..]. }
  assert (Hty : needed d = true ->
                agent_type d = Some "brave"%string \/
                agent_type d = Some "linkedin"%string).
  { destruct Hs as [(Hn & _) | [(_ & Ha & _) | (_ & Ha & _)]];
      intros H; [congruence | right; exact Ha | left; exact Ha]. }
  assert (Hiff : should_ask_consent router d = true <->
                 needed d = true /\
                 capability_available router (agent_type d) = true).
  { split.
    - intros H. assert (Hn : needed d = true).
      { unfold should_ask_consent in H. destruct (needed d); [reflexivity | discriminate]. }
      apply (Htyped (Hty Hn)) in H. tauto.
    - intros [Hn Hc]. apply (Htyped (Hty Hn)). auto. }
  split; [| split; [exact Hconf | split; [| exact Hiff]]].
  - destruct Hs as [(Hn & _ & Hc) | [(Hn & _ & Hc) | (Hn & _ & [Hc | Hc])]]; auto.
  - intros Hf. destruct (needed d) eqn:Hn; [| left; reflexivity].
    right. apply not_true_iff_false. intros Hc.
    apply not_true_iff_false in Hf. apply Hf, Hiff. auto.
Qed.

(** ** trait_detector.py *)

Lemma lower_ascii_idempotent c : lower_ascii (lower_ascii c) = lower_ascii c.
Proof. destruct c as [[] [] [] [] [] [] [] []]; reflexivity. Qed.


Lemma insert_by_confidence_perm x l :
  Permutation (insert_by_confidence x l) (x :: l).
Proof.
  induction l as [| y l IH]; simpl; [reflexivity |].
  destruct (Qltb (trait_confidence x) (trait_confidence y)); [| reflexivity].
  rewrite IH. apply perm_swap.
Qed.



Lemma sort_by_confidence_perm l : Permutation (sort_by_confidence l) l.
Proof.
  induction l as [| x l IH]; simpl; [reflexivity |].
  rewrite insert_by_confidence_perm, IH. reflexivity.
Qed.



Lemma count_matches_le keywords text : (count_matches keywords text <= length keywords)%nat.
Proof. unfold count_matches. apply List.filter_length_le. Qed.

Lemma keyword_confidence_bounds m total :
  (0 < m <= total)%nat ->
  0 < keyword_confidence m total /\ keyword_confidence m total <= 1.
Proof.
  intros [Hm Ht]. unfold keyword_confidence.
  split; [| apply pymin_le_r].
  assert (0 < inject_Z (Z.of_nat m)) by (change 0 with (inject_Z 0); rewrite <- Zlt_Qlt; lia).
  assert (0 < inject_Z (Z.of_nat total)) by (change 0 with (inject_Z 0); rewrite <- Zlt_Qlt; lia).
  assert (0 < inject_Z (Z.of_nat m) / inject_Z (Z.of_nat total))
    by (apply Qlt_shift_div_l; [assumption | lra]).
  unfold pymin. destruct (Qltb _ _); lra.
Qed.

Lemma detect_trait_Some text entry d :
  detect_trait text entry = Some d <->
  (0 < count_matches (snd entry) text)%nat /\
  d = {| trait := fst entry;
         trait_confidence := keyword_confidence (count_matches (snd entry) text)
                               (length (snd entry));
         matches := count_matches (snd entry) text |}.
Proof.
  unfold detect_trait.
  destruct (0 <? count_matches (snd entry) text)%nat eqn:E.
  - apply Nat.ltb_lt in E. split; [intros [= <-]; auto | intros [_ ->]; reflexivity].
  - apply Nat.ltb_ge in E. split; [discriminate | intros [H _]; lia].
Qed.

(** *** Substrings and case *)




Lemma lower_app a b : lower (a +:+ b) = lower a +:+ lower b.
Proof. induction a as [| c a IH]; simpl; [reflexivity | rewrite IH; reflexivity]. Qed.







Lemma match_count_unique text keywords m m' :
  match_count text keywords m -> match_count text keywords m' -> m = m'.
Proof.
  intros H. revert m'. induction H; intros m' H'; inversion H'; subst;
    try reflexivity; try contradiction; auto.
Qed.



Lemma catalog_detections_unique text catalog l l' :
  catalog_detections text catalog l -> catalog_detections text catalog l' -> l = l'.
Proof.
  intros H. revert l'. induction H as [| ? ? ? ? ? Hm Hpos _ IH | ? ? ? ? Hm _ IH];
    intros l' H'; inversion H' as [| ? ? ? ? ? Hm' Hpos' Hr | ? ? ? ? Hm' Hr]; subst.
  - reflexivity.
  - rewrite (match_count_unique _ _ _ _ Hm Hm'), (IH _ Hr). reflexivity.
  - pose proof (match_count_unique _ _ _ _ Hm Hm'). lia.
  - pose proof (match_count_unique _ _ _ _ Hm Hm'). lia.
  - apply IH, Hr.
Qed.





(** ** discount_service.py *)







(** ** bouncer.py: the consent turn *)

Section ConsentTurn.
Variable str_of_number : Number -> string.

Lemma chat_pending env a user_message d :
  pending_fact_check a = Some d ->
  chat str_of_number env a user_message = _handle_consent_response a user_message.
Proof.
  intros H. unfold chat, _is_consent_response. rewrite H.
  rewrite !bool_decide_eq_true_2 by eauto. reflexivity.
Qed.

(** C4 (amended).  While a detection is pending, [chat] is
    [_handle_consent_response]: no user message is recorded, no trait
    detection or pricing runs.  If the lowercased, trimmed message is one
    of the affirmative words, exactly one dispatch is made, that of the
    pending detection; the turn raises exactly when the model call that
    follows raises, and when it returns, the pending detection is cleared
    and the session is [IDLE].  For any other message no dispatch is made,
    the polite refusal is returned, the pending detection is cleared and
    the session is [IDLE].  After the turn the pending slot is empty or
    still holds the same detection, never a new one. *)
Theorem consent_turn env a user_message d :
  pending_fact_check a = Some d ->
  let t := chat str_of_number env a user_message in
  let informed := append_message System (fact_check_note (agent_router a) d) a in
  t = _handle_consent_response a user_message /\
  discount_service (turn_agent t) = discount_service a /\
  trait_detector (turn_agent t) = trait_detector a /\
  last_discount_code (turn_agent t) = last_discount_code a /\
  (exists added, conversation_history (turn_agent t)
                 = conversation_history a ++ added /\
                 Forall (fun m => role m <> User) added) /\
  (pending_fact_check (turn_agent t) = None \/
   pending_fact_check (turn_agent t) = Some d) /\
  (consent_given user_message = true ->
   turn_dispatches t = [dispatch_of d] /\
   (turn_outcome t = Raised <-> _get_llm_response informed = None) /\
   (forall response,
      _get_llm_response informed = Some response ->
      turn_outcome t = Replied response None /\
      pending_fact_check (turn_agent t) = None /\
      session_state (turn_agent t) = IDLE)) /\
  (consent_given user_message = false ->
   turn_dispatches t = [] /\
   turn_outcome t = Replied declined_reply None /\
   pending_fact_check (turn_agent t) = None /\
   session_state (turn_agent t) = IDLE).
Proof.
  intros H t informed. subst t informed.
  rewrite (chat_pending env a user_message d H).
  split; [reflexivity |].
  unfold _handle_consent_response. rewrite H.
  fold (fact_check_note (agent_router a) d).
  assert (Hnouser : forall l : list Message,
            Forall (fun m => role m <> User) l ->
            exists added, conversation_history a ++ l
                          = conversation_history a ++ added /\
                          Forall (fun m => role m <> User) added)
    by (intros l Hl; exists l; split; [reflexivity | exact Hl]).
  destruct (consent_given user_message) eqn:Hc.
  - destruct (_get_llm_response
                (append_message System (fact_check_note (agent_router a) d) a))
      as [response |] eqn:Hr; simpl.
    + split; [reflexivity |]. split; [reflexivity |]. split; [reflexivity |].
      split; [rewrite <- app_assoc; apply Hnouser;
              repeat constructor; discriminate |].
      split; [left; reflexivity |].
      split; [| discriminate].
      intros _. split; [reflexivity |].
      split; [split; discriminate |].
      intros r [= <-]. repeat split.
    + split; [reflexivity |]. split; [reflexivity |]. split; [reflexivity |].
      split; [apply Hnouser; repeat constructor; discriminate |].
      split; [right; exact H |].
      split; [| discriminate].
      intros _. split; [reflexivity |].
      split; [split; reflexivity |].
      discriminate.
  - simpl.
    split; [reflexivity |]. split; [reflexivity |]. split; [reflexivity |].
    split; [apply Hnouser; repeat constructor; discriminate |].
    split; [left; reflexivity |].
    split; [discriminate |].
    intros _. repeat split.
Qed.
End ConsentTurn.

Lemma consent_turn_witness :
  let t := chat plain_numbers example_env (awaiting_agent replying_client) " YES " in
  turn_dispatches t = [dispatch_of pending_detection] /\
  turn_outcome t = Replied "Fine." None /\
  session_state (turn_agent t) = IDLE.
Proof.
  pose proof (consent_turn plain_numbers example_env
                (awaiting_agent replying_client) " YES "%string
                pending_detection eq_refl) as H.
  destruct H as (_ & _ & _ & _ & _ & _ & Hyes & _).
  destruct (Hyes eq_refl) as (Hd & _ & Hreply).
  destruct (Hreply "Fine."%string eq_refl) as (Ho & _ & Hs).
  split; [exact Hd | split; [exact Ho | exact Hs]].
Defined.

(** C4, as stated, fails: when the model call after the dispatch raises, the
    dispatch has been made but the detection stays pending, so the session
    is still [AWAITING_CONSENT]. *)
Lemma model_failure_counterexample : ~ spec_consent_turn.
Proof.
  intros H.
  destruct (H plain_numbers example_env (awaiting_agent failing_client)
              "yes"%string pending_detection eq_refl) as [_ Hs].
  vm_compute in Hs. discriminate Hs.
Qed.

(** * Further properties *)

(** ** pricing_service.py *)

Lemma run_call_offer_counter c s s' r :
  run_call c s = (s', Success r) ->
  exists o, offers s' = offers s ++ [o] /\
            offer_counter o = (counter s + 1)%Z /\
            ok_counter r = (counter s + 1)%Z /\
            ok_remaining_counters r = (max_counters s - (counter s + 1))%Z /\
            started_at s' = started_at s.
Proof.
  destruct c as [now d | now p | now d bonus]; simpl.
  - intros H. apply make_offer_success in H as (_ & _ & _ & -> & ->).
    eexists. simpl. repeat split.
  - unfold get_next_offer. intros H.
    apply make_offer_success in H as (_ & _ & _ & -> & ->).
    eexists. simpl. repeat split.
  - destruct (base_offer now d s) as [n1 [b | e1]] eqn:E; [| discriminate].
    apply base_offer_success in E as (d' & Hm & _).
    apply make_offer_success in Hm as (_ & _ & _ & -> & ->).
    unfold apply_trait_bonus. simpl.
    repeat match goal with
           | |- context [if ?c then _ else _] => destruct c
           end;
      intros [= <- <-]; simpl; try rewrite amend_last_offer_snoc;
      eexists; simpl; repeat split.
Qed.

(** X1.  [get_next_offer] clamps its candidate to the ceiling, so it never
    fails with the ceiling error, whatever floats it is given: it can only
    fail because the counters are used up or because the floor margin would
    be violated.  A successful automatic offer is at most
    [max_discount_pct] with a margin of at least [floor_margin_pct] when it
    is the first offer or starts from a discount that is not NaN; when it
    starts from NaN ([previous_discount], or the current discount if none is
    passed), the offer that is made and stored is NaN, because
    [min(nan, max)] is [nan] and [make_offer] rejects no NaN. *)
Theorem get_next_offer_never_exceeds now previous s :
  (forall e, snd (get_next_offer now previous s) = Failure e ->
     e = MaxCountersReached (max_counters s) /\ (max_counters s <= counter s)%Z \/
     exists d, e = BelowFloor d (fsub (Fin 100) d) (floor_margin_pct (config s)) /\
               fle d (Fin (max_discount_pct (config s))) /\
               flt (fsub (Fin 100) d) (Fin (floor_margin_pct (config s)))) /\
  (forall r, snd (get_next_offer now previous s) = Success r ->
     (counter s = 0%Z \/ default (current_discount_pct s) previous <> NaN ->
      fle (ok_discount_pct r) (Fin (max_discount_pct (config s))) /\
      fle (Fin (floor_margin_pct (config s)))
          (fsub (Fin 100) (ok_discount_pct r))) /\
     (counter s <> 0%Z -> default (current_discount_pct s) previous = NaN ->
      ok_discount_pct r = NaN /\ current_discount_pct
                                   (fst (get_next_offer now previous s)) = NaN)).
Proof.
  rewrite get_next_offer_unfold.
  set (x := if (counter s =? 0)%Z then Fin (first_offer_pct (config s))
            else fadd (default (current_discount_pct s) previous)
                      (Fin (counter_step_pct (config s)))).
  assert (Hx : counter s = 0%Z \/ default (current_discount_pct s) previous <> NaN ->
               x <> NaN).
  { subst x. intros [-> | H]; [discriminate |].
    destruct (counter s =? 0)%Z; [discriminate |]. apply fadd_Fin_not_nan, H. }
  assert (Hnan : counter s <> 0%Z ->
                 default (current_discount_pct s) previous = NaN ->
                 fmin x (Fin (max_discount_pct (config s))) = NaN).
  { subst x. intros Hk ->. apply Z.eqb_neq in Hk. rewrite Hk. reflexivity. }
  assert (Hno : fltb (Fin (max_discount_pct (config s)))
                  (fmin x (Fin (max_discount_pct (config s)))) = false).
  { destruct x as [q | | |]; unfold fmin;
      cbv beta iota delta [fltb]; try reflexivity.
    - destruct (Qltb (max_discount_pct (config s)) q) eqn:E; float_props; lra.
    - float_props. lra. }
  clearbody x. split.
  - intros e. make_offer_cases E1 E2 E3; simpl; intros [= <-].
    + congruence.
    + left. split; [reflexivity | exact E2].
    + right. eexists. split; [reflexivity |]. split; [| exact E3].
      apply fltb_false_fle; [exact E1 | discriminate |].
      apply fltb_not_nan in E3 as [E3 _]. intros Hd. rewrite Hd in E3.
      apply E3. reflexivity.
  - intros r. make_offer_cases E1 E2 E3; simpl; intros [= <-]; simpl. split.
    + intros H. apply checks_give_limits; try assumption.
      apply fmin_not_nan; [auto | discriminate].
    + intros Hk Hd. split; apply Hnan; assumption.
Qed.

Lemma get_next_offer_never_exceeds_witness :
  exists r,
    snd (get_next_offer 2 None first_offer_state) = Success r /\
    fle (ok_discount_pct r) (Fin 20) /\
    fle (Fin 18) (fsub (Fin 100) (ok_discount_pct r)).
Proof.
  eexists. split; [reflexivity |].
  apply (proj1 (proj2 (get_next_offer_never_exceeds 2 None first_offer_state)
                  _ eq_refl)).
  right. discriminate.
Defined.

Lemma run_calls_app cs1 cs2 s :
  run_calls (cs1 ++ cs2) s = run_calls cs2 (run_calls cs1 s).
Proof. unfold run_calls. apply fold_left_app. Qed.

Lemma run_call_counter_successes c s :
  counter (fst (run_call c s)) =
  (counter s + Z.of_nat (successes [snd (run_call c s)]))%Z.
Proof.
  pose proof (run_call_counter c s) as H. unfold successes. simpl.
  destruct (is_success (snd (run_call c s))); simpl.
  - destruct H as (-> & _). lia.
  - rewrite H. lia.
Qed.

Lemma run_trace_counter cs s :
  counter (run_calls cs s) = (counter s + Z.of_nat (successes (run_trace cs s)))%Z.
Proof.
  revert s. induction cs as [| c cs IH]; intros s; simpl.
  - unfold successes. simpl. lia.
  - change (run_calls (c :: cs) s) with (run_calls cs (fst (run_call c s))).
    rewrite IH, run_call_counter_successes. unfold successes. simpl.
    destruct (is_success (snd (run_call c s))); simpl; lia.
Qed.

(** X2.  However many calls are made on a session, and whatever their
    arguments, at most three of them succeed: the number of successful
    calls is the final counter, which is also the number of stored offers
    and never exceeds 3. *)
Theorem at_most_three_successful_offers cfg now0 cs :
  let s := run_calls cs (new_negotiation cfg now0) in
  Z.of_nat (successes (run_trace cs (new_negotiation cfg now0))) = counter s /\
  successes (run_trace cs (new_negotiation cfg now0)) = length (offers s) /\
  (successes (run_trace cs (new_negotiation cfg now0)) <= 3)%nat.
Proof.
  intros s. subst s.
  pose proof (run_trace_counter cs (new_negotiation cfg now0)) as Hc.
  pose proof (run_calls_invariant cfg cs _ (new_negotiation_invariant cfg now0))
    as [_ Hm Hb Hl _ _].
  simpl in Hc. rewrite Hm in Hb. lia.
Qed.

Lemma run_call_prefix c s : offers s `prefix_of` offers (fst (run_call c s)).
Proof.
  destruct (run_call c s) as [s' [r | e]] eqn:E; simpl.
  - apply run_call_offer_counter in E as (o & -> & _). apply prefix_app_r. reflexivity.
  - apply run_call_failure in E. subst. reflexivity.
Qed.

(** X3.  The history is append-only across calls: whatever calls follow,
    the offers already stored stay where they are, unchanged.  The in-place
    amendment of the trait bonus only ever touches the offer appended by the
    same call. *)
Theorem history_append_only cs1 cs2 s :
  offers (run_calls cs1 s) `prefix_of` offers (run_calls (cs1 ++ cs2) s).
Proof.
  rewrite run_calls_app. generalize (run_calls cs1 s). clear s cs1.
  induction cs2 as [| c cs IH]; intros s; [reflexivity |].
  change (run_calls (c :: cs) s) with (run_calls cs (fst (run_call c s))).
  etransitivity; [apply run_call_prefix | apply IH].
Qed.

Lemma run_call_numbered c s :
  Z.of_nat (length (offers s)) = counter s ->
  (forall i o, offers s !! i = Some o -> offer_counter o = (Z.of_nat i + 1)%Z) ->
  Z.of_nat (length (offers (fst (run_call c s)))) = counter (fst (run_call c s)) /\
  (forall i o, offers (fst (run_call c s)) !! i = Some o ->
               offer_counter o = (Z.of_nat i + 1)%Z).
Proof.
  intros Hl Hn.
  destruct (run_call c s) as [s' [r | e]] eqn:E; simpl.
  - pose proof (run_call_counter c s) as Hc. rewrite E in Hc. simpl in Hc.
    destruct Hc as (Hk & Hlen & _).
    apply run_call_offer_counter in E as (o & Eo & Hoc & _).
    split; [lia |].
    intros i o'. rewrite Eo. intros Hi.
    apply lookup_app_Some in Hi as [Hi | [Hge Hi]]; [eauto |].
    destruct (i - length (offers s))%nat as [| k] eqn:Ek; [| destruct k; discriminate].
    simpl in Hi. injection Hi as <-. rewrite Hoc. lia.
  - apply run_call_failure in E. subst. auto.
Qed.

(** X4.  The offers of a session are numbered 1, 2, 3 in the order they
    were made: the offer at index [i] of the history carries [counter = i +
    1], whatever calls produced the history. *)
Theorem offers_numbered_in_order cfg now0 cs i o :
  offers (run_calls cs (new_negotiation cfg now0)) !! i = Some o ->
  offer_counter o = (Z.of_nat i + 1)%Z /\ (i < 3)%nat.
Proof.
  assert (Hgen : forall cs s,
            Z.of_nat (length (offers s)) = counter s ->
            (forall i o, offers s !! i = Some o ->
                         offer_counter o = (Z.of_nat i + 1)%Z) ->
            forall i o, offers (run_calls cs s) !! i = Some o ->
                        offer_counter o = (Z.of_nat i + 1)%Z).
  { clear. induction cs as [| c cs IH]; intros s Hl Hn; [exact Hn |].
    change (run_calls (c :: cs) s) with (run_calls cs (fst (run_call c s))).
    destruct (run_call_numbered c s Hl Hn). apply IH; assumption. }
  intros Hi. split.
  - apply (Hgen cs (new_negotiation cfg now0)); [reflexivity | | exact Hi].
    intros ? ? [=].
  - pose proof (run_calls_invariant cfg cs _ (new_negotiation_invariant cfg now0))
      as [_ Hm Hb Hl _ _].
    apply lookup_lt_Some in Hi. lia.
Qed.

Lemma offers_numbered_in_order_witness :
  exists o, offers exhausted_session !! 2%nat = Some o /\ offer_counter o = 3%Z.
Proof.
  eexists. split; [reflexivity |].
  exact (proj1 (offers_numbered_in_order default_config 0
                  three_automatic_offers 2 _ eq_refl)).
Defined.

Lemma call_automatic_not_nan c : call_automatic c -> call_not_nan c.
Proof.
  destruct c as [now d | now p | now d bonus]; simpl; intros H;
    [destruct H | subst; discriminate | subst; discriminate].
Qed.

Lemma run_call_ordered c s :
  session_invariant (config s) s ->
  no_nan s ->
  0 <= counter_step_pct (config s) ->
  call_automatic c ->
  ledger_ordered s -> ledger_ordered (fst (run_call c s)).
Proof.
  intros Hinv Hnan Hstep Hauto Hord.
  pose proof (run_call_no_nan c s (call_automatic_not_nan c Hauto) Hnan)
    as [Hnan' _].
  destruct (run_call c s) as [s' [r | e]] eqn:E; simpl in *;
    [| apply run_call_failure in E; subst; exact Hord].
  apply run_call_success in E
    as (now & d' & o & _ & _ & _ & _ & Eo & _ & _ & _ & _ & Hd & Hshape).
  assert (Ho : offer_discount_pct o <> NaN).
  { rewrite Eo in Hnan'. apply Forall_app in Hnan' as [_ Hnan'].
    inversion Hnan'; subst. assumption. }
  assert (Hd' : forall q, last (offers s) = Some q ->
                          fle (offer_discount_pct q) d').
  { intros q Hq.
    assert (Hcur : current_discount_pct s = offer_discount_pct q)
      by (apply (inv_current _ _ Hinv), Hq).
    assert (Hqn : offer_discount_pct q <> NaN).
    { rewrite <- Hcur. apply Hnan. }
    assert (Hmax : fle (offer_discount_pct q) (Fin (max_discount_pct (config s)))).
    { pose proof (inv_offers _ _ Hinv) as Hall.
      rewrite Forall_forall in Hall.
      apply last_Some in Hq as [l' Hq].
      apply (Hall q); [| exact Hqn].
      rewrite Hq. apply elem_of_app. right. apply list_elem_of_singleton. reflexivity. }
    assert (Hk : (counter s =? 0)%Z = false).
    { apply Z.eqb_neq. pose proof (inv_length _ _ Hinv) as Hl.
      apply last_Some in Hq as [l' Hq]. rewrite Hq, length_app in Hl. simpl in Hl. lia. }
    destruct Hshape as [-> | [(p & -> & ->) | (x & bonus & -> & _ & Hn)]].
    - destruct Hauto.
    - simpl in Hauto. subst p. rewrite Hk. simpl. rewrite Hcur.
      apply fmin_glb; [apply fadd_Fin_le; assumption | exact Hmax].
    - simpl in Hauto. subst x. rewrite (Hn eq_refl), Hk, Hcur.
      apply fmin_glb; [apply fadd_Fin_le; assumption | exact Hmax]. }
  assert (Hnew : forall q, last (offers s) = Some q ->
                           fle (offer_discount_pct q) (offer_discount_pct o)).
  { intros q Hq. specialize (Hd' q Hq).
    destruct Hd as [-> | Hd]; [exact Hd' |]. eapply fle_flt_trans; eassumption. }
  intros i j oi oj Hij. rewrite Eo. intros Hi Hj.
  apply lookup_app_Some in Hj as [Hj | [Hge Hj]].
  - assert (Hi' : offers s !! i = Some oi).
    { apply lookup_lt_Some in Hj. rewrite lookup_app_l in Hi by lia. exact Hi. }
    eapply Hord; eassumption.
  - destruct (j - length (offers s))%nat as [| k] eqn:Ek; [| destruct k; discriminate].
    simpl in Hj. injection Hj as <-.
    apply lookup_app_Some in Hi as [Hi | [Hge' Hi]].
    + destruct (last (offers s)) as [q |] eqn:Hq.
      * assert (fle (offer_discount_pct oi) (offer_discount_pct q)).
        { apply last_Some in Hq as Hq'. destruct Hq' as [l' Hq'].
          apply (Hord i (length l') oi q).
          - apply lookup_lt_Some in Hi. rewrite Hq', length_app in Hi. simpl in Hi. lia.
          - exact Hi.
          - rewrite Hq'. rewrite lookup_app_r by lia.
            replace (length l' - length l')%nat with 0%nat by lia. reflexivity. }
        eapply fle_trans; [eassumption | apply Hnew; reflexivity].
      * apply last_None in Hq. rewrite Hq in Hi. discriminate.
    + destruct (i - length (offers s))%nat as [| k]; [| destruct k; discriminate].
      simpl in Hi. injection Hi as <-. apply fle_refl, Ho.
Qed.

(** X5.  With a non-negative [counter_step_pct], a session that is driven
    only by automatic offers ([get_next_offer()] or [make_discount_offer]
    without a requested discount, with any trait bonus) never lowers its
    discount: the discounts of its history are in non-decreasing order. *)
Theorem automatic_offers_never_go_down cfg now0 cs :
  0 <= counter_step_pct cfg ->
  Forall call_automatic cs ->
  ledger_ordered (run_calls cs (new_negotiation cfg now0)).
Proof.
  intros Hstep Hcs.
  assert (Hgen : forall cs s,
            Forall call_automatic cs -> session_invariant cfg s -> no_nan s ->
            ledger_ordered s -> ledger_ordered (run_calls cs s)).
  { clear cs Hcs. induction cs as [| c cs IH]; intros s Hcs Hinv Hnan Hord;
      [exact Hord |].
    inversion Hcs; subst.
    change (run_calls (c :: cs) s) with (run_calls cs (fst (run_call c s))).
    apply IH; [assumption | apply run_call_invariant, Hinv | |].
    - apply run_call_no_nan; [apply call_automatic_not_nan |]; assumption.
    - apply run_call_ordered; try assumption;
        rewrite (inv_config _ _ Hinv); assumption. }
  apply Hgen; [exact Hcs | apply new_negotiation_invariant | |].
  - split; simpl; [constructor | discriminate].
  - intros i j oi oj _ [=].
Qed.

Lemma automatic_offers_never_go_down_witness : ledger_ordered exhausted_session.
Proof.
  apply (automatic_offers_never_go_down default_config 0 three_automatic_offers).
  - vm_compute. discriminate.
  - repeat constructor.
Defined.

(** X6.  Once the counters are used up the session is frozen: every further
    call of any kind fails and the session stays exactly as it is. *)
Theorem exhausted_session_is_frozen cs s :
  (max_counters s <= counter s)%Z ->
  run_calls cs s = s /\
  Forall (fun r => is_success r = false) (run_trace cs s).
Proof.
  intros Hk. induction cs as [| c cs [IH1 IH2]]; [split; [reflexivity | constructor] |].
  pose proof (run_call_counter c s) as Hc.
  destruct (is_success (snd (run_call c s))) eqn:E; [lia |].
  change (run_calls (c :: cs) s) with (run_calls cs (fst (run_call c s))).
  simpl. rewrite Hc. split; [exact IH1 | constructor; assumption].
Qed.

Lemma exhausted_session_is_frozen_witness :
  run_calls [CallMakeOffer 9 (Fin 1); CallDiscountOffer 10 None (Fin 5)]
    exhausted_session
  = exhausted_session.
Proof.
  apply (exhausted_session_is_frozen
           [CallMakeOffer 9 (Fin 1); CallDiscountOffer 10 None (Fin 5)]
           exhausted_session).
  vm_compute. discriminate.
Defined.

(** X7.  [can_continue] of the summary tells the truth: it is set exactly
    when some discount would still be accepted by [make_offer], and for a
    reachable session [remaining_counters] is [3 - counter], between 0 and
    3. *)
Theorem summary_can_continue cfg now0 cs now :
  let s := run_calls cs (new_negotiation cfg now0) in
  (sum_can_continue (get_summary s) = true <->
   exists d, is_success (snd (make_offer now d s)) = true) /\
  sum_remaining_counters (get_summary s) = (3 - sum_counter (get_summary s))%Z /\
  (0 <= sum_remaining_counters (get_summary s) <= 3)%Z /\
  (sum_can_continue (get_summary s) = true <->
   (0 < sum_remaining_counters (get_summary s))%Z).
Proof.
  intros s.
  pose proof (run_calls_invariant cfg cs _ (new_negotiation_invariant cfg now0))
    as [Hc Hm Hb Hl _ _].
  fold s in Hc, Hm, Hb, Hl. simpl. unfold can_make_counter.
  rewrite Z.ltb_lt. split; [| lia].
  split.
  - intros Hlt.
    exists (Fin (pymin (max_discount_pct (config s))
                       (100 - floor_margin_pct (config s)))).
    pose proof (pymin_le_l (max_discount_pct (config s))
                  (100 - floor_margin_pct (config s))).
    pose proof (pymin_le_r (max_discount_pct (config s))
                  (100 - floor_margin_pct (config s))).
    rewrite make_offer_accepted;
      [reflexivity | float_props; lra | lia | float_props; lra].
  - intros [d Hd].
    destruct (make_offer now d s) as [s' [r | e]] eqn:E; [| discriminate].
    apply make_offer_success in E as (_ & Hlt & _). exact Hlt.
Qed.

(** X8.  Sessions are isolated in the registry of [PricingService]: an
    offer for one session leaves every other session exactly as it was,
    keeps the configuration, and the addressed session exists afterwards. *)
Theorem make_discount_offer_isolated now sid d bonus (ps : PricingService) other :
  other <> sid ->
  negotiations (fst (make_discount_offer now sid d bonus ps)) !! other
  = negotiations ps !! other /\
  is_Some (negotiations (fst (make_discount_offer now sid d bonus ps)) !! sid) /\
  ps_config (fst (make_discount_offer now sid d bonus ps)) = ps_config ps.
Proof.
  intros Hne. rewrite make_discount_offer_run. simpl.
  rewrite lookup_insert_ne by congruence. rewrite lookup_insert_eq. eauto.
Qed.

Lemma make_discount_offer_isolated_witness :
  negotiations (fst (make_discount_offer 1 "alice" None (Fin 0)
                       (new_pricing_service default_config))) !! "bob"%string
  = None.
Proof.
  apply (make_discount_offer_isolated 1 "alice" None (Fin 0)
           (new_pricing_service default_config) "bob").
  discriminate.
Defined.

(** X9.  The two queries of [PricingService] answer from the stored session
    and leave the registry alone when the session exists; for an unknown
    session they register a fresh one as a side effect and report it: it can
    negotiate, its counter is 0, all three counters remain and its history
    is empty. *)
Theorem queries_create_missing_session now sid (ps : PricingService) :
  (forall n, negotiations ps !! sid = Some n ->
     get_negotiation_summary now sid ps = (ps, get_summary n) /\
     can_negotiate now sid ps = (ps, can_make_counter n)) /\
  (negotiations ps !! sid = None ->
   negotiations (fst (get_negotiation_summary now sid ps)) !! sid
   = Some (new_negotiation (ps_config ps) now) /\
   negotiations (fst (can_negotiate now sid ps)) !! sid
   = Some (new_negotiation (ps_config ps) now) /\
   snd (can_negotiate now sid ps) = true /\
   sum_counter (snd (get_negotiation_summary now sid ps)) = 0%Z /\
   sum_remaining_counters (snd (get_negotiation_summary now sid ps)) = 3%Z /\
   sum_offers (snd (get_negotiation_summary now sid ps)) = []) /\
  (forall other, other <> sid ->
     negotiations (fst (get_negotiation_summary now sid ps)) !! other
     = negotiations ps !! other /\
     negotiations (fst (can_negotiate now sid ps)) !! other
     = negotiations ps !! other).
Proof.
  unfold get_negotiation_summary, can_negotiate, get_negotiation.
  split; [| split].
  - intros n ->. split; reflexivity.
  - intros ->. simpl. rewrite lookup_insert_eq. repeat split.
  - intros other Hne. destruct (negotiations ps !! sid); simpl;
      rewrite ?lookup_insert_ne by congruence; split; reflexivity.
Qed.

Lemma queries_create_missing_session_witness :
  snd (can_negotiate 1 "alice" (new_pricing_service default_config)) = true.
Proof.
  apply (proj1 (proj2 (queries_create_missing_session 1 "alice"
                         (new_pricing_service default_config)))).
  reflexivity.
Defined.

(** X10.  The trait bonus never lowers an offer and never adds more than
    the bonus that was passed: after a successful [make_discount_offer] the
    returned discount is the base discount or strictly above it, lies
    between the base and base plus bonus, equals the base when the bonus is
    not positive, and is marked [trait_bonus_applied] exactly when it is
    strictly above the base; for an explicitly requested discount the base
    is that discount.  (The two bounds are comparisons of floats: they are
    stated where the base, respectively base plus bonus, is not NaN.) *)
Theorem trait_bonus_bounds now d bonus s s' r :
  run_call (CallDiscountOffer now d bonus) s = (s', Success r) ->
  let base := default (ok_discount_pct r) (ok_base_discount_pct r) in
  (ok_discount_pct r = base \/ flt base (ok_discount_pct r)) /\
  (base <> NaN -> fle base (ok_discount_pct r)) /\
  (fle (Fin 0) bonus -> fadd base bonus <> NaN ->
   fle (ok_discount_pct r) (fadd base bonus)) /\
  (fltb (Fin 0) bonus = false ->
   ok_discount_pct r = base /\ ok_trait_bonus_applied r = false) /\
  (ok_trait_bonus_applied r = true <-> flt base (ok_discount_pct r)) /\
  (forall x, d = Some x -> base = x) /\
  current_discount_pct s' = ok_discount_pct r.
Proof.
  simpl. destruct (base_offer now d s) as [n1 [b | e1]] eqn:E; [| discriminate].
  apply base_offer_success in E as (d' & Hm & Hd).
  apply make_offer_success in Hm as (_ & _ & _ & -> & ->).
  assert (Hup : fle (Fin 0) bonus -> fadd d' bonus <> NaN ->
                fle d' (fadd d' bonus)).
  { clear. destruct d', bonus; intros H1 H2; float_cases. }
  unfold apply_trait_bonus. simpl.
  destruct (fltb (Fin 0) bonus) eqn:B0;
    [destruct (fltb d' (fmin (fadd d' bonus) (Fin (max_discount_pct (config s)))))
       eqn:B1;
     [destruct (fleb (Fin (floor_margin_pct (config s)))
                  (fsub (Fin 100)
                     (fmin (fadd d' bonus) (Fin (max_discount_pct (config s))))))
        eqn:B2 |] |];
    intros [= <- <-]; simpl.
  1: { split_and!; auto.
       - intros _. apply fltb_fleb, B1.
       - intros _ Hn. apply fmin_le_l; [exact Hn | discriminate].
       - discriminate.
       - split; auto. }
  all: split_and!; auto;
    try (intros Hn; apply fle_refl, Hn);
    try discriminate;
    try (split; [discriminate | unfold flt; rewrite fltb_irrefl; discriminate]).
Qed.

Lemma trait_bonus_bounds_witness :
  exists s' r,
    run_call (CallDiscountOffer 1 (Some (Fin 10)) (Fin 4)) fresh_session
    = (s', Success r) /\
    fle (Fin 10) (ok_discount_pct r) /\
    fle (ok_discount_pct r) (fadd (Fin 10) (Fin 4)).
Proof.
  eexists. eexists. split; [reflexivity |].
  pose proof (trait_bonus_bounds 1 (Some (Fin 10)) (Fin 4) fresh_session _ _ eq_refl)
    as H.
  simpl in H. destruct H as (_ & H1 & H2 & _). split.
  - apply H1. discriminate.
  - apply H2; [reflexivity | discriminate].
Defined.

(** ** trait_detector.py *)

Lemma dict_get_elem_of {A} key (entries : list (string * A)) v :
  dict_get key entries = Some v -> (key, v) ∈ entries.
Proof.
  induction entries as [| [k x] rest IH]; simpl; [discriminate |].
  destruct (String.eqb k key) eqn:E.
  - apply String.eqb_eq in E. intros [= ->]. subst. apply list_elem_of_here.
  - intros H. apply list_elem_of_further, IH, H.
Qed.

Lemma trait_bonus_pct_nonneg cfg name :
  bonuses_nonneg cfg -> 0 <= trait_bonus_pct cfg name.
Proof.
  intros Hall. unfold trait_bonus_pct.
  destruct (dict_get name (cfg_valuable_traits cfg)) as [info |] eqn:E; [| lra].
  apply dict_get_elem_of in E.
  unfold bonuses_nonneg in Hall. rewrite Forall_forall in Hall.
  specialize (Hall _ E). simpl in Hall.
  destruct info as [kws [b |] | kws |]; lra.
Qed.

Lemma total_bonus_nonneg cfg traits acc :
  bonuses_nonneg cfg ->
  Forall (fun t => 0 <= trait_confidence t) traits ->
  0 <= acc ->
  0 <= fold_left (fun total trait_info =>
                    total + trait_bonus_pct cfg (trait trait_info)
                            * trait_confidence trait_info) traits acc.
Proof.
  intros Hcfg Hall. revert acc.
  induction Hall as [| t traits Ht _ IH]; intros acc Hacc; simpl; [exact Hacc |].
  apply IH.
  pose proof (trait_bonus_pct_nonneg cfg (trait t) Hcfg).
  pose proof (Qmult_le_0_compat _ _ H Ht). lra.
Qed.

Lemma get_discount_bonus_bounds traits td :
  (traits <> [] -> get_discount_bonus traits td <= max_trait_bonus_pct (td_config td)) /\
  (bonuses_nonneg (td_config td) -> 0 <= max_trait_bonus_pct (td_config td) ->
   Forall (fun t => 0 <= trait_confidence t) traits ->
   0 <= get_discount_bonus traits td /\
   get_discount_bonus traits td <= max_trait_bonus_pct (td_config td)).
Proof.
  unfold get_discount_bonus, max_trait_bonus_pct.
  destruct traits as [| t traits]; [split; [congruence | intros; lra] |].
  split; [intros _; apply pymin_le_r |].
  intros Hcfg Hcap Hall. split; [| apply pymin_le_r].
  apply pymin_glb; [| exact Hcap].
  apply total_bonus_nonneg; [assumption | assumption | lra].
Qed.

Lemma detected_confidence_pos text td :
  Forall (fun t => 0 <= trait_confidence t) (snd (detect_traits text td)).
Proof.
  apply Forall_forall. intros d Hd. simpl in Hd.
  rewrite sort_by_confidence_perm in Hd.
  apply list_elem_of_omap in Hd as (entry & _ & H).
  apply detect_trait_Some in H as (Hpos & ->). simpl.
  apply Qlt_le_weak, keyword_confidence_bounds.
  split; [exact Hpos | apply count_matches_le].
Qed.

(** X11.  When no trait of the catalog has a negative bonus and the cap
    [max_trait_bonus_pct] (10 when not configured) is non-negative, the
    bonus computed from the traits detected in any text lies between 0 and
    the cap; this is the bonus that [create_negotiation_discount] passes
    on, which is 0 for an absent or empty text.  Whatever the catalog, a
    non-empty detection list never yields more than the cap. *)
Theorem detected_bonus_within_cap text td :
  bonuses_nonneg (td_config td) ->
  0 <= max_trait_bonus_pct (td_config td) ->
  (forall traits, traits <> [] ->
     get_discount_bonus traits td <= max_trait_bonus_pct (td_config td)) /\
  0 <= get_discount_bonus (snd (detect_traits text td)) td /\
  get_discount_bonus (snd (detect_traits text td)) td
  <= max_trait_bonus_pct (td_config td) /\
  (forall conversation_text,
     0 <= snd (fst (detect_bonus conversation_text td)) /\
     snd (fst (detect_bonus conversation_text td))
     <= max_trait_bonus_pct (td_config td)) /\
  snd (fst (detect_bonus None td)) = 0 /\
  snd (fst (detect_bonus (Some EmptyString) td)) = 0.
Proof.
  intros Hcfg Hcap.
  split; [intros traits; apply get_discount_bonus_bounds |].
  pose proof (proj2 (get_discount_bonus_bounds (snd (detect_traits text td)) td)
                Hcfg Hcap (detected_confidence_pos text td)) as [H0 H1].
  split; [exact H0 |]. split; [exact H1 |].
  split; [| split; reflexivity].
  intros conversation_text. unfold detect_bonus.
  destruct (truthy conversation_text); simpl; [| lra].
  pose proof (detected_confidence_pos (default EmptyString conversation_text) td)
    as Hpos. simpl in Hpos.
  destruct (sort_by_confidence _) as [| t ts] eqn:E; simpl; [lra |].
  apply (get_discount_bonus_bounds (t :: ts)
           {| td_config := td_config td;
              detected_traits := map trait (t :: ts);
              trait_keywords := trait_keywords td |}); assumption.
Qed.

Lemma detected_bonus_within_cap_witness :
  let bonus := get_discount_bonus
                 (snd (detect_traits "I am an INFLUENCER and a stylist"
                         used_detector)) used_detector in
  0 <= bonus /\ bonus <= 10.
Proof.
  assert (Hcfg : bonuses_nonneg (td_config used_detector))
    by (repeat constructor; vm_compute; discriminate).
  assert (Hcap : 0 <= max_trait_bonus_pct (td_config used_detector))
    by (vm_compute; discriminate).
  pose proof (detected_bonus_within_cap "I am an INFLUENCER and a stylist"
                used_detector Hcfg Hcap) as (_ & H0 & H1 & _).
  split; [exact H0 | exact H1].
Defined.

Lemma keyword_confidence_saturates m total :
  (0 < m <= total)%nat ->
  ((total <= 2 * m)%nat -> keyword_confidence m total == 1) /\
  ((2 * m < total)%nat ->
   keyword_confidence m total
   == inject_Z (Z.of_nat (2 * m)) / inject_Z (Z.of_nat total) /\
   keyword_confidence m total < 1).
Proof.
  intros [Hm Ht]. unfold keyword_confidence.
  set (a := inject_Z (Z.of_nat m)). set (b := inject_Z (Z.of_nat total)).
  assert (Hb : 0 < b)
    by (subst b; change 0 with (inject_Z 0); rewrite <- Zlt_Qlt; lia).
  assert (H2 : inject_Z (Z.of_nat (2 * m)) == 2 * a).
  { subst a. rewrite Nat2Z.inj_mul, inject_Z_mult. reflexivity. }
  assert (Hdiv : b * (a / b) == a) by (apply Qmult_div_r; lra).
  split.
  - intros Hle.
    assert (Hq : b <= 2 * a).
    { rewrite <- H2. subst b. rewrite <- Zle_Qle. lia. }
    assert (Hhalf : (1 # 2) <= a / b)
      by (apply Qle_shift_div_l; [exact Hb | lra]).
    unfold pymin. destruct (Qltb 1 (a / b * 2)) eqn:E; [reflexivity |].
    apply Qltb_ge in E. lra.
  - intros Hlt.
    assert (Hq : 2 * a < b).
    { rewrite <- H2. subst b. rewrite <- Zlt_Qlt. lia. }
    assert (Hhalf : a / b < (1 # 2))
      by (apply Qlt_shift_div_r; [exact Hb | lra]).
    assert (Heq : a / b * 2 == inject_Z (Z.of_nat (2 * m)) / b).
    { rewrite H2. unfold Qdiv. ring. }
    unfold pymin. destruct (Qltb 1 (a / b * 2)) eqn:E.
    + apply Qltb_lt in E. exfalso. lra.
    + split; [exact Heq | lra].
Qed.

(** X12.  Half of a trait's keywords is enough for full confidence: a
    detected trait has confidence 1 as soon as at least half of its keywords
    occur in the text, and confidence [2 * matches / len(keywords)], below
    1, otherwise.  A trait without keywords is never detected, so the
    division is never by zero. *)
Theorem confidence_saturates_at_half text td d :
  d ∈ snd (detect_traits text td) ->
  exists keywords,
    (trait d, keywords) ∈ trait_keywords td /\
    matches d = count_matches keywords (lower text) /\
    (0 < matches d <= length keywords)%nat /\
    ((length keywords <= 2 * matches d)%nat -> trait_confidence d == 1) /\
    ((2 * matches d < length keywords)%nat ->
     trait_confidence d
     == inject_Z (Z.of_nat (2 * matches d)) / inject_Z (Z.of_nat (length keywords))
     /\ trait_confidence d < 1).
Proof.
  simpl. rewrite sort_by_confidence_perm. intros Hd.
  apply list_elem_of_omap in Hd as ([name keywords] & Hin & H).
  apply detect_trait_Some in H as (Hpos & ->). simpl in *.
  exists keywords. split; [exact Hin |]. split; [reflexivity |].
  assert (Hb : (0 < count_matches keywords (lower text) <= length keywords)%nat)
    by (split; [exact Hpos | apply count_matches_le]).
  split; [exact Hb |]. apply keyword_confidence_saturates, Hb.
Qed.

Lemma confidence_saturates_at_half_witness :
  exists d, d ∈ snd (detect_traits "I am an INFLUENCER and a stylist" used_detector)
            /\ trait d = "salon_owner"%string /\ trait_confidence d == 1.
Proof.
  exists {| trait := "salon_owner"; trait_confidence := 2 # 2; matches := 1 |}.
  assert (Hin : {| trait := "salon_owner"; trait_confidence := 2 # 2; matches := 1 |}
                ∈ snd (detect_traits "I am an INFLUENCER and a stylist" used_detector))
    by (vm_compute; apply list_elem_of_here).
  split; [exact Hin |]. split; [reflexivity |].
  destruct (confidence_saturates_at_half _ _ _ Hin) as (kws & _ & _ & _ & _ & _).
  reflexivity.
Defined.

Lemma detected_names_sublist text catalog :
  map trait (omap (detect_trait text) catalog) `sublist_of` map fst catalog.
Proof.
  induction catalog as [| entry catalog IH]; simpl; [constructor |].
  destruct (detect_trait text entry) as [d |] eqn:E; simpl.
  - apply detect_trait_Some in E as (_ & ->). simpl. constructor. exact IH.
  - constructor. exact IH.
Qed.

(** X13.  When the names of the catalog are distinct (it is a JSON object),
    no trait is reported twice, every reported name is a catalog name, and
    there are at most as many detections as catalog traits; the names stored
    in the detector are those of the result. *)
Theorem detections_are_distinct_catalog_traits text td :
  NoDup (map fst (trait_keywords td)) ->
  NoDup (map trait (snd (detect_traits text td))) /\
  (forall d, d ∈ snd (detect_traits text td) ->
             trait d ∈ map fst (trait_keywords td)) /\
  (length (snd (detect_traits text td)) <= length (trait_keywords td))%nat /\
  detected_traits (fst (detect_traits text td))
  = map trait (snd (detect_traits text td)).
Proof.
  intros Hnd. simpl.
  pose proof (detected_names_sublist (lower text) (trait_keywords td)) as Hsub.
  assert (Hperm : map trait (sort_by_confidence
                     (omap (detect_trait (lower text)) (trait_keywords td)))
                  ≡ₚ map trait (omap (detect_trait (lower text)) (trait_keywords td)))
    by (apply fmap_Permutation, sort_by_confidence_perm).
  split; [| split; [| split; [| reflexivity]]].
  - rewrite Hperm. eapply sublist_NoDup; eassumption.
  - intros d Hd.
    assert (Hin : trait d ∈ map trait (sort_by_confidence
                     (omap (detect_trait (lower text)) (trait_keywords td))))
      by (apply list_elem_of_fmap; eauto).
    rewrite Hperm in Hin. eapply elem_of_sublist; eassumption.
  - rewrite (Permutation_length (sort_by_confidence_perm _)).
    apply sublist_length in Hsub. rewrite !length_map in Hsub. exact Hsub.
Qed.

Lemma detections_are_distinct_catalog_traits_witness :
  NoDup (map trait (snd (detect_traits "I am an INFLUENCER and a stylist"
                           used_detector))).
Proof.
  apply (detections_are_distinct_catalog_traits
           "I am an INFLUENCER and a stylist" used_detector).
  apply (bool_decide_unpack _). vm_compute. exact I.
Defined.

(** ** Text *)

Lemma is_space_lower c : is_space (lower_ascii c) = is_space c.
Proof. destruct c as [[] [] [] [] [] [] [] []]; reflexivity. Qed.

Lemma all_spaces_lower s : all_spaces (lower s) = all_spaces s.
Proof.
  unfold all_spaces. induction s as [| c s IH]; simpl; [reflexivity |].
  rewrite is_space_lower, IH. reflexivity.
Qed.

Lemma lstrip_all_spaces l x : all_spaces l = true -> lstrip (l +:+ x) = lstrip x.
Proof.
  unfold all_spaces. induction l as [| c l IH]; simpl; [reflexivity |].
  intros H. apply andb_true_iff in H as [Hc Hl]. rewrite Hc. apply IH, Hl.
Qed.

Lemma rstrip_all_spaces r : all_spaces r = true -> rstrip r = EmptyString.
Proof.
  unfold all_spaces. induction r as [| c r IH]; simpl; [reflexivity |].
  intros H. apply andb_true_iff in H as [Hc Hr]. rewrite (IH Hr), Hc. reflexivity.
Qed.

Lemma rstrip_app_spaces x r : all_spaces r = true -> rstrip (x +:+ r) = rstrip x.
Proof.
  intros Hr. induction x as [| c x IH]; simpl.
  - apply rstrip_all_spaces, Hr.
  - rewrite IH. reflexivity.
Qed.

Lemma lstrip_spaces r : all_spaces r = true -> lstrip r = EmptyString.
Proof.
  unfold all_spaces. induction r as [| c r IH]; simpl; [reflexivity |].
  intros H. apply andb_true_iff in H as [Hc Hr]. rewrite Hc. apply IH, Hr.
Qed.

Lemma strip_app_spaces m r : all_spaces r = true -> strip (m +:+ r) = strip m.
Proof.
  intros Hr. unfold strip. induction m as [| c m IH].
  - change (EmptyString +:+ r) with r.
    rewrite (lstrip_spaces r Hr). reflexivity.
  - change (String c m +:+ r) with (String c (m +:+ r)).
    cbn [lstrip]. destruct (is_space c); [exact IH |].
    apply (rstrip_app_spaces (String c m) r Hr).
Qed.

Lemma strip_padded l m r :
  all_spaces l = true -> all_spaces r = true ->
  strip (l +:+ m +:+ r) = strip m.
Proof.
  intros Hl Hr. unfold strip. rewrite lstrip_all_spaces by exact Hl.
  apply (strip_app_spaces m r Hr).
Qed.

(** X14.  The consent answer is read without regard to letter case and to
    surrounding whitespace: padding a message with whitespace on either side
    and changing the case of its letters does not change whether it counts
    as consent. *)
Theorem consent_ignores_case_and_padding l r m1 m2 :
  all_spaces l = true -> all_spaces r = true -> lower m1 = lower m2 ->
  consent_given (l +:+ m1 +:+ r) = consent_given m2.
Proof.
  intros Hl Hr Hm. unfold consent_given.
  rewrite !lower_app, Hm.
  rewrite strip_padded by (rewrite all_spaces_lower; assumption).
  reflexivity.
Qed.

Lemma consent_ignores_case_and_padding_witness :
  consent_given ("  " +:+ "Go Ahead" +:+ String "010" EmptyString) = true.
Proof.
  exact (consent_ignores_case_and_padding "  " (String "010" EmptyString)
           "Go Ahead" "go ahead" eq_refl eq_refl eq_refl).
Defined.

(** ** The matcher *)

Lemma mentions_cons ic c b s :
  mentions ic c (String b s) = char_eqb ic c b || mentions ic c s.
Proof. reflexivity. Qed.

Lemma match_word_mentions ic c w s m rest :
  match_word ic w s = Some (m, rest) ->
  mentions ic c rest = true -> mentions ic c s = true.
Proof.
  revert s m. induction w as [| a w IH]; intros s m; simpl.
  - intros [= _ <-]. auto.
  - destruct s as [| b s]; [discriminate |].
    destruct (char_eqb ic a b); [| discriminate].
    destruct (match_word ic w s) as [[m' rest'] |] eqn:E; [| discriminate].
    intros [= _ <-] H. rewrite mentions_cons.
    apply orb_true_iff. right. eapply IH; eassumption.
Qed.

Lemma dot_runs_mentions ic c s pr :
  pr ∈ dot_runs s -> mentions ic c (snd pr) = true -> mentions ic c s = true.
Proof.
  revert pr. induction s as [| b s IH]; intros pr; simpl.
  - intros H. inversion H.
  - destruct (Ascii.eqb b "010"); [intros H; inversion H |].
    intros H Hm. rewrite mentions_cons. apply orb_true_iff. right.
    apply elem_of_cons in H as [-> | H]; [exact Hm |].
    apply list_elem_of_fmap in H as (pr' & -> & H). eapply IH; eassumption.
Qed.

Lemma first_success_Some {A B} (k : A -> option B) l y :
  first_success k l = Some y -> exists x, x ∈ l /\ k x = Some y.
Proof.
  induction l as [| x l IH]; simpl; [discriminate |].
  destruct (k x) as [y' |] eqn:E.
  - intros [= <-]. exists x. split; [left | exact E].
  - intros H. destruct (IH H) as (x' & Hin & Hk). exists x'. split; [right |]; assumption.
Qed.

(** A literal character of the pattern occurs in every text it matches. *)
Lemma match_here_mentions ic c p :
  requires_char c p = true ->
  forall s groups, match_here ic p s = Some groups -> mentions ic c s = true.
Proof.
  induction p as [| t p IH]; simpl; [discriminate |].
  destruct t as [a | alts | lazy]; simpl.
  - intros Hreq s groups. destruct s as [| b s]; [discriminate |].
    destruct (char_eqb ic a b) eqn:Eab; [| discriminate].
    intros Hm. rewrite mentions_cons. apply orb_true_iff.
    destruct (Ascii.eqb a c) eqn:Eac.
    + apply Ascii.eqb_eq in Eac. subst. left. exact Eab.
    + right. eapply IH; eassumption.
  - intros Hreq s groups Hm.
    apply first_success_Some in Hm as (w & _ & Hw).
    destruct (match_word ic w s) as [[m rest] |] eqn:E; [| discriminate].
    destruct (match_here ic p rest) as [g |] eqn:Eg; [| discriminate].
    eapply match_word_mentions; [exact E |]. eapply IH; eassumption.
  - intros Hreq s groups Hm.
    apply first_success_Some in Hm as (pr & Hin & Hpr).
    destruct (match_here ic p (snd pr)) as [g |] eqn:Eg; [| discriminate].
    assert (Hin' : pr ∈ dot_runs s).
    { destruct lazy; [exact Hin |].
      apply list_elem_of_In, in_rev, list_elem_of_In. exact Hin. }
    eapply dot_runs_mentions; [exact Hin' |]. eapply IH; eassumption.
Qed.

Lemma search_mentions ic c p s groups :
  requires_char c p = true ->
  search ic p s = Some groups -> mentions ic c s = true.
Proof.
  intros Hreq. induction s as [| b s IH]; simpl.
  - destruct (match_here ic p EmptyString) eqn:E; [| discriminate].
    intros _. eapply match_here_mentions; eassumption.
  - destruct (match_here ic p (String b s)) eqn:E.
    + intros _. eapply match_here_mentions; eassumption.
    + intros H. rewrite mentions_cons. apply orb_true_iff. right. apply IH, H.
Qed.

Lemma lower_ascii_space c : lower_ascii c = " "%char -> c = " "%char.
Proof. destruct c as [[] [] [] [] [] [] [] []]; simpl; intros H; try discriminate H; reflexivity. Qed.

Lemma mentions_space_lower s :
  mentions true " " (lower s) = true -> has_space s = true.
Proof.
  induction s as [| b s IH]; [discriminate |].
  change (lower (String b s)) with (String (lower_ascii b) (lower s)).
  rewrite mentions_cons.
  change (has_space (String b s)) with (Ascii.eqb " " b || has_space s).
  intros H. apply orb_true_iff in H as [H | H]; apply orb_true_iff.
  - left. unfold char_eqb in H. apply Ascii.eqb_eq in H.
    rewrite lower_ascii_idempotent in H.
    change (lower_ascii " ") with " "%char in H. symmetry in H.
    apply lower_ascii_space in H. subst. reflexivity.
  - right. apply IH, H.
Qed.

Lemma family_needs_space patterns text :
  Forall (fun pattern => requires_char " " (re_compile pattern) = true) patterns ->
  is_Some (first_match patterns (lower text)) -> has_space text = true.
Proof.
  intros Hall [groups H]. unfold first_match in H.
  apply first_success_Some in H as (pattern & Hin & Hs).
  rewrite Forall_forall in Hall. specialize (Hall _ Hin).
  apply mentions_space_lower. eapply search_mentions; eassumption.
Qed.

(** X15.  Every pattern of the classifier contains a space, so a message
    without a space character (a single word) is never flagged: the result
    is [needed: False], and the consent gate refuses it for every router. *)
Theorem single_word_never_flagged user_message context router :
  has_space user_message = false ->
  detect_fact_check_needed user_message context
  = {| needed := false; agent_type := None; query := None; confidence := 0.0;
       extracted_info := None; claim := None |} /\
  should_ask_consent router (detect_fact_check_needed user_message context)
  = false.
Proof.
  intros Hns.
  assert (Hnone : forall patterns,
            Forall (fun pattern => requires_char " " (re_compile pattern) = true)
                   patterns ->
            first_match patterns (lower user_message) = None).
  { intros patterns Hall. apply eq_None_not_Some. intros H.
    apply (family_needs_space patterns user_message Hall) in H. congruence. }
  unfold detect_fact_check_needed.
  rewrite !Hnone by (repeat constructor).
  split; reflexivity.
Qed.

Lemma single_word_never_flagged_witness :
  needed (detect_fact_check_needed "according-to-me..." "") = false.
Proof.
  rewrite (proj1 (single_word_never_flagged "according-to-me..." ""
                    unconfigured_router eq_refl)).
  reflexivity.
Defined.

(** ** agent_router.py: dispatch *)

Lemma extract_never_names message :
  info_name (_extract_linkedin_info message) = None.
Proof.
  unfold _extract_linkedin_info.
  destruct (re_search "i work at (.+)" (lower message) false);
    destruct (re_search "i'm (a|an) (.+?) at (.+)" (lower message) false);
    reflexivity.
Qed.

(** X16.  For a directory-lookup detection of the classifier, the dispatch
    is a company lookup of the extracted company when one was extracted, and
    otherwise a person lookup of the matched text without company: the
    extraction never yields a name, so a person is never looked up together
    with a company. *)
Theorem linkedin_dispatch_shape user_message context router linkedin :
  linkedin_agent router = Some linkedin ->
  let d := detect_fact_check_needed user_message context in
  agent_type d = Some "linkedin"%string ->
  execute_fact_check router (agent_type d) (query d) (extracted_info d)
  = (if truthy (info_company (_extract_linkedin_info user_message))
     then lookup_company linkedin
            (str_of_option (info_company (_extract_linkedin_info user_message)))
     else lookup_person linkedin (str_of_option (query d)) None).
Proof.
  intros HL d. subst d. unfold detect_fact_check_needed.
  destruct (first_match linkedin_patterns (lower user_message)) as [groups |];
    [| destruct (first_match brave_patterns (lower user_message));
       [| destruct (first_match fact_check_patterns (lower user_message))];
       simpl; discriminate].
  simpl. intros _. unfold execute_fact_check. rewrite HL.
  rewrite bool_decide_eq_false_2 by discriminate.
  rewrite bool_decide_eq_true_2 by reflexivity.
  pose proof (extract_never_names user_message) as Hn.
  destruct (_extract_linkedin_info user_message) as [name company title].
  simpl in *. subst name. simpl.
  destruct (truthy company); reflexivity.
Qed.

Lemma linkedin_dispatch_shape_witness :
  let linkedin := {| lookup_person := fun _ _ =>
                       {| fc_success := true; fc_summary := Some "person"%string;
                          fc_error := None |};
                     lookup_company := fun _ =>
                       {| fc_success := true; fc_summary := Some "company"%string;
                          fc_error := None |} |} in
  let router := {| router_config := default_config; brave_agent := None;
                   linkedin_agent := Some linkedin |} in
  let d := detect_fact_check_needed "I work at Acme Corp" "" in
  fc_summary (execute_fact_check router (agent_type d) (query d)
                (extracted_info d)) = Some "company"%string.
Proof.
  intros linkedin router d. subst d.
  rewrite (linkedin_dispatch_shape "I work at Acme Corp" "" router linkedin
             eq_refl eq_refl).
  reflexivity.
Defined.

(** X17.  A tool that [tool_calls] of the configuration does not list is
    never bound by the router's constructor, whatever its own constructor
    would have produced: for a detection of that agent type the consent gate
    answers false, and a dispatch returns the structured failure without a
    summary. *)
Theorem disabled_tool_never_used cfg make_brave make_linkedin d tool q ctx :
  tool = "brave"%string \/ tool = "linkedin"%string ->
  tool ∉ tool_calls cfg ->
  agent_type d = Some tool ->
  let router := new_agent_router cfg make_brave make_linkedin in
  should_ask_consent router d = false /\
  capability_available router (agent_type d) = false /\
  execute_fact_check router (agent_type d) q ctx
  = {| fc_success := false; fc_summary := None;
       fc_error := Some ("Agent type '" +:+ tool
                         +:+ "' not available or not configured") |}.
Proof.
  intros Htool Hnot Hty router. subst router.
  assert (Hnone : forall A (x : option A), x = None -> ~ is_Some x)
    by (intros A x -> [? [=]]).
  unfold should_ask_consent, capability_available, execute_fact_check,
    new_agent_router. rewrite Hty. simpl.
  destruct Htool as [-> | ->].
  - rewrite (decide_False (P := "brave"%string ∈ tool_calls cfg)) by exact Hnot.
    rewrite (bool_decide_eq_true_2 (Some "brave"%string = Some "brave"%string))
      by reflexivity.
    rewrite (bool_decide_eq_false_2 (Some "brave"%string = Some "linkedin"%string))
      by discriminate.
    rewrite (bool_decide_eq_false_2 (is_Some (@None BraveAgent)))
      by (apply Hnone; reflexivity).
    rewrite (bool_decide_eq_false_2
               (Some "brave"%string = Some "brave"%string /\ is_Some (@None BraveAgent)))
      by (intros [_ H]; revert H; apply Hnone; reflexivity).
    rewrite (bool_decide_eq_false_2
               (Some "brave"%string = Some "linkedin"%string /\ _))
      by (intros [H _]; discriminate H).
    destruct (needed d); simpl; repeat split; reflexivity.
  - rewrite (decide_False (P := "linkedin"%string ∈ tool_calls cfg)) by exact Hnot.
    rewrite (bool_decide_eq_true_2 (Some "linkedin"%string = Some "linkedin"%string))
      by reflexivity.
    rewrite (bool_decide_eq_false_2 (Some "linkedin"%string = Some "brave"%string))
      by discriminate.
    rewrite (bool_decide_eq_false_2 (is_Some (@None LinkedInAgent)))
      by (apply Hnone; reflexivity).
    rewrite (bool_decide_eq_false_2
               (Some "linkedin"%string = Some "linkedin"%string
                /\ is_Some (@None LinkedInAgent)))
      by (intros [_ H]; revert H; apply Hnone; reflexivity).
    rewrite (bool_decide_eq_false_2
               (Some "linkedin"%string = Some "brave"%string /\ _))
      by (intros [H _]; discriminate H).
    destruct (needed d); simpl; repeat split; reflexivity.
Qed.

Lemma disabled_tool_never_used_witness :
  should_ask_consent (new_agent_router default_config (Some silent_brave) None)
    pending_detection = false.
Proof.
  apply (disabled_tool_never_used default_config (Some silent_brave) None
           pending_detection "brave" None None).
  - left. reflexivity.
  - apply not_elem_of_nil.
  - reflexivity.
Defined.

(** ** discount_service.py: the code and the session ledger *)

Lemma registry_session_invariant now sid (ps : PricingService) :
  registry_ok ps ->
  session_invariant (ps_config ps)
    (default (new_negotiation (ps_config ps) now) (negotiations ps !! sid)).
Proof.
  intros Hok. destruct (negotiations ps !! sid) as [n |] eqn:E; simpl.
  - exact (Hok _ _ E).
  - apply new_negotiation_invariant.
Qed.

Lemma make_discount_offer_as_call now sid d bonus (ps : PricingService) :
  registry_ok ps ->
  let n0 := default (new_negotiation (ps_config ps) now) (negotiations ps !! sid) in
  negotiations (fst (make_discount_offer now sid d bonus ps)) !! sid
  = Some (fst (run_call (CallDiscountOffer now d bonus) n0)) /\
  snd (make_discount_offer now sid d bonus ps)
  = snd (run_call (CallDiscountOffer now d bonus) n0).
Proof.
  intros Hok n0.
  pose proof (registry_session_invariant now sid ps Hok) as Hinv. fold n0 in Hinv.
  rewrite make_discount_offer_run. fold n0. simpl.
  rewrite (inv_config _ _ Hinv), lookup_insert_eq. split; reflexivity.
Qed.

(** The steps of [create_negotiation_discount] up to the offer. *)
Lemma create_negotiation_discount_offer env sid d code em ul text ds :
  let bonus := Fin (snd (fst (detect_bonus text (ds_trait_detector ds)))) in
  let offered := make_discount_offer (env_now env) sid d bonus (pricing_service ds) in
  pricing_service (fst (create_negotiation_discount env sid d code em ul text ds))
  = fst offered /\
  match snd (create_negotiation_discount env sid d code em ul text ds) with
  | DiscountCreated info =>
      exists offer, snd offered = Success offer /\
                    di_discount_pct info = ok_discount_pct offer /\
                    di_counter info = ok_counter offer /\
                    di_remaining_counters info = ok_remaining_counters offer
  | OfferRejected e => snd offered = Failure e
  | ShopifyFailed _ pct =>
      exists offer, snd offered = Success offer /\ pct = ok_discount_pct offer
  end.
Proof.
  intros bonus offered. subst offered bonus.
  unfold create_negotiation_discount, _create_simulated_discount.
  destruct (detect_bonus text (ds_trait_detector ds)) as [[detector bonus] names].
  simpl.
  destruct (make_discount_offer (env_now env) sid d (Fin bonus) (pricing_service ds))
    as [pricing [offer | e]]; simpl; [| split; reflexivity].
  destruct (shopify_client ds) as [client |]; simpl.
  - destruct (create_discount_code client _) as [result |]; simpl.
    + destruct (shopify_success result); simpl; split; eauto.
    + split; eauto.
  - split; eauto.
Qed.

(** A call that passes no NaN, on a session whose current discount is not
    NaN, returns no NaN. *)
Lemma run_call_result_not_nan c s s' r :
  call_not_nan c -> current_discount_pct s <> NaN ->
  run_call c s = (s', Success r) -> ok_discount_pct r <> NaN.
Proof.
  intros Hc Hcur E.
  apply run_call_success in E
    as (now & d' & o & _ & _ & _ & _ & _ & _ & Eod & _ & _ & Hd & Hshape).
  rewrite <- Eod.
  assert (Hd' : d' <> NaN).
  { destruct Hshape as [-> | [(p & -> & ->) | (q & bonus & -> & Hq & Hn)]].
    - exact Hc.
    - apply next_candidate_not_nan; assumption.
    - destruct q as [x |].
      + rewrite (Hq x eq_refl). simpl in Hc. congruence.
      + rewrite (Hn eq_refl).
        apply (next_candidate_not_nan s None); [exact Hcur | discriminate]. }
  destruct Hd as [-> | Hd]; [exact Hd' |]. apply fltb_not_nan in Hd. tauto.
Qed.

(** X18.  Every discount code that [create_negotiation_discount] issues,
    real or simulated, carries a counter between 1 and 3 with
    [remaining_counters = 3 - counter] and agrees with the session ledger,
    whose current discount and counter are those of the code.  Its
    percentage respects the merchant's limits - at most [max_discount_pct],
    leaving a margin of at least [floor_margin_pct] - whenever it is not
    NaN, and it is not NaN when the caller passes no NaN as [discount_pct]
    and the session does not stand at NaN.  (A NaN request passes the checks
    of [make_offer], so a code can be issued for it.) *)
Theorem issued_code_within_limits env sid d code em ul text ds info :
  registry_ok (pricing_service ds) ->
  snd (create_negotiation_discount env sid d code em ul text ds)
  = DiscountCreated info ->
  let cfg := ps_config (pricing_service ds) in
  let n0 := default (new_negotiation cfg (env_now env))
                    (negotiations (pricing_service ds) !! sid) in
  let ds' := fst (create_negotiation_discount env sid d code em ul text ds) in
  (di_discount_pct info <> NaN ->
   fle (di_discount_pct info) (Fin (max_discount_pct cfg)) /\
   fle (Fin (floor_margin_pct cfg)) (fsub (Fin 100) (di_discount_pct info))) /\
  (d <> Some NaN -> current_discount_pct n0 <> NaN ->
   di_discount_pct info <> NaN) /\
  (1 <= di_counter info <= 3)%Z /\
  di_remaining_counters info = (3 - di_counter info)%Z /\
  registry_ok (pricing_service ds') /\
  exists n, negotiations (pricing_service ds') !! sid = Some n /\
            current_discount_pct n = di_discount_pct info /\
            counter n = di_counter info /\
            Z.of_nat (length (offers n)) = di_counter info.
Proof.
  intros Hok Hres cfg n0 ds'. subst cfg ds'.
  pose proof (create_negotiation_discount_offer env sid d code em ul text ds)
    as [Hps Hshape].
  rewrite Hres in Hshape. destruct Hshape as (offer & Hoffer & Hd & Hk & Hr).
  set (bonus := Fin (snd (fst (detect_bonus text (ds_trait_detector ds))))) in *.
  pose proof (make_discount_offer_as_call (env_now env) sid d bonus _ Hok)
    as [Hlook Hsnd].
  pose proof (make_discount_offer_invariant (env_now env) sid d bonus _ Hok)
    as [Hcfg Hok'].
  pose proof (registry_session_invariant (env_now env) sid _ Hok) as Hinv.
  fold n0 in Hlook, Hsnd, Hinv.
  rewrite Hoffer in Hsnd. symmetry in Hsnd.
  destruct (run_call (CallDiscountOffer (env_now env) d bonus) n0)
    as [n' r] eqn:E. simpl in Hsnd, Hlook. subst r.
  pose proof (run_call_offer_counter _ _ _ _ E) as (o' & _ & _ & Hoc & Hor & _).
  pose proof (run_call_invariant _ (CallDiscountOffer (env_now env) d bonus) n0 Hinv)
    as Hinv'. rewrite E in Hinv'. simpl in Hinv'.
  pose proof (fun H1 H2 =>
                run_call_result_not_nan
                  (CallDiscountOffer (env_now env) d bonus) n0 n' offer H1 H2 E)
    as Hnan.
  apply run_call_success in E
    as (now & d' & o & Hlt & _ & Ek & _ & _ & Ecur & Eod & Eom & [Emar Hlim] & _).
  destruct Hinv as [Hc Hm Hb _ _ _].
  rewrite Hc in Hlim.
  rewrite Hd, Hk, Hr, Hoc, Hor, Hm.
  split.
  { rewrite <- Eod. intros Hn. destruct (Hlim Hn) as (H1 & _ & H3).
    split; [exact H1 |]. rewrite <- Emar. exact H3. }
  split; [intros H1 H2; apply Hnan; assumption |].
  split; [lia |]. split; [lia |].
  split.
  - rewrite Hps. unfold registry_ok. rewrite Hcfg. exact Hok'.
  - exists n'. rewrite Hps. split; [exact Hlook |].
    split; [rewrite <- Ecur; exact Eod |].
    split; [exact Ek |].
    rewrite (inv_length _ _ Hinv'). exact Ek.
Qed.

Lemma issued_code_within_limits_witness :
  exists info,
    snd (create_negotiation_discount example_env "s1" None None 10 1 None
           (new_discount_service default_config None)) = DiscountCreated info /\
    fle (di_discount_pct info) (Fin 20) /\
    fle (Fin 18) (fsub (Fin 100) (di_discount_pct info)).
Proof.
  eexists. split; [reflexivity |].
  assert (Hok : registry_ok
                  (pricing_service (new_discount_service default_config None)))
    by (unfold registry_ok; simpl; apply map_Forall_empty).
  pose proof (issued_code_within_limits example_env "s1" None None 10 1 None
                (new_discount_service default_config None) _ Hok eq_refl) as H.
  simpl in H. destruct H as (H1 & H2 & _).
  apply H1, H2; discriminate.
Defined.

(** X19.  An offer that succeeds uses up one counter of the session even
    when Shopify then rejects the code: after a [ShopifyFailed] result the
    session's counter and history have advanced by one and its current
    discount is the one reported in the failure.  When the offer itself is
    rejected, the session is stored exactly as it was (a fresh one for an
    unknown session). *)
Theorem rejected_code_still_uses_counter env sid d code em ul text ds :
  registry_ok (pricing_service ds) ->
  let n0 := default (new_negotiation (ps_config (pricing_service ds)) (env_now env))
                    (negotiations (pricing_service ds) !! sid) in
  let ds' := fst (create_negotiation_discount env sid d code em ul text ds) in
  (forall error pct,
     snd (create_negotiation_discount env sid d code em ul text ds)
     = ShopifyFailed error pct ->
     exists n, negotiations (pricing_service ds') !! sid = Some n /\
               counter n = (counter n0 + 1)%Z /\
               length (offers n) = S (length (offers n0)) /\
               current_discount_pct n = pct) /\
  (forall e,
     snd (create_negotiation_discount env sid d code em ul text ds)
     = OfferRejected e ->
     negotiations (pricing_service ds') !! sid = Some n0).
Proof.
  intros Hok n0 ds'. subst ds'.
  pose proof (create_negotiation_discount_offer env sid d code em ul text ds)
    as [Hps Hshape].
  set (bonus := Fin (snd (fst (detect_bonus text (ds_trait_detector ds))))) in *.
  pose proof (make_discount_offer_as_call (env_now env) sid d bonus _ Hok)
    as [Hlook Hsnd].
  fold n0 in Hlook, Hsnd. rewrite Hps.
  destruct (run_call (CallDiscountOffer (env_now env) d bonus) n0)
    as [n' r] eqn:E. simpl in Hsnd, Hlook.
  split.
  - intros error pct Hres. rewrite Hres in Hshape.
    destruct Hshape as (offer & Hoffer & ->).
    rewrite Hoffer in Hsnd. subst r.
    pose proof (run_call_counter (CallDiscountOffer (env_now env) d bonus) n0) as Hc.
    rewrite E in Hc. simpl in Hc. destruct Hc as (Hk & Hl & _).
    apply run_call_success in E
      as (now & d' & o & _ & _ & _ & _ & _ & Ecur & Eod & _).
    exists n'. repeat split; try assumption. rewrite <- Ecur. exact Eod.
  - intros e Hres. rewrite Hres in Hshape. rewrite Hshape in Hsnd. subst r.
    apply run_call_failure in E. subst n'. exact Hlook.
Qed.

Lemma rejected_code_still_uses_counter_witness :
  exists n,
    negotiations (pricing_service
      (fst (create_negotiation_discount example_env "s1" None None 10 1 None
              (new_discount_service default_config (Some rejecting_shopify)))))
    !! "s1"%string = Some n /\ counter n = 1%Z.
Proof.
  assert (Hok : registry_ok
                  (pricing_service
                     (new_discount_service default_config (Some rejecting_shopify))))
    by (unfold registry_ok; simpl; apply map_Forall_empty).
  destruct (proj1 (rejected_code_still_uses_counter example_env "s1" None None
                     10 1 None
                     (new_discount_service default_config (Some rejecting_shopify))
                     Hok) _ _ eq_refl) as (n & Hn & Hc & _).
  exists n. split; [exact Hn | exact Hc].
Defined.

(** ** bouncer.py: turns *)

Section Turns.
Variable str_of_number : Number -> string.

Lemma detect_typed user_message context :
  needed (detect_fact_check_needed user_message context) = true ->
  agent_type (detect_fact_check_needed user_message context) = Some "brave"%string \/
  agent_type (detect_fact_check_needed user_message context) = Some "linkedin"%string.
Proof.
  pose proof (detect_shapes user_message context) as Hs. simpl in Hs.
  destruct Hs as [(Hn & _) | [(_ & Ha & _) | (_ & Ha & _)]]; intros H;
    [congruence | right; exact Ha | left; exact Ha].
Qed.

(** The normal pipeline is the discount decision followed by the reply. *)
Lemma chat_idle_steps env a user_message :
  pending_fact_check a = None ->
  chat str_of_number env a user_message =
  (let self := append_message User user_message a in
   let context := _get_conversation_context self in
   let detection := detect_fact_check_needed user_message context in
   let detected := detect_traits context (trait_detector self) in
   let self := set_trait_detector (fst detected) self in
   match offer_step str_of_number env context
           (_detect_negotiation_intent user_message) (snd detected) self with
   | None =>
       {| turn_agent := fst (_create_discount_offer env (Some context) self);
          turn_dispatches := []; turn_outcome := Raised |}
   | Some self => reply_step detection self
   end).
Proof.
  intros Hp. unfold chat. rewrite Hp.
  rewrite (bool_decide_eq_false_2 (is_Some None)) by (intros [? [=]]).
  cbn [andb]. cbv zeta.
  destruct (detect_traits _ _) as [detector traits]. reflexivity.
Qed.
End Turns.

(** Closes the routine side goals of the statements about turns. *)
Ltac turn_side_goal :=
  solve [ reflexivity
        | assumption
        | discriminate
        | unfold same_collaborators; simpl; split_and!; reflexivity
        | eauto
        | intros _; split; reflexivity
        | intros [[=] | [=]] ].

Section TurnFacts.
Variable str_of_number : Number -> string.

Lemma offer_step_facts env text intent traits self :
  match offer_step str_of_number env text intent traits self with
  | Some a' =>
      same_collaborators self a' /\
      pending_fact_check a' = pending_fact_check self /\
      trait_detector a' = trait_detector self /\
      (exists added, conversation_history a' = conversation_history self ++ added /\
                     Forall (fun m => role m = System) added) /\
      (is_Some (last_discount_code self) -> is_Some (last_discount_code a')) /\
      (intent = false \/ traits = [] ->
       discount_service a' = discount_service self /\
       last_discount_code a' = last_discount_code self)
  | None =>
      intent = true /\ traits <> [] /\
      same_collaborators self (fst (_create_discount_offer env (Some text) self)) /\
      pending_fact_check (fst (_create_discount_offer env (Some text) self))
      = pending_fact_check self /\
      conversation_history (fst (_create_discount_offer env (Some text) self))
      = conversation_history self /\
      last_discount_code (fst (_create_discount_offer env (Some text) self))
      = last_discount_code self
  end.
Proof.
  assert (Hnil : exists added : list Message,
             conversation_history self = conversation_history self ++ added /\
             Forall (fun m => role m = System) added)
    by (exists []; rewrite app_nil_r; split; [reflexivity | constructor]).
  assert (Hone : forall text',
             exists added : list Message,
               conversation_history self ++ [{| role := System; content := text' |}]
               = conversation_history self ++ added /\
               Forall (fun m => role m = System) added)
    by (intros text'; eexists; split; [reflexivity | repeat constructor]).
  unfold offer_step, _create_discount_offer.
  destruct intent; simpl; [| split_and!; turn_side_goal].
  destruct traits as [| tr traits]; simpl.
  - split_and!; turn_side_goal.
  - destruct (create_negotiation_discount _ _ _ _ _ _ _ _) as [svc res]. simpl.
    destruct res as [info | e | err pct]; simpl.
    + destruct (discount_context str_of_number info); simpl;
        split_and!; turn_side_goal.
    + split_and!; turn_side_goal.
    + split_and!; turn_side_goal.
Qed.

Lemma reply_step_facts detection self :
  pending_fact_check self = None ->
  let t := reply_step detection self in
  let ask := needed detection && should_ask_consent (agent_router self) detection in
  turn_dispatches t = [] /\
  same_collaborators self (turn_agent t) /\
  discount_service (turn_agent t) = discount_service self /\
  trait_detector (turn_agent t) = trait_detector self /\
  last_discount_code (turn_agent t) = last_discount_code self /\
  (exists added, conversation_history (turn_agent t)
                 = conversation_history self ++ added /\
                 Forall (fun m => role m = Assistant) added) /\
  (turn_outcome t = Raised -> turn_agent t = self) /\
  (forall response consent_request,
     turn_outcome t = Replied response consent_request ->
     pending_fact_check (turn_agent t) = (if ask then Some detection else None) /\
     (ask = false -> consent_request = None) /\
     (ask = true ->
      agent_type detection = Some "brave"%string \/
      agent_type detection = Some "linkedin"%string ->
      is_Some consent_request)).
Proof.
  intros Hp t ask. subst t ask. unfold reply_step.
  assert (Hnil : exists added : list Message,
             conversation_history self = conversation_history self ++ added /\
             Forall (fun m => role m = Assistant) added)
    by (exists []; rewrite app_nil_r; split; [reflexivity | constructor]).
  assert (Hone : forall text,
             exists added : list Message,
               conversation_history self ++ [{| role := Assistant; content := text |}]
               = conversation_history self ++ added /\
               Forall (fun m => role m = Assistant) added)
    by (intros text; eexists; split; [reflexivity | repeat constructor]).
  destruct (_get_llm_response self) as [response |]; simpl.
  - destruct (needed detection && should_ask_consent (agent_router self) detection)
      eqn:Eask; simpl.
    + split_and!; try turn_side_goal.
      intros r cr [= <- <-]. split_and!; [reflexivity | discriminate |].
      intros _ [-> | ->]; simpl; eauto.
    + split_and!; try turn_side_goal.
      intros r cr [= <- <-]. split_and!; [exact Hp | reflexivity | discriminate].
  - split_and!; turn_side_goal.
Qed.
End TurnFacts.

Section Conversation.
Variable str_of_number : Number -> string.

Lemma same_collaborators_trans a b c :
  same_collaborators a b -> same_collaborators b c -> same_collaborators a c.
Proof.
  unfold same_collaborators. intros (H1 & H2 & H3 & H4 & H5) (G1 & G2 & G3 & G4 & G5).
  split_and!; congruence.
Qed.

(** What a turn with a pending detection does. *)
Lemma chat_consent_facts env a user_message d :
  pending_fact_check a = Some d ->
  let t := chat str_of_number env a user_message in
  same_collaborators a (turn_agent t) /\
  last_discount_code (turn_agent t) = last_discount_code a /\
  (exists added, conversation_history (turn_agent t)
                 = conversation_history a ++ added) /\
  (pending_fact_check (turn_agent t) = None \/
   pending_fact_check (turn_agent t) = Some d) /\
  turn_dispatches t = (if consent_given user_message then [dispatch_of d] else []) /\
  discount_service (turn_agent t) = discount_service a.
Proof.
  intros H t. subst t. rewrite (chat_pending str_of_number env a user_message d H).
  unfold _handle_consent_response. rewrite H.
  destruct (consent_given user_message).
  - destruct (_get_llm_response _) as [response |]; simpl;
      split_and!; try turn_side_goal;
      try (eexists; rewrite <- app_assoc; reflexivity);
      try (right; exact H).
  - simpl. split_and!; turn_side_goal.
Qed.

(** What a turn without pending detection does. *)
Lemma chat_idle_facts env a user_message :
  pending_fact_check a = None ->
  let t := chat str_of_number env a user_message in
  let context := _get_conversation_context (append_message User user_message a) in
  let detection := detect_fact_check_needed user_message context in
  let ask := needed detection && should_ask_consent (agent_router a) detection in
  turn_dispatches t = [] /\
  same_collaborators a (turn_agent t) /\
  (exists added,
     conversation_history (turn_agent t)
     = conversation_history a ++ {| role := User; content := user_message |} :: added) /\
  (is_Some (last_discount_code a) -> is_Some (last_discount_code (turn_agent t))) /\
  (_detect_negotiation_intent user_message = false \/
   snd (detect_traits context (trait_detector a)) = [] ->
   discount_service (turn_agent t) = discount_service a /\
   last_discount_code (turn_agent t) = last_discount_code a) /\
  (turn_outcome t = Raised -> pending_fact_check (turn_agent t) = None) /\
  (forall response consent_request,
     turn_outcome t = Replied response consent_request ->
     pending_fact_check (turn_agent t) = (if ask then Some detection else None) /\
     (is_Some consent_request <-> ask = true)).
Proof.
  intros Hp t context detection ask. subst t.
  rewrite (chat_idle_steps str_of_number env a user_message Hp). cbv zeta.
  fold context. fold detection.
  set (a1 := append_message User user_message a).
  change (trait_detector a1) with (trait_detector a).
  set (detected := detect_traits context (trait_detector a)).
  set (a2 := set_trait_detector (fst detected) a1).
  pose proof (offer_step_facts str_of_number env context
                (_detect_negotiation_intent user_message) (snd detected) a2) as Hoff.
  destruct (offer_step str_of_number env context
              (_detect_negotiation_intent user_message) (snd detected) a2)
    as [a3 |].
  - destruct Hoff as (Hsame & Hpend & _ & (added & Hhist & _) & Hcode & Hquiet).
    assert (Hp3 : pending_fact_check a3 = None) by (rewrite Hpend; exact Hp).
    pose proof (reply_step_facts detection a3 Hp3)
      as (Hdisp & Hsame' & Hds & _ & Hlast & (added' & Hhist' & _) & Hraise & Hreply).
    assert (Hrouter : agent_router a3 = agent_router a) by apply Hsame.
    rewrite Hrouter in Hreply.
    split_and!.
    + exact Hdisp.
    + eapply same_collaborators_trans; [| exact Hsame'].
      eapply same_collaborators_trans; [| exact Hsame].
      unfold same_collaborators. simpl. split_and!; reflexivity.
    + exists (added ++ added'). rewrite Hhist', Hhist. simpl.
      rewrite <- !app_assoc. reflexivity.
    + intros H. rewrite Hlast. apply Hcode, H.
    + intros H. rewrite Hds, Hlast. apply Hquiet, H.
    + intros H. rewrite (Hraise H). exact Hp3.
    + intros response consent_request H.
      destruct (Hreply _ _ H) as (Hpending & Hno & Hyes).
      split; [exact Hpending |].
      fold ask in Hno, Hyes, Hpending. destruct ask eqn:Eask.
      * split; [reflexivity | intros _].
        apply Hyes; [reflexivity |]. apply detect_typed.
        apply andb_true_iff in Eask. apply Eask.
      * rewrite (Hno eq_refl). split; [intros [? [=]] | discriminate].
  - destruct Hoff as (Hintent & Htraits & Hsame & Hpend & Hhist & Hcode).
    simpl. split_and!.
    + reflexivity.
    + eapply same_collaborators_trans; [| exact Hsame].
      unfold same_collaborators. simpl. split_and!; reflexivity.
    + exists []. rewrite Hhist. reflexivity.
    + rewrite Hcode. auto.
    + intros [H | H]; [congruence | contradiction].
    + intros _. rewrite Hpend. exact Hp.
    + discriminate.
Qed.

(** X20.  In a turn without pending detection no dispatch is made, and the
    consent prompt and the pending slot agree: when the turn returns, a
    consent request is returned exactly when a detection was stored, the
    stored detection is the classifier's result for this message, and it is
    stored exactly when it is needed and the consent gate accepts it; when
    the turn raises, nothing is stored. *)
Theorem idle_turn_consent_prompt env a user_message :
  pending_fact_check a = None ->
  let t := chat str_of_number env a user_message in
  let context := _get_conversation_context (append_message User user_message a) in
  let detection := detect_fact_check_needed user_message context in
  turn_dispatches t = [] /\
  (turn_outcome t = Raised -> pending_fact_check (turn_agent t) = None) /\
  (forall response consent_request,
     turn_outcome t = Replied response consent_request ->
     (is_Some consent_request <-> is_Some (pending_fact_check (turn_agent t))) /\
     (forall d, pending_fact_check (turn_agent t) = Some d -> d = detection) /\
     (is_Some (pending_fact_check (turn_agent t)) <->
      needed detection = true /\
      should_ask_consent (agent_router a) detection = true)).
Proof.
  intros Hp t context detection.
  pose proof (chat_idle_facts env a user_message Hp)
    as (Hdisp & _ & _ & _ & _ & Hraise & Hreply).
  fold t context detection in Hdisp, Hraise, Hreply.
  split; [exact Hdisp |]. split; [exact Hraise |].
  intros response consent_request H.
  destruct (Hreply _ _ H) as (Hpending & Hcr). rewrite Hpending, Hcr.
  destruct (needed detection && should_ask_consent (agent_router a) detection)
    eqn:Eask.
  - apply andb_true_iff in Eask. split_and!.
    + split; eauto.
    + intros d [= <-]. reflexivity.
    + split; eauto.
  - split_and!.
    + split; [discriminate | intros [? [=]]].
    + discriminate.
    + split; [intros [? [=]] |].
      intros [Hn Hs]. rewrite Hn, Hs in Eask. discriminate.
Qed.

End Conversation.

Lemma idle_turn_consent_prompt_witness :
  let a := new_bouncer_agent default_config "s1" "You are the Bouncer."
             replying_client search_only_router None in
  let t := chat plain_numbers example_env a
             "According to a recent report, X is true" in
  turn_dispatches t = [] /\
  turn_outcome t
  = Replied "Fine." (Some "Can I verify that on Brave search? (yes/no)"%string).
Proof.
  intros a t.
  split; [| vm_compute; reflexivity].
  exact (proj1 (idle_turn_consent_prompt plain_numbers example_env a
                  "According to a recent report, X is true" eq_refl)).
Defined.


Section Runs.
Variable str_of_number : Number -> string.

Lemma chat_any_facts env a user_message :
  let t := chat str_of_number env a user_message in
  same_collaborators a (turn_agent t) /\
  (exists added, conversation_history (turn_agent t)
                 = conversation_history a ++ added) /\
  (is_Some (last_discount_code a) -> is_Some (last_discount_code (turn_agent t))).
Proof.
  intros t. subst t. destruct (pending_fact_check a) as [d |] eqn:Hp.
  - pose proof (chat_consent_facts str_of_number env a user_message d Hp)
      as (Hs & Hl & Hh & _).
    split; [exact Hs |]. split; [exact Hh |]. rewrite Hl. auto.
  - pose proof (chat_idle_facts str_of_number env a user_message Hp)
      as (_ & Hs & (added & Hh) & Hl & _).
    split; [exact Hs |]. split; [| exact Hl]. eexists. exact Hh.
Qed.

Lemma chat_turn_safe env a user_message :
  pending_ok a ->
  let t := chat str_of_number env a user_message in
  pending_ok (turn_agent t) /\
  Forall (fun disp => capability_available (agent_router a)
                        (dispatch_agent_type disp) = true) (turn_dispatches t) /\
  (length (turn_dispatches t) <= if consent_given user_message then 1 else 0)%nat.
Proof.
  intros Hok t.
  assert (Hrouter : agent_router (turn_agent t) = agent_router a)
    by apply (chat_any_facts env a user_message).
  destruct (pending_fact_check a) as [d |] eqn:Hp.
  - pose proof (chat_consent_facts str_of_number env a user_message d Hp)
      as (_ & _ & _ & Hpend & Hdisp & _).
    fold t in Hpend, Hdisp. destruct (Hok d Hp) as (Hn & Hs & Hc).
    split_and!.
    + intros d' Hd'. rewrite Hrouter.
      destruct Hpend as [Hnone | Hsame]; [congruence |].
      rewrite Hsame in Hd'. injection Hd' as <-. auto.
    + rewrite Hdisp. destruct (consent_given user_message); repeat constructor.
      exact Hc.
    + rewrite Hdisp. destruct (consent_given user_message); simpl; lia.
  - pose proof (chat_idle_facts str_of_number env a user_message Hp)
      as (Hdisp & _ & _ & _ & _ & Hraise & Hreply).
    fold t in Hdisp, Hraise, Hreply.
    split_and!.
    + intros d' Hd'. rewrite Hrouter.
      destruct (turn_outcome t) as [response cr |] eqn:Eo.
      * destruct (Hreply _ _ eq_refl) as (Hpending & _).
        rewrite Hpending in Hd'.
        match type of Hd' with
        | (if ?ask then _ else _) = _ => destruct ask eqn:Eask; [| discriminate]
        end.
        injection Hd' as <-. apply andb_true_iff in Eask as [Hn Hs].
        split; [exact Hn |]. split; [exact Hs |].
        apply (should_ask_consent_typed (agent_router a)); [| exact Hs].
        apply detect_typed, Hn.
      * rewrite (Hraise eq_refl) in Hd'. discriminate.
    + rewrite Hdisp. constructor.
    + rewrite Hdisp. simpl. lia.
Qed.

(** X21.  Over any conversation that starts without a pending detection,
    every dispatch goes to a capability that is bound in the router, so the
    "not available or not configured" answer is never produced by a
    dispatch: each one is the dispatch of a detection the consent gate had
    accepted.  There are never more dispatches than affirmative answers, and
    the router is the same at the end. *)
Theorem dispatches_are_consented inputs a :
  pending_fact_check a = None ->
  let run := run_turns str_of_number inputs a in
  Forall (fun disp => capability_available (agent_router a)
                        (dispatch_agent_type disp) = true) (snd run) /\
  (length (snd run)
   <= length (List.filter consent_given (map snd inputs)))%nat /\
  agent_router (fst run) = agent_router a.
Proof.
  intros Hp.
  assert (Hok : pending_ok a) by (intros d Hd; congruence).
  clear Hp. revert a Hok.
  induction inputs as [| [env user_message] inputs IH]; intros a Hok.
  - simpl. split_and!; [constructor | lia | reflexivity].
  - pose proof (chat_turn_safe env a user_message Hok) as (Hok' & Hall & Hlen).
    assert (Hrouter : agent_router
                        (turn_agent (chat str_of_number env a user_message))
                      = agent_router a)
      by apply (chat_any_facts env a user_message).
    specialize (IH _ Hok'). rewrite Hrouter in IH.
    destruct IH as (IH1 & IH2 & IH3).
    cbn [run_turns fst snd map List.filter].
    split_and!.
    + apply Forall_app. split; assumption.
    + rewrite length_app.
      destruct (consent_given user_message); simpl in *; lia.
    + exact IH3.
Qed.

(** X22.  Pricing is only touched when the message shows negotiation intent
    and at least one trait is detected in the recent conversation: in every
    other turn, and in every turn that answers a consent request, the
    discount service (sessions, counters, offers) and the last discount code
    are exactly as before. *)
Theorem pricing_needs_intent_and_traits env a user_message :
  is_Some (pending_fact_check a) \/
  _detect_negotiation_intent user_message = false \/
  snd (detect_traits
         (_get_conversation_context (append_message User user_message a))
         (trait_detector a)) = [] ->
  let t := chat str_of_number env a user_message in
  discount_service (turn_agent t) = discount_service a /\
  last_discount_code (turn_agent t) = last_discount_code a.
Proof.
  intros H t. subst t. destruct (pending_fact_check a) as [d |] eqn:Hp.
  - pose proof (chat_consent_facts str_of_number env a user_message d Hp)
      as (_ & Hl & _ & _ & _ & Hds).
    split; assumption.
  - pose proof (chat_idle_facts str_of_number env a user_message Hp)
      as (_ & _ & _ & _ & Hquiet & _).
    apply Hquiet. destruct H as [[? [=]] | H]; exact H.
Qed.

(** X23.  A conversation never forgets: over any run of turns, whether they
    return or raise, the history only grows (the earlier messages, starting
    with the system prompt, stay in place), a discount code once issued
    stays available as [last_discount_code], and configuration, session id,
    prompt, model client and router are never replaced. *)
Theorem conversation_never_forgets inputs a :
  let a' := fst (run_turns str_of_number inputs a) in
  conversation_history a `prefix_of` conversation_history a' /\
  (is_Some (last_discount_code a) -> is_Some (last_discount_code a')) /\
  same_collaborators a a'.
Proof.
  revert a. induction inputs as [| [env user_message] inputs IH]; intros a.
  - simpl. split_and!; [reflexivity | auto |].
    unfold same_collaborators. split_and!; reflexivity.
  - pose proof (chat_any_facts env a user_message) as (Hs & (added & Hh) & Hl).
    destruct (IH (turn_agent (chat str_of_number env a user_message)))
      as (IH1 & IH2 & IH3).
    cbn [run_turns fst]. split_and!.
    + etransitivity; [| exact IH1]. rewrite Hh. apply prefix_app_r. reflexivity.
    + auto.
    + eapply same_collaborators_trans; eassumption.
Qed.
End Runs.

Lemma dispatches_are_consented_witness :
  let a := new_bouncer_agent default_config "s1" "You are the Bouncer."
             replying_client search_only_router None in
  let inputs := [(example_env, "According to a recent report, X is true");
                 (example_env, "yes"); (example_env, "yes")]%string in
  length (snd (run_turns plain_numbers inputs a)) = 1%nat /\
  Forall (fun disp => capability_available (agent_router a)
                        (dispatch_agent_type disp) = true)
         (snd (run_turns plain_numbers inputs a)).
Proof.
  intros a inputs. split; [vm_compute; reflexivity |].
  exact (proj1 (dispatches_are_consented plain_numbers inputs a eq_refl)).
Defined.

Lemma pricing_needs_intent_and_traits_witness :
  let a := new_bouncer_agent salon_config "s1" "You are the Bouncer."
             replying_client search_only_router None in
  discount_service
    (turn_agent (chat plain_numbers example_env a "I own a salon, what is new?"))
  = discount_service a.
Proof.
  intros a.
  assert (H : _detect_negotiation_intent "I own a salon, what is new?" = false)
    by (vm_compute; reflexivity).
  exact (proj1 (pricing_needs_intent_and_traits plain_numbers example_env a
                  "I own a salon, what is new?" (or_intror (or_introl H)))).
Defined.

(** ** bouncer_api.py *)

(** X24.  The endpoint rejects a request without a JSON body (500) and a
    request whose message is absent or blank (400) before it looks at the
    registry: no session is created or changed.  Every other request only
    touches the session it addresses - the [session_id] of the body when it
    is non-empty, a fresh uuid otherwise: all other sessions stay as they
    are, and a 200 answer names the addressed session, which is then stored
    with the state the turn left. *)
Theorem api_chat_touches_one_session str_of_number env fresh_uuid deployment
    (sessions : gmap string BouncerAgent) data :
  let result := api_chat str_of_number env fresh_uuid deployment sessions data in
  (data = None -> result = (sessions, ApiServerError)) /\
  (forall body, data = Some body ->
     strip (default EmptyString (request_message body)) = EmptyString ->
     result = (sessions, ApiMessageRequired)) /\
  (forall body other, data = Some body ->
     other <> addressed_session fresh_uuid body ->
     fst result !! other = sessions !! other) /\
  (forall body response sid consent_request code,
     data = Some body ->
     snd result = ApiOk response sid consent_request code ->
     sid = addressed_session fresh_uuid body /\
     exists before,
       get_or_create_session deployment sid sessions = Some before /\
       fst result !! sid
       = Some (turn_agent
                 (chat str_of_number env (snd before)
                    (strip (default EmptyString (request_message body)))))).
Proof.
  intros result. subst result. unfold api_chat, addressed_session.
  split_and!.
  - intros ->. reflexivity.
  - intros body -> ->. reflexivity.
  - intros body other -> Hne.
    destruct (truthy (Some (strip _))); [| reflexivity].
    unfold get_or_create_session.
    destruct (sessions !! _) as [agent |] eqn:E; simpl.
    + destruct (turn_outcome _); simpl; rewrite lookup_insert_ne by congruence;
        reflexivity.
    + destruct (construct_agent deployment _) as [agent |]; [| reflexivity].
      destruct (turn_outcome _); simpl; rewrite !lookup_insert_ne by congruence;
        reflexivity.
  - intros body response sid consent_request code ->.
    destruct (truthy (Some (strip _))); [| discriminate].
    destruct (get_or_create_session deployment _ sessions)
      as [[sessions' agent] |] eqn:Eg; [| discriminate].
    destruct (turn_outcome _) eqn:Eo; simpl; [| discriminate].
    intros [= <- <- <- <-]. split; [reflexivity |].
    exists (sessions', agent). split; [exact Eg |]. simpl. apply lookup_insert_eq.
Qed.

Lemma api_chat_touches_one_session_witness :
  api_chat plain_numbers example_env "uuid-1"
    {| deployed_config := default_config; deployed_prompt := "You are the Bouncer.";
       deployed_client := Some replying_client; deployed_brave := None;
       deployed_linkedin := None; deployed_shopify := None |}
    ∅ (Some {| request_message := Some "   "%string;
               request_session_id := Some "s1"%string |})
  = (∅, ApiMessageRequired).
Proof.
  apply (proj1 (proj2 (api_chat_touches_one_session plain_numbers example_env
                         "uuid-1" _ ∅ _)) _ eq_refl).
  reflexivity.
Defined.

(** ** fact_checkers/linkedin_agent.py *)

Lemma join_cons_prefix sep first rest :
  exists tail, join sep (first :: rest) = first +:+ tail.
Proof.
  destruct rest as [| second rest]; simpl.
  - exists EmptyString. clear.
    induction first as [| c first IH]; [reflexivity |].
    change (String c first = String c (first +:+ EmptyString)).
    f_equal. exact IH.
  - eexists. reflexivity.
Qed.

(** X25.  The summary of a found profile always starts with its name line
    ("Name: " and the name, "Unknown" when the profile has none); the
    fallback text "Limited profile information available." is never
    returned, and a missing profile gives "No profile found.".  The title
    line uses [headline] only when the profile has no [title] key. *)
Theorem profile_summary_starts_with_name result :
  _format_profile result <> "Limited profile information available."%string /\
  (result = None -> _format_profile result = "No profile found."%string) /\
  (forall profile, result = Some profile ->
     exists tail,
       _format_profile result
       = "Name: " +:+ default "Unknown"%string (profile_name profile) +:+ tail) /\
  (forall profile title, result = Some profile ->
     profile_title profile = Some title ->
     _format_profile result
     = _format_profile
         (Some {| profile_name := profile_name profile;
                  profile_title := Some title;
                  profile_headline := None;
                  profile_company := profile_company profile;
                  profile_location := profile_location profile |})).
Proof.
  assert (Hname : forall profile,
            exists tail,
              _format_profile (Some profile)
              = "Name: " +:+ default "Unknown"%string (profile_name profile) +:+ tail).
  { intros profile. unfold _format_profile.
    cbn [app].
    destruct (join_cons_prefix (String "010" EmptyString)
                ("Name: " +:+ default "Unknown"%string (profile_name profile))
                ((if truthy (Some match profile_title profile with
                                   | Some title => title
                                   | None => default EmptyString
                                               (profile_headline profile)
                                   end)
                  then ["Title: " +:+ match profile_title profile with
                                      | Some title => title
                                      | None => default EmptyString
                                                  (profile_headline profile)
                                      end]
                  else [])
                 ++ (if truthy (Some (default EmptyString (profile_company profile)))
                     then ["Company: " +:+ default EmptyString (profile_company profile)]
                     else [])
                 ++ (if truthy (Some (default EmptyString (profile_location profile)))
                     then ["Location: " +:+ default EmptyString (profile_location profile)]
                     else []))) as [tail Ht].
    exists tail. etransitivity; [| exact Ht]. reflexivity. }
  split_and!.
  - destruct result as [profile |]; [| discriminate].
    destruct (Hname profile) as [tail ->]. discriminate.
  - intros ->. reflexivity.
  - intros profile ->. apply Hname.
  - intros profile title -> Ht. unfold _format_profile. simpl. rewrite Ht.
    reflexivity.
Qed.

Lemma profile_summary_starts_with_name_witness :
  exists tail,
    _format_profile (Some {| profile_name := None; profile_title := None;
                             profile_headline := Some "Stylist"%string;
                             profile_company := None;
                             profile_location := None |})
    = "Name: Unknown" +:+ tail.
Proof.
  exact (proj1 (proj2 (proj2 (profile_summary_starts_with_name _))) _ eq_refl).
Defined.
